(** * Measurement-Network: dispatch, correlation, liveness and bounded storage

    A shallow embedding of the JavaScript sources of the repository

      - management-api/src/storage.js   (class JSONStorage)
      - management-api/src/index.js     (class ManagementAPI)
      - anchor-service/src/index.js     (class AnchorService)
      - modules/ping-module/src/index.js (classes PingModule and DNSModule)
      - modules/http-module/src/index.js (HTTPModule.sanitizeHeaders)

    JavaScript values are embedded as the inductive type [value]; objects are
    finite maps from property names to values.  Strings are sequences of
    code units below 256 (Rocq [string]).  Exceptions and the state a handler
    mutates are threaded through a small state-and-exception monad; what the
    platform decides (clock, random suffixes, file and bus I/O outcomes, DNS
    and process results) is an explicit environment argument.  The
    conversions of values to strings in template literals are part of the
    handlers, log lines included: a conversion can throw, and where it
    stands decides what the handler has done by then.

    The file has three parts: the embedding of the sources, module by
    module; the notions and sample data the statements use; the lemmas and
    theorems. *)

From Stdlib Require Import ZArith Ascii String List Lia.
From stdpp Require Import gmap strings list fin_maps pretty.

Set Warnings "-register-all".

Open Scope string_scope.
Open Scope list_scope.
Open Scope Z_scope.

(* ===================================================================== *)
(** ** JavaScript values                                                  *)
(* ===================================================================== *)

Module Js.

(** The JSON-representable fragment of JavaScript values, plus [undefined].
    Numbers are the integers (timestamps, counters and limits are all that
    is computed with).  An object is a finite map from property names to
    values; the enumeration order of properties is not represented. *)
Inductive value : Type :=
| VUndef
| VNull
| VBool (b : bool)
| VNum (n : Z)
| VStr (s : string)
| VArr (items : list value)
| VObj (fields : gmap string value).

Abbreviation obj := (gmap string value).

(** [o.k] on an object: [undefined] when the property is absent. *)
Definition field (k : string) (o : obj) : value := default VUndef (o !! k).

(** [{ ...dst, ...src }]: the properties of [src] win over those of [dst]. *)
Definition assign (dst src : obj) : obj := src ∪ dst.

(** The own enumerable properties a spread [...v] copies. *)
Definition own_properties (v : value) : obj :=
  match v with
  | VObj o => o
  | VArr items => list_to_map (imap (fun i x => (pretty i, x)) items)
  | VStr s =>
      list_to_map (imap (fun i c => (pretty i, VStr (String c "")))
                        (list_ascii_of_string s))
  | _ => ∅
  end.

(** [v.k] on an arbitrary value, for the property names the sources read
    (none of them is a built-in of strings, numbers or arrays): a TypeError
    on [undefined] and [null], [undefined] on the other primitives. *)
Definition prop (v : value) (k : string) : option value :=
  match v with
  | VUndef | VNull => None
  | VObj o => Some (field k o)
  | _ => Some VUndef
  end.

(** Strict equality [===].  Arrays and objects are compared by reference;
    two values obtained from different [JSON.parse] calls or literals are
    never the same reference. *)
Definition strict_eq (a b : value) : bool :=
  match a, b with
  | VUndef, VUndef => true
  | VNull, VNull => true
  | VBool x, VBool y => Bool.eqb x y
  | VNum x, VNum y => Z.eqb x y
  | VStr x, VStr y => String.eqb x y
  | _, _ => false
  end.

(** ToBoolean. *)
Definition truthy (v : value) : bool :=
  match v with
  | VUndef | VNull => false
  | VBool b => b
  | VNum n => negb (Z.eqb n 0)
  | VStr s => negb (String.eqb s "")
  | VArr _ | VObj _ => true
  end.

(** [Array.prototype.join(",")] on already converted elements. *)
Fixpoint join_comma (l : list string) : string :=
  match l with
  | [] => ""
  | [s] => s
  | s :: rest => s +:+ "," +:+ join_comma rest
  end.

(** *** Number::toString on integers

    A Number that is an integer below [2^53] in magnitude prints as its
    decimal digits.  From [2^53] on, where not every integer is a Number,
    the digits printed are the shortest decimal that rounds to the Number
    (the closest to it when several do), followed by zeros up to
    [10^21] and in exponent notation from there.  [VNum n] stands for a
    Number, so [n] is taken to be exactly representable. *)

(** The distance between [x] and the next Number above it, for
    [2^52 <= x]. *)
Definition ulp (x : Z) : Z := 2 ^ (Z.log2 x - 52).

(** Whether the real [v] rounds to the Number [x] (ties to even): twice
    [v] lies between the midpoints to the neighbours of [x], the midpoints
    included when the significand of [x] is even. *)
Definition rounds_to (x v : Z) : bool :=
  let significand := x / ulp x in
  let below := if significand =? 2 ^ 52 then ulp x / 2 else ulp x in
  let above := ulp x in
  if Z.even significand
  then (2 * x - below <=? 2 * v) && (2 * v <=? 2 * x + above)
  else (2 * x - below <? 2 * v) && (2 * v <? 2 * x + above).

(** The decimal with [k] significant digits that rounds to [x], when there
    is one: the multiple of [10^(d-k)] just below or just above [x], the
    closer one when both do. *)
Definition rounded_to_digits (x : Z) (d k : nat) : option Z :=
  let q := 10 ^ Z.of_nat (d - k) in
  let low := (x / q) * q in
  let high := low + q in
  match rounds_to x low, rounds_to x high with
  | true, true => Some (if x - low <=? high - x then low else high)
  | true, false => Some low
  | false, true => Some high
  | false, false => None
  end.

Fixpoint shortest_from (x : Z) (d k : nat) (fuel : nat) : Z :=
  match fuel with
  | O => x
  | S fuel' =>
      match rounded_to_digits x d k with
      | Some v => v
      | None => shortest_from x d (S k) fuel'
      end
  end.

(** The value of the shortest decimal that rounds to [x], for [2^53 <= x]. *)
Definition shortest_decimal (x : Z) : Z :=
  let d := String.length (pretty x) in
  shortest_from x d 1 d.

Fixpoint strip_zeros (digits : list ascii) : list ascii :=
  match digits with
  | [] => []
  | c :: rest =>
      match strip_zeros rest with
      | [] => if Ascii.eqb c "0" then [] else [c]
      | kept => c :: kept
      end
  end.

(** [1.2345e+21]: the significant digits of [v], a point after the first
    when there are several, and the decimal exponent. *)
Definition exponent_notation (v : Z) : string :=
  let exponent := pretty (Z.of_nat (String.length (pretty v)) - 1) in
  match strip_zeros (list_ascii_of_string (pretty v)) with
  | [] => "0"
  | [c] => String c ("e+" +:+ exponent)
  | c :: more => String c ("." +:+ string_of_list_ascii more +:+ "e+" +:+ exponent)
  end.

Definition natural_to_string (x : Z) : string :=
  if x <? 2 ^ 53 then pretty x
  else
    let v := shortest_decimal x in
    if v <? 10 ^ 21 then pretty v else exponent_notation v.

Definition number_to_string (n : Z) : string :=
  if n <? 0 then "-" +:+ natural_to_string (- n) else natural_to_string n.

(** *** ToString

    ToString, as performed by a template literal [`${v}`]; [None] is the
    TypeError of a value that cannot be converted.  An object is converted
    through its [toString] method: [Object.prototype.toString] gives
    ["[object Object]"], but an own property [toString] hides it, and as
    the values here are data, never functions, the own property is not
    callable; [valueOf] then returns the object itself and the conversion
    throws.  An array is converted by [Array.prototype.join], which
    converts its elements in turn, [undefined] and [null] to the empty
    string. *)
Fixpoint to_string (v : value) : option string :=
  match v with
  | VUndef => Some "undefined"
  | VNull => Some "null"
  | VBool true => Some "true"
  | VBool false => Some "false"
  | VNum n => Some (number_to_string n)
  | VStr s => Some s
  | VArr items =>
      join_comma <$>
        (fix elements (l : list value) : option (list string) :=
           match l with
           | [] => Some []
           | x :: rest =>
               match match x with
                     | VUndef | VNull => Some ""
                     | _ => to_string x
                     end, elements rest with
               | Some text, Some texts => Some (text :: texts)
               | _, _ => None
               end
           end) items
  | VObj o =>
      match o !! "toString" with
      | Some _ => None
      | None => Some "[object Object]"
      end
  end.

(** [Array.prototype.slice(start, end)] with integer arguments: negative
    indices count from the end, and both are clamped to the array. *)
Definition clamp_index (len k : Z) : Z :=
  if k <? 0 then Z.max (len + k) 0 else Z.min k len.

Definition slice {A : Type} (l : list A) (start stop : Z) : list A :=
  let len := Z.of_nat (length l) in
  let k := clamp_index len start in
  let final := clamp_index len stop in
  take (Z.to_nat (final - k)) (drop (Z.to_nat k) l).

(** [Array.prototype.slice(start)]: the end defaults to the length. *)
Definition slice_from {A : Type} (l : list A) (start : Z) : list A :=
  slice l start (Z.of_nat (length l)).

(** *** Strings *)

Definition code (c : ascii) : nat := nat_of_ascii c.

(** White space and line terminators removed by [String.prototype.trim]
    (those below code unit 256). *)
Definition is_white_space (c : ascii) : bool :=
  let n := code c in
  ((9 <=? n) && (n <=? 13) || (n =? 32) || (n =? 160))%nat.

(** Line terminators: the characters [.] does not match (no [s] flag). *)
Definition is_line_terminator (c : ascii) : bool :=
  let n := code c in ((n =? 10) || (n =? 13))%nat.

Fixpoint string_forallb (p : ascii -> bool) (s : string) : bool :=
  match s with
  | "" => true
  | String c rest => p c && string_forallb p rest
  end.

Fixpoint string_filter (p : ascii -> bool) (s : string) : string :=
  match s with
  | "" => ""
  | String c rest => if p c then String c (string_filter p rest) else string_filter p rest
  end.

Fixpoint trimStart (s : string) : string :=
  match s with
  | "" => ""
  | String c rest => if is_white_space c then trimStart rest else s
  end.

Definition trimEnd (s : string) : string :=
  String.rev (trimStart (String.rev s)).

Definition trim (s : string) : string := trimEnd (trimStart s).

(** [s.startsWith(p)] together with the remainder after [p]. *)
Fixpoint strip_prefix (p s : string) : option string :=
  match p, s with
  | "", _ => Some s
  | String a p', String b s' => if Ascii.eqb a b then strip_prefix p' s' else None
  | String _ _, "" => None
  end.

Definition startsWith (s p : string) : bool :=
  match strip_prefix p s with Some _ => true | None => false end.

Fixpoint includes (s needle : string) : bool :=
  startsWith s needle ||
  match s with
  | "" => false
  | String _ rest => includes rest needle
  end.

(** [toLowerCase] on code units below 256: A-Z and the Latin-1 capitals. *)
Definition lower_char (c : ascii) : ascii :=
  let n := code c in
  if ((65 <=? n) && (n <=? 90) ||
      (192 <=? n) && (n <=? 222) && negb (n =? 215))%nat
  then ascii_of_nat (n + 32) else c.

Fixpoint toLowerCase (s : string) : string :=
  match s with
  | "" => ""
  | String c rest => String (lower_char c) (toLowerCase rest)
  end.

(** [s.replace(/^(https?|ftp):\/\//, '')]. *)
Definition remove_protocol (s : string) : string :=
  match strip_prefix "https://" s with
  | Some rest => rest
  | None =>
      match strip_prefix "http://" s with
      | Some rest => rest
      | None =>
          match strip_prefix "ftp://" s with
          | Some rest => rest
          | None => s
          end
      end
  end.

(** [s.replace(/\/.*$/, '')]: the match starts at the leftmost [/] from which
    [.*] can reach the end of the input, that is, the leftmost [/] with no
    line terminator after it; the string is cut there. *)
Fixpoint remove_path (s : string) : string :=
  match s with
  | "" => ""
  | String c rest =>
      if Ascii.eqb c "/" && string_forallb (fun x => negb (is_line_terminator x)) rest
      then ""
      else String c (remove_path rest)
  end.

(** [s.replace(/^www\./, '')]. *)
Definition remove_www (s : string) : string :=
  match strip_prefix "www." s with
  | Some rest => rest
  | None => s
  end.

(** [payload.result.k] on a published payload. *)
Definition result_field (k : string) (payload : obj) : value :=
  match field "result" payload with
  | VObj r => field k r
  | _ => VUndef
  end.

(** An [Error] object with the given message ([error.message]). *)
Definition Error (msg : string) : obj := {[ "message" := VStr msg ]}.

End Js.

Import Js.

(* ===================================================================== *)
(** ** Handlers: state and exceptions                                     *)
(* ===================================================================== *)

Module Eff.

(** How a statement completes: normally with a value, or by throwing an
    error object. *)
Inductive completion (A : Type) : Type :=
| Normal (a : A)
| Thrown (error : obj).
Arguments Normal {A} a.
Arguments Thrown {A} error.

(** A computation over the mutable state [S]. *)
Definition M (S A : Type) : Type := S -> completion A * S.

Definition ret {S A} (a : A) : M S A := fun s => (Normal a, s).

Definition bind {S A B} (c : M S A) (k : A -> M S B) : M S B :=
  fun s =>
    match c s with
    | (Normal a, s') => k a s'
    | (Thrown e, s') => (Thrown e, s')
    end.

Definition throw {S A} (e : obj) : M S A := fun s => (Thrown e, s).

(** [try { body } catch (error) { handler }]: the state changes made by
    [body] before it threw are kept. *)
Definition try_catch {S A} (body : M S A) (handler : obj -> M S A) : M S A :=
  fun s =>
    match body s with
    | (Normal a, s') => (Normal a, s')
    | (Thrown e, s') => handler e s'
    end.

Definition get_state {S} : M S S := fun s => (Normal s, s).
Definition modify {S} (f : S -> S) : M S unit := fun s => (Normal tt, f s).

(** Run a computation on a component of the state. *)
Definition zoom {S T A} (get : S -> T) (put : T -> S -> S) (c : M T A) : M S A :=
  fun s => let (r, t') := c (get s) in (r, put t' s).

(** A property read [v.k], throwing the TypeError of [undefined]/[null]. *)
Definition read {S} (v : value) (k : string) : M S value :=
  match prop v k with
  | Some x => ret x
  | None =>
      throw (Error ("Cannot read properties of "
                    +:+ match v with VNull => "null" | _ => "undefined" end))
  end.

(** The conversion of a template literal, [`${v}`]. *)
Definition ToString {S} (v : value) : M S string :=
  match to_string v with
  | Some text => ret text
  | None => throw (Error "Cannot convert object to primitive value")
  end.

(** The method call [v.toString()]: a property read on [v], then the call of
    what was read.  On a value that is neither [undefined] nor [null] it
    ends as the conversion does: an own [toString] property is data and
    cannot be called. *)
Definition toString_method {S} (v : value) : M S string :=
  match v with
  | VUndef | VNull => bind (read v "toString") (fun _ => ret "")
  | VObj _ =>
      match to_string v with
      | Some text => ret text
      | None => throw (Error "toString is not a function")
      end
  | _ => ToString v
  end.

End Eff.

Import Eff.

Declare Scope handler_scope.
Delimit Scope handler_scope with handler.
Notation "x <- c ;; k" := (bind c (fun x => k))
  (at level 20, c at level 99, k at level 200, only parsing) : handler_scope.
Notation "c ;; k" := (bind c (fun _ => k))
  (at level 100, k at level 200, only parsing, right associativity) : handler_scope.
Open Scope handler_scope.

(** What arrives in [msg.data]: text [JSON.parse] rejects, or the text of a
    JSON value.  Payloads are carried as the value [JSON.stringify] was
    applied to; a property holding [undefined], which the text omits, reads
    as [undefined] on the receiving side as well. *)
Inductive wire : Type :=
| Malformed
| Json (v : value).

Definition JSON_parse {S} (data : wire) : M S value :=
  match data with
  | Malformed => throw (Error "Unexpected token in JSON")
  | Json v => ret v
  end.

(* ===================================================================== *)
(** ** The message bus connection                                          *)
(* ===================================================================== *)

Module Nats.

Record message : Type := { topic : string; data : value }.

(** A connection: [outages] lists, for the coming [publish] calls in order,
    whether the call throws (connection lost); past the end of the list the
    bus accepts.  [published] is what the bus accepted, oldest first. *)
Record connection : Type := {
  outages : list bool;
  published : list message
}.

Definition publish (subject : string) (payload : value) : M connection unit :=
  fun c =>
    match outages c with
    | true :: rest =>
        (Thrown (Error "CONNECTION_CLOSED"),
         {| outages := rest; published := published c |})
    | false :: rest =>
        (Normal tt,
         {| outages := rest;
            published := published c ++ [{| topic := subject; data := payload |}] |})
    | [] =>
        (Normal tt,
         {| outages := [];
            published := published c ++ [{| topic := subject; data := payload |}] |})
    end.

(** Whether the coming [publish] call is accepted. *)
Definition accepts (c : connection) : bool :=
  match outages c with
  | true :: _ => false
  | _ => true
  end.

(** The connection after one accepted [publish]. *)
Definition accepted (subject : string) (payload : value) (c : connection) : connection :=
  {| outages := tail (outages c);
     published := published c ++ [{| topic := subject; data := payload |}] |}.

(** The connection after one [publish] that threw. *)
Definition dropped (c : connection) : connection :=
  {| outages := tail (outages c); published := published c |}.

End Nats.

(* ===================================================================== *)
(** ** management-api/src/storage.js                                       *)
(* ===================================================================== *)

Module JSONStorage.

(** The contents of [data/measurements.json].  The class is the only writer
    of the file and always writes the JSON text of an array of objects, so
    the file either parses to such an array or cannot be read (missing,
    or holding text [JSON.parse] rejects). *)
Inductive file : Type :=
| Unreadable
| Stored (records : list obj).

(** How one [fs.writeFile] call ends: the new text is in place, or the call
    fails leaving the old text, or it fails after the file was truncated. *)
Inductive write_outcome : Type :=
| Written
| Refused
| Torn.

(** What the platform decides during one call of a storage method. *)
Record io : Type := {
  read_fails : bool;          (* [fs.readFile] rejects *)
  write : write_outcome;      (* [fs.writeFile] *)
  date_iso : string;          (* [new Date().toISOString()] *)
  date_now : Z;               (* [Date.now()] *)
  random36 : string           (* [Math.random().toString(36).substr(2, 9)] *)
}.

(** [JSON.parse(await fs.readFile(this.resultsFile, 'utf8'))]. *)
Definition readFile (e : io) : M file (list obj) :=
  fun f =>
    if read_fails e then (Thrown (Error "EIO: read failed"), f)
    else match f with
         | Unreadable => (Thrown (Error "ENOENT or SyntaxError"), f)
         | Stored records => (Normal records, f)
         end.

(** [await fs.writeFile(this.resultsFile, JSON.stringify(content, null, 2))]. *)
Definition writeFile (e : io) (content : list obj) : M file unit :=
  fun f =>
    match write e with
    | Written => (Normal tt, Stored content)
    | Refused => (Thrown (Error "EACCES: write failed"), f)
    | Torn => (Thrown (Error "ENOSPC: write failed"), Unreadable)
    end.

Definition loadAll (e : io) : M file (list obj) :=
  try_catch (readFile e) (fun _ => ret []).

(** The stored record built from a result:
    [{ ...result, _persisted: true, _savedAt: ..., _id: `meas_${..}_${..}` }]. *)
Definition measurement (e : io) (result : value) : obj :=
  <["_id" := VStr ("meas_" +:+ pretty (date_now e) +:+ "_" +:+ random36 e)]>
    (<["_savedAt" := VStr (date_iso e)]>
       (<["_persisted" := VBool true]> (own_properties result))).

Definition saveMeasurement (e : io) (result : value) : M file bool :=
  try_catch
    (data <- loadAll e ;;
     (* data.unshift(measurement) *)
     let data := measurement e result :: data in
     let trimmedData := slice data 0 1000 in
     writeFile e trimmedData ;;
     (* console.log(`Measurement saved: ${result.jobId}`) *)
     jobId <- read result "jobId" ;;
     ToString jobId ;;
     ret true)
    (fun _ => ret false).

(** [limit = 50] and [limit = 100] are the defaults of a missing argument. *)
Definition getByType (e : io) (type : value) (limit : option Z) : M file (list obj) :=
  data <- loadAll e ;;
  ret (slice (List.filter (fun item => strict_eq (field "type" item) type) data)
             0 (default 50 limit)).

Definition getRecent (e : io) (limit : option Z) : M file (list obj) :=
  data <- loadAll e ;;
  ret (slice data 0 (default 100 limit)).

(** The sequence the store holds, as [loadAll] returns it when the read
    works, and as it returns it under the read outcome of [e]. *)
Definition records_of (f : file) : list obj :=
  match f with
  | Unreadable => []
  | Stored records => records
  end.

Definition loaded (e : io) (f : file) : list obj :=
  if read_fails e then [] else records_of f.

(** The two readings an [_id] is generated from. *)
Definition id_seed (e : io) : Z * string := (date_now e, random36 e).

(** The file after an append, and after each append of a sequence. *)
Definition after_append (call : io * value) (f : file) : file :=
  snd (saveMeasurement (fst call) (snd call) f).

Fixpoint history (calls : list (io * value)) (f : file) : list file :=
  match calls with
  | [] => []
  | call :: rest => after_append call f :: history rest (after_append call f)
  end.

(** [Array.prototype.find]: [undefined] when no item passes. *)
Definition find_item (p : obj -> bool) (data : list obj) : value :=
  match List.find p data with
  | Some item => VObj item
  | None => VUndef
  end.

Definition getByJobId (e : io) (jobId : value) : M file value :=
  data <- loadAll e ;;
  ret (find_item (fun item => strict_eq (field "jobId" item) jobId) data).

End JSONStorage.

(* ===================================================================== *)
(** ** management-api/src/index.js                                         *)
(* ===================================================================== *)

Module ManagementAPI.

(** A WebSocket client of [this.wss]: its [readyState] and what was sent to
    it with [client.send], oldest first. *)
Inductive ready_state : Type := CONNECTING | OPEN | CLOSING | CLOSED.

Record client : Type := {
  readyState : ready_state;
  inbox : list value
}.

(** The fields of the [ManagementAPI] instance the handlers touch.  (The
    repository holds two copies of this file; the handlers embedded here
    are the same in both.) *)
Record api : Type := {
  natsConnection : Nats.connection;
  jobResults : list obj;
  storage : JSONStorage.file;
  wss : option (list client)
}.

Definition set_natsConnection (c : Nats.connection) (st : api) : api :=
  {| natsConnection := c; jobResults := jobResults st;
     storage := storage st; wss := wss st |}.

Definition set_jobResults (jobs : list obj) (st : api) : api :=
  {| natsConnection := natsConnection st; jobResults := jobs;
     storage := storage st; wss := wss st |}.

Definition set_storage (f : JSONStorage.file) (st : api) : api :=
  {| natsConnection := natsConnection st; jobResults := jobResults st;
     storage := f; wss := wss st |}.

Definition set_wss (w : option (list client)) (st : api) : api :=
  {| natsConnection := natsConnection st; jobResults := jobResults st;
     storage := storage st; wss := w |}.

(** The clock and random readings of one [POST /api/jobs] request. *)
Record request_env : Type := {
  id_now : Z;           (* [Date.now()] inside [generateJobId] *)
  id_random36 : string; (* [Math.random().toString(36).substr(2, 9)] *)
  timestamp_now : Z     (* [Date.now()] of the [timestamp] property *)
}.

(** What [res.json] / [res.status(..).json] sends back. *)
Record response : Type := {
  status : Z;
  body : obj
}.

Definition generateJobId (e : request_env) : string :=
  "job_" +:+ pretty (id_now e) +:+ "_" +:+ id_random36 e.

(** [const job = { id, type, target, timestamp, status: 'submitted' }]. *)
Definition new_job (e : request_env) (id : string) (type target : value) : obj :=
  list_to_map [("id", VStr id); ("type", type); ("target", target);
               ("timestamp", VNum (timestamp_now e));
               ("status", VStr "submitted")].

(** The handler of [POST /api/jobs], applied to [req.body]. *)
Definition post_jobs (e : request_env) (req_body : value) : M api response :=
  try_catch
    (let id := generateJobId e in
     type <- read req_body "type" ;;
     target <- read req_body "target" ;;
     let job := new_job e id type target in
     zoom natsConnection set_natsConnection
          (Nats.publish "mmn.jobs.submit" (VObj job)) ;;
     modify (fun st => set_jobResults (jobResults st ++ [job]) st) ;;
     ret {| status := 200;
            body := list_to_map [("success", VBool true);
                                 ("jobId", field "id" job)] |})
    (fun error =>
       ret {| status := 500;
              body := list_to_map [("success", VBool false);
                                   ("error", field "message" error)] |}).

(** [Array.prototype.findIndex] with a callback that may throw; [None] is
    the index [-1]. *)
Fixpoint findIndex {St : Type} (p : obj -> M St bool) (l : list obj) (i : nat)
  : M St (option nat) :=
  match l with
  | [] => ret None
  | x :: rest =>
      found <- p x ;;
      if found then ret (Some i) else findIndex p rest (S i)
  end.

Definition send (message : value) (c : client) : client :=
  match readyState c with
  | OPEN => {| readyState := OPEN; inbox := inbox c ++ [message] |}
  | _ => c
  end.

Definition broadcastToWebSocket (message : value) : M api unit :=
  modify (fun st =>
            match wss st with
            | None => st
            | Some clients => set_wss (Some (List.map (send message) clients)) st
            end).

(** The body of the [for await (const msg of sub)] loop of
    [startResultListener], for one message of [mmn.jobs.result.>]. *)
Definition on_result (e : JSONStorage.io) (msg : wire) : M api unit :=
  try_catch
    (result <- JSON_parse msg ;;
     st <- get_state ;;
     jobIndex <- findIndex (fun j => jobId <- read result "jobId" ;;
                                    ret (strict_eq (field "id" j) jobId))
                           (jobResults st) 0 ;;
     match jobIndex with
     | Some i =>
         modify (fun st =>
           set_jobResults
             (alter (fun job => assign job (own_properties result)) i (jobResults st))
             st)
     | None => ret tt
     end ;;
     zoom storage set_storage (JSONStorage.saveMeasurement e result) ;;
     broadcastToWebSocket
       (VObj (list_to_map [("type", VStr "job_result"); ("data", result)])) ;;
     (* console.log(`Result stored for job: ${result.jobId}`) *)
     jobId <- read result "jobId" ;;
     ToString jobId ;;
     ret tt)
    (fun _ => ret tt).

(** The loop itself, over the messages delivered so far, each with the
    storage I/O outcomes of its turn. *)
Fixpoint startResultListener (msgs : list (JSONStorage.io * wire)) (st : api) : api :=
  match msgs with
  | [] => st
  | (e, msg) :: rest => startResultListener rest (snd (on_result e msg st))
  end.

(** The handler of [GET /api/jobs]:
    [res.json(this.jobResults.slice(-50).reverse())]. *)
Definition get_jobs (st : api) : list obj :=
  reverse (slice_from (jobResults st) (-50)).

(** The ['connection'] handler of the WebSocket server: the new client is
    sent the last 20 entries of the job table. *)
Definition initial_results (st : api) : value :=
  VObj (list_to_map [("type", VStr "initial_results");
                     ("data", VArr (List.map VObj (slice_from (jobResults st) (-20))))]).

Definition on_connection (st : api) : api :=
  match wss st with
  | None => st
  | Some clients =>
      set_wss (Some (clients ++ [{| readyState := OPEN;
                                    inbox := [initial_results st] |}])) st
  end.

(** A sequence of [POST /api/jobs] requests, with the answer to each. *)
Fixpoint post_all (reqs : list (request_env * value)) (st : api)
  : list (completion response) * api :=
  match reqs with
  | [] => ([], st)
  | (e, req_body) :: rest =>
      let (answer, st') := post_jobs e req_body st in
      let (answers, st'') := post_all rest st' in
      (answer :: answers, st'')
  end.

End ManagementAPI.

(* ===================================================================== *)
(** ** anchor-service/src/index.js                                         *)
(* ===================================================================== *)

Module AnchorService.

(** The clock readings of one announcement: [Date.now()] and
    [new Date().toISOString()]. *)
Record env : Type := {
  now : Z;
  iso : string
}.

(** A value of [this.modules]:
    [{ ...moduleInfo, lastSeen, healthy, connectionTime }].  The three
    properties the handler writes hide the announced ones of the same
    name; the handlers read them and [rfcCompliance]. *)
Record module : Type := {
  announced : obj;
  lastSeen : Z;
  healthy : bool;
  connectionTime : string
}.

(** [this.modules], a [Map] from [moduleInfo.name] to the record, in
    insertion order.  Keys are compared as [Map] does: primitives by value,
    objects and arrays by reference, and the key of a freshly parsed
    message is a reference no earlier key has. *)
Definition registry : Type := list (value * module).

(** [Map.prototype.set]: an existing key keeps its place. *)
Fixpoint map_set (key : value) (m : module) (modules : registry) : registry :=
  match modules with
  | [] => [(key, m)]
  | (k, old) :: rest =>
      if strict_eq k key then (k, m) :: rest else (k, old) :: map_set key m rest
  end.

(** [Map.prototype.get]. *)
Fixpoint map_get (key : value) (modules : registry) : option module :=
  match modules with
  | [] => None
  | (k, m) :: rest => if strict_eq k key then Some m else map_get key rest
  end.

(** [module.rfcCompliance] on a record. *)
Definition rfcCompliance (m : module) : value := field "rfcCompliance" (announced m).

(** [v.length] on a value that is neither [undefined] nor [null]. *)
Definition length_of (v : value) : value :=
  match v with
  | VStr s => VNum (Z.of_nat (String.length s))
  | VArr items => VNum (Z.of_nat (length items))
  | VObj o => field "length" o
  | _ => VUndef
  end.

(** [v.forEach(callback)]: only an array has the method. *)
Definition forEach {St : Type} (v : value) (callback : value -> M St unit) : M St unit :=
  match v with
  | VArr items =>
      (fix each (l : list value) : M St unit :=
         match l with
         | [] => ret tt
         | x :: rest => callback x ;; each rest
         end) items
  | _ => throw (Error "forEach is not a function")
  end.

(** [v.join(', ')]: only an array has the method, and it converts the
    elements as the conversion of the array to a string does.  (The text
    feeds the console only; the separator is not represented.) *)
Definition join {St : Type} (v : value) : M St string :=
  match v with
  | VArr _ => ToString v
  | _ => throw (Error "join is not a function")
  end.

Section Numerals.

(** Whether a string, read as a numeric literal by ToNumber, denotes a
    number above zero. *)
Variable positive_numeral : string -> bool.

(** The comparison [v > 0]: ToPrimitive with hint number, then ToNumber.
    An array or object is converted to a string on the way (its [valueOf]
    returns the object itself); the string of an object is no numeral. *)
Definition greater_than_zero {St : Type} (v : value) : M St bool :=
  match v with
  | VUndef | VNull => ret false
  | VBool b => ret b
  | VNum n => ret (0 <? n)
  | VStr s => ret (positive_numeral s)
  | VArr _ => text <- ToString v ;; ret (positive_numeral text)
  | VObj _ => ToString v ;; ret false
  end.

(** [logModuleSummary]: the counts are read off the registry and printed;
    the set of all announced RFCs is collected with [forEach] and printed
    with [join]. *)
Fixpoint collect_rfcs (modules : registry) : M registry (list value) :=
  match modules with
  | [] => ret []
  | (_, m) :: rest =>
      mine <-
        (if truthy (rfcCompliance m)
         then
           match rfcCompliance m with
           | VArr items => ret items
           | _ => throw (Error "module.rfcCompliance.forEach is not a function")
           end
         else ret []) ;;
      others <- collect_rfcs rest ;;
      ret (mine ++ others)
  end.

Definition logModuleSummary : M registry unit :=
  modules <- get_state ;;
  allRFCs <- collect_rfcs modules ;;
  (* `Implemented RFCs: ${Array.from(allRFCs).join(', ')}` *)
  join (VArr allRFCs) ;;
  ret tt.

Definition handleModuleAnnouncement (e : env) (moduleInfo : value) : M registry unit :=
  (* console.log(`Name: ${moduleInfo.name}`), and so for version and type *)
  name <- read moduleInfo "name" ;;
  ToString name ;;
  version <- read moduleInfo "version" ;;
  ToString version ;;
  type <- read moduleInfo "type" ;;
  ToString type ;;
  (* if (moduleInfo.rfcCompliance && moduleInfo.rfcCompliance.length > 0) *)
  compliance <- read moduleInfo "rfcCompliance" ;;
  listed <- (if truthy compliance
             then greater_than_zero (length_of compliance)
             else ret false) ;;
  (if listed
   then
     (* console.log(`${rfc} - ${this.rfcCompliance[rfc] || 'Internet Standard'}`):
        once [rfc] is converted, the second part is a string of the table
        or a built-in of [Object.prototype] *)
     forEach compliance (fun rfc => ToString rfc ;; ret tt)
   else ret tt) ;;
  name <- read moduleInfo "name" ;;
  modify (map_set name {| announced := own_properties moduleInfo;
                          lastSeen := now e;
                          healthy := true;
                          connectionTime := iso e |}) ;;
  (* this.broadcastModuleUpdate() sends the records to the WebSocket
     clients and leaves the registry alone *)
  logModuleSummary.

(** The callback of [this.modules.forEach] in the health timer, on one
    entry of the registry: the record it leaves, or what it throws. *)
Definition check_module (t : Z) (name : value) (m : module) : M unit module :=
  if t - lastSeen m >? 30000
  then
    (if healthy m
     then
       (* console.log(`MODULE HEALTH ALERT: ${name}`) *)
       ToString name ;;
       (* `RFC Compliance: ${module.rfcCompliance
            ? module.rfcCompliance.join(', ') : 'Not specified'}` *)
       (if truthy (rfcCompliance m) then join (rfcCompliance m) else ret "Not specified") ;;
       ret tt
     else ret tt) ;;
    (* module.healthy = false *)
    ret {| announced := announced m; lastSeen := lastSeen m; healthy := false;
           connectionTime := connectionTime m |}
  else ret m.

(** One firing of the [setInterval] callback of [startHealthMonitoring]:
    [forEach] visits the entries in insertion order, and an exception in
    the callback ends the visit where it is thrown, the entries already
    visited staying as the callback left them.  ([unhealthyCount] only
    feeds the console.) *)
Fixpoint startHealthMonitoring (t : Z) (modules : registry) : completion unit * registry :=
  match modules with
  | [] => (Normal tt, [])
  | (name, m) :: rest =>
      match fst (check_module t name m tt) with
      | Normal m' =>
          let (outcome, rest') := startHealthMonitoring t rest in
          (outcome, (name, m') :: rest')
      | Thrown error => (Thrown error, (name, m) :: rest)
      end
  end.

(** What happens to the registry over time: a message of
    [mmn.modules.announce] is handled, or the timer fires.  ([start] awaits
    [connectToNATS], whose loop over the subscription ends when the
    subscription does or a handler throws, before it sets the timer: the
    service handles its announcements first and sweeps after.  The events
    here come in any order.) *)
Inductive event : Type :=
| Announce (e : env) (msg : wire)
| Sweep (t : Z).

Definition step (ev : event) : M registry unit :=
  match ev with
  | Announce e msg =>
      (* this.handleModuleAnnouncement(JSON.parse(msg.data)) *)
      moduleInfo <- JSON_parse msg ;;
      handleModuleAnnouncement e moduleInfo
  | Sweep t => startHealthMonitoring t
  end.

(** The registry after the handlers of a sequence of events have run, one
    after the other, each to its end or to the exception it throws.  (An
    exception of the announcement handler ends the loop of [connectToNATS],
    and one of the timer callback is caught by nothing: after a handler
    that threw, the registry is as that handler left it, and the events
    that follow here are more than the service lives to see.) *)
Definition run (events : list event) (modules : registry) : registry :=
  fold_left (fun modules ev => snd (step ev modules)) events modules.

(** [this.modules.size], and
    [Array.from(this.modules.values()).filter(m => m.healthy).length]:
    [totalModules] and [healthyModules] of [logModuleSummary], the
    [modules] of [GET /health], the [total] and [healthy] of
    [GET /module-stats]. *)
Definition totalModules (modules : registry) : nat := length modules.

Definition healthyModules (modules : registry) : nat :=
  length (List.filter (fun entry => healthy (snd entry)) modules).

End Numerals.

End AnchorService.

(* ===================================================================== *)
(** ** modules/ping-module/src/index.js: class PingModule                  *)
(* ===================================================================== *)

(** How a promise of the platform settles: [child_process.exec] through
    [util.promisify], or a [dns.promises] lookup. *)
Inductive settled (A : Type) : Type :=
| Resolved (result : A)
| Rejected (error : obj).
Arguments Resolved {A} result.
Arguments Rejected {A} error.

Definition await {St A : Type} (p : settled A) : M St A :=
  match p with
  | Resolved a => ret a
  | Rejected e => throw e
  end.

Module PingModule.

(** What the platform decides while one job is processed. *)
Record host : Type := {
  platform : string;                               (* [process.platform] *)
  execPromise : string -> settled (string * string); (* command to stdout, stderr *)
  date_now : Z;                                    (* [Date.now()] *)
  date_iso : string;                               (* [.toISOString()] *)
  random36 : string                                (* random suffix *)
}.

(** The characters of the class [[;&|`$<>]]. *)
Definition is_shell_meta (c : ascii) : bool :=
  let n := code c in
  ((n =? 59) || (n =? 38) || (n =? 124) || (n =? 96) || (n =? 36)
   || (n =? 60) || (n =? 62))%nat.

Definition cleanTarget (target : string) : string :=
  trim (string_filter (fun c => negb (is_shell_meta c))
          (remove_path (remove_protocol target))).

(** [this.cleanTarget(target)] on whatever [job.target] holds: only a string
    has a [replace] method. *)
Definition call_cleanTarget {St : Type} (target : value) : M St string :=
  match target with
  | VStr s => ret (cleanTarget s)
  | VUndef | VNull => throw (Error "Cannot read properties of undefined (reading 'replace')")
  | _ => throw (Error "target.replace is not a function")
  end.

(** The record [parsePingOutput] returns. *)
Record parsed : Type := {
  success : bool;
  rtt : value;
  packetLoss : Z;
  packetsTransmitted : Z;
  packetsReceived : Z;
  message : string
}.

Definition createPingResult (h : host) (target : string) (ok : bool) (time : value)
    (loss : Z) (text : string) (transmitted received : Z) : obj :=
  list_to_map
    [("jobId", VStr ("ping_" +:+ pretty (date_now h) +:+ "_" +:+ random36 h));
     ("type", VStr "ping");
     ("target", VStr target);
     ("timestamp", VNum (date_now h));
     ("status", VStr "completed");
     ("result", VObj (list_to_map
        [("rtt", time);
         ("success", VBool ok);
         ("packetLoss", VNum loss);
         ("packetsTransmitted", VNum transmitted);
         ("packetsReceived", VNum received);
         ("message", VStr text);
         ("isRealMeasurement", VBool true);
         ("metadata", VObj (list_to_map
            [("protocol", VStr "ICMP");
             ("packets", VNum transmitted);
             ("platform", VStr (platform h));
             ("timestamp", VStr (date_iso h))]))]))].

(** The object literal of [createErrorResult], from [job.id], [job.target]
    and the text of [job.target] in the message. *)
Definition error_result (h : host) (id target : value)
    (target_text errorMessage : string) : obj :=
  list_to_map
    [("jobId", id);
     ("type", VStr "ping");
     ("target", target);
     ("timestamp", VNum (date_now h));
     ("status", VStr "completed");
     ("result", VObj (list_to_map
        [("rtt", VNull);
         ("success", VBool false);
         ("packetLoss", VNum 100);
         ("packetsTransmitted", VNum 0);
         ("packetsReceived", VNum 0);
         ("error", VStr errorMessage);
         ("message", VStr ("Ping to " +:+ target_text +:+ " failed: " +:+ errorMessage));
         ("isRealMeasurement", VBool true);
         ("metadata", VObj (list_to_map
            [("protocol", VStr "ICMP");
             ("packets", VNum 0);
             ("platform", VStr (platform h));
             ("timestamp", VStr (date_iso h))]))]))].

Definition createErrorResult {St : Type} (h : host) (job : value) (errorMessage : string)
  : M St obj :=
  id <- read job "id" ;;
  target <- read job "target" ;;
  (* message: `Ping to ${job.target} failed: ${errorMessage}` *)
  target_text <- ToString target ;;
  ret (error_result h id target target_text errorMessage).

Definition unknown_host : parsed :=
  {| success := false; rtt := VNull; packetLoss := 100; packetsTransmitted := 4;
     packetsReceived := 0; message := "Unknown host - DNS resolution failed" |}.

Definition network_unreachable : parsed :=
  {| success := false; rtt := VNull; packetLoss := 100; packetsTransmitted := 4;
     packetsReceived := 0; message := "Network unreachable" |}.

Section Strategy.

(** The statistics the two regular expressions of [parsePingOutput] extract
    from the output for the given platform, after [parseInt] /
    [parseFloat]: the packet loss percentage and the average round-trip
    time, when both expressions match. *)
Variable statistics : string -> string -> option (Z * value).

Definition parsePingOutput {St : Type} (stdout stderr pf : string) : M St parsed :=
  let output := stdout in
  let errorOutput := toLowerCase stderr in
  if includes errorOutput "unknown host" || includes errorOutput "could not find host"
     || includes errorOutput "name or service not known"
  then ret unknown_host
  else if includes errorOutput "network is unreachable"
  then ret network_unreachable
  else if includes output "Unknown host" || includes output "could not find host"
          || includes output "Ping request could not find host"
  then ret unknown_host
  else
    match statistics pf output with
    | Some (loss, time) =>
        let ok := loss <? 100 in
        text <-
          (if ok
           then
             (* `Ping successful - Avg RTT: ${rtt}ms, Loss: ${packetLoss}%` *)
             time_text <- ToString time ;;
             ret ("Ping successful - Avg RTT: " +:+ time_text +:+ "ms, Loss: "
                  +:+ number_to_string loss +:+ "%")
           else
             (* `Ping failed - ${packetLoss}% packet loss` *)
             ret ("Ping failed - " +:+ number_to_string loss +:+ "% packet loss")) ;;
        ret {| success := ok;
               rtt := if ok then time else VNull;
               packetLoss := loss;
               packetsTransmitted := 4;
               (* 4 - Math.round((packetLoss / 100) * 4) *)
               packetsReceived := 4 - (4 * loss + 50) / 100;
               message := text |}
    | None =>
        if includes output "bytes from" || includes output "Reply from"
        then ret {| success := true; rtt := VNum 50; packetLoss := 0;
                    packetsTransmitted := 4; packetsReceived := 4;
                    message := "Ping successful - received responses" |}
        else ret {| success := false; rtt := VNull; packetLoss := 100;
                    packetsTransmitted := 4; packetsReceived := 0;
                    message := "No response from host - 100% packet loss" |}
    end.

(** The [catch (error)] block of [executeRealPing]; [None] stands for
    falling through to the next statement. *)
Definition ping_failed {St : Type} (h : host) (target : string) (error : obj)
  : M St obj :=
  let failure text := createPingResult h target false VNull 100 text 4 0 in
  from_stderr <-
    (if truthy (field "stderr" error)
     then
       text <- toString_method (field "stderr" error) ;;
       let errorOutput := toLowerCase text in
       if includes errorOutput "unknown host" || includes errorOutput "could not find host"
          || includes errorOutput "name or service not known"
       then ret (Some (failure "Unknown host - DNS resolution failed"))
       else if includes errorOutput "network is unreachable"
       then ret (Some (failure "Network unreachable"))
       else if strict_eq (field "code" error) (VStr "ETIMEDOUT")
       then ret (Some (failure "Ping timeout - no response received"))
       else ret None
     else ret None) ;;
  match from_stderr with
  | Some result => ret result
  | None =>
      from_stdout <-
        (if truthy (field "stdout" error)
         then
           text <- toString_method (field "stdout" error) ;;
           let stdout := toLowerCase text in
           if includes stdout "unknown host" || includes stdout "could not find host"
           then ret (Some (failure "Unknown host - DNS resolution failed"))
           else ret None
         else ret None) ;;
      match from_stdout with
      | Some result => ret result
      | None =>
          (* `Ping failed: ${error.message}` *)
          text <- ToString (field "message" error) ;;
          ret (failure ("Ping failed: " +:+ text))
      end
  end.

(** The command line handed to the shell. *)
Definition command (h : host) (target : string) : string :=
  if String.eqb (platform h) "win32"
  then "ping -n 4 -w 3000 " +:+ target
  else "ping -c 4 -W 3 " +:+ target.

Definition executeRealPing {St : Type} (h : host) (target : value) : M St obj :=
  target <- call_cleanTarget target ;;
  try_catch
    (result <- await (execPromise h (command h target)) ;;
     parsedResult <- parsePingOutput (fst result) (snd result) (platform h) ;;
     ret (createPingResult h target (success parsedResult) (rtt parsedResult)
            (packetLoss parsedResult) (message parsedResult)
            (packetsTransmitted parsedResult) (packetsReceived parsedResult)))
    (fun error => ping_failed h target error).

Definition processPingJob (h : host) (job : value) : M Nats.connection unit :=
  try_catch
    (target <- read job "target" ;;
     pingResult <- executeRealPing h target ;;
     id <- read job "id" ;;
     let pingResult := <["jobId" := id]> pingResult in
     (* `mmn.jobs.result.${job.id}` *)
     id <- read job "id" ;;
     id_text <- ToString id ;;
     Nats.publish ("mmn.jobs.result." +:+ id_text) (VObj pingResult) ;;
     (* console.log(`REAL ping result for ${job.target}: ${...}`) *)
     target <- read job "target" ;;
     ToString target ;;
     ret tt)
    (fun error =>
       (* console.error(`REAL ping error for ${job.target}:`, error) *)
       target <- read job "target" ;;
       ToString target ;;
       (* `Ping failed: ${error.message}` *)
       text <- ToString (field "message" error) ;;
       errorResult <- createErrorResult h job ("Ping failed: " +:+ text) ;;
       id <- read job "id" ;;
       id_text <- ToString id ;;
       Nats.publish ("mmn.jobs.result." +:+ id_text) (VObj errorResult)).

(** The body of the [for await (const msg of subscription)] loop of
    [startJobProcessing], for one message of [mmn.jobs.submit]. *)
Definition on_job (h : host) (msg : wire) : M Nats.connection unit :=
  try_catch
    (job <- JSON_parse msg ;;
     type <- read job "type" ;;
     if strict_eq type (VStr "ping")
     then
       (* console.log(`Processing REAL ping: ${job.target}`) *)
       target <- read job "target" ;;
       ToString target ;;
       processPingJob h job
     else ret tt)
    (fun _ => ret tt).

Fixpoint startJobProcessing (msgs : list (host * wire)) (c : Nats.connection)
  : Nats.connection :=
  match msgs with
  | [] => c
  | (h, msg) :: rest => startJobProcessing rest (snd (on_job h msg c))
  end.

End Strategy.

End PingModule.

(* ===================================================================== *)
(** ** modules/ping-module/src/index.js: class DNSModule                   *)
(* ===================================================================== *)

Module DNSModule.

(** What the platform decides while one job is processed. *)
Record host : Type := {
  resolve4 : string -> settled (list string);
  resolve6 : string -> settled (list string);
  resolveAny : string -> settled (list obj);
  start_now : Z;      (* [Date.now()] before the lookups *)
  end_now : Z;        (* [Date.now()] after them *)
  date_now : Z;       (* [Date.now()] of the result *)
  date_iso : string;  (* [.toISOString()] *)
  random36 : string   (* random suffix *)
}.

Definition cleanTarget (target : string) : string :=
  trim (remove_www (remove_path (remove_protocol target))).

Definition call_cleanTarget {St : Type} (target : value) : M St string :=
  match target with
  | VStr s => ret (cleanTarget s)
  | VUndef | VNull => throw (Error "Cannot read properties of undefined (reading 'replace')")
  | _ => throw (Error "target.replace is not a function")
  end.

(** *** The domain regular expression

    [/^L(\.L)+$/] with [L = [a-zA-Z0-9]([a-zA-Z0-9-]{0,61}[a-zA-Z0-9])?]:
    at least two labels separated by dots, each of 1 to 63 characters,
    letters, digits and hyphens, beginning and ending with a letter or
    digit. *)

Definition is_alnum (c : ascii) : bool :=
  let n := code c in
  ((48 <=? n) && (n <=? 57) || (65 <=? n) && (n <=? 90)
   || (97 <=? n) && (n <=? 122))%nat.

Definition is_label_char (c : ascii) : bool := is_alnum c || Ascii.eqb c "-".

(** [s.split('.')]. *)
Fixpoint split_dots (s : string) : list string :=
  match s with
  | "" => [""]
  | String c rest =>
      if Ascii.eqb c "."
      then "" :: split_dots rest
      else match split_dots rest with
           | l :: ls => String c l :: ls
           | [] => [String c ""]
           end
  end.

Definition label (l : string) : bool :=
  match l with
  | "" => false
  | String c rest =>
      is_alnum c &&
      match String.rev rest with
      | "" => true
      | String d middle =>
          is_alnum d && (String.length middle <=? 61)%nat
          && string_forallb is_label_char middle
      end
  end.

Definition domainRegex (s : string) : bool :=
  match split_dots s with
  | l1 :: l2 :: ls => forallb label (l1 :: l2 :: ls)
  | _ => false
  end.

Definition isValidDomain (domain : value) : bool :=
  match domain with
  | VStr s =>
      if String.eqb s "" then false
      else
        let cleanDomain := cleanTarget s in
        if (String.length cleanDomain <? 1)%nat || (253 <? String.length cleanDomain)%nat
        then false
        else domainRegex cleanDomain
  | _ => false
  end.

Definition createDNSResult (h : host) (target : value) (ok : bool)
    (addresses : list value) (resolveTime : value) (text : string)
    (recordType : string) (errorCode : value) : obj :=
  list_to_map
    [("jobId", VStr ("dns_" +:+ pretty (date_now h) +:+ "_" +:+ random36 h));
     ("type", VStr "dns");
     ("target", target);
     ("timestamp", VNum (date_now h));
     ("status", VStr "completed");
     ("result", VObj (list_to_map
        [("addresses", VArr addresses);
         ("resolveTime", resolveTime);
         ("success", VBool ok);
         ("addressCount", VNum (Z.of_nat (length addresses)));
         ("recordType", VStr recordType);
         ("errorCode", errorCode);
         ("message", VStr text);
         ("isRealMeasurement", VBool true);
         ("metadata", VObj (list_to_map
            [("dnsServer", VStr "system-default");
             ("protocol", VStr "UDP");
             ("port", VNum 53);
             ("timestamp", VStr (date_iso h))]))]))].

(** The object literal of [createErrorResult], from [job.id], [job.target]
    and the text of [job.target] in the message. *)
Definition error_result (h : host) (id target : value)
    (target_text errorMessage : string) : obj :=
  list_to_map
    [("jobId", id);
     ("type", VStr "dns");
     ("target", target);
     ("timestamp", VNum (date_now h));
     ("status", VStr "completed");
     ("result", VObj (list_to_map
        [("addresses", VArr []);
         ("resolveTime", VNull);
         ("success", VBool false);
         ("addressCount", VNum 0);
         ("recordType", VStr "A");
         ("errorCode", VStr "PROCESSING_ERROR");
         ("error", VStr errorMessage);
         ("message", VStr ("DNS lookup for " +:+ target_text +:+ " failed: "
                           +:+ errorMessage));
         ("isRealMeasurement", VBool true);
         ("metadata", VObj (list_to_map
            [("dnsServer", VStr "system-default");
             ("protocol", VStr "UDP");
             ("port", VNum 53);
             ("timestamp", VStr (date_iso h))]))]))].

Definition createErrorResult {St : Type} (h : host) (job : value) (errorMessage : string)
  : M St obj :=
  id <- read job "id" ;;
  target <- read job "target" ;;
  (* message: `DNS lookup for ${job.target} failed: ${errorMessage}` *)
  target_text <- ToString target ;;
  ret (error_result h id target target_text errorMessage).

(** The record-type fallback chain: A, then AAAA, then ANY; when all three
    reject, the error of the first lookup is rethrown. *)
Definition lookup {St : Type} (h : host) (name : string) : M St (list value * string) :=
  try_catch
    (addresses <- await (resolve4 h name) ;;
     ret (List.map VStr addresses, "A"))
    (fun error =>
       try_catch
         (addresses <- await (resolve6 h name) ;;
          ret (List.map VStr addresses, "AAAA"))
         (fun error2 =>
            try_catch
              (anyRecords <- await (resolveAny h name) ;;
               ret (List.map (field "address")
                      (List.filter
                         (fun record =>
                            strict_eq (field "type" record) (VStr "A")
                            || strict_eq (field "type" record) (VStr "AAAA"))
                         anyRecords),
                    "ANY"))
              (fun error3 => throw error))).

(** The [if]/[else if] chain of the [catch (error)] block of
    [executeRealDNSLookup]: the message and the error code chosen from
    [error.code]. *)
Definition categorize {St : Type} (target : value) (error : obj)
  : M St (string * value) :=
  let code := field "code" error in
  if strict_eq code (VStr "ENOTFOUND")
  then
    (* `Domain not found: ${this.cleanTarget(target)}` *)
    name <- call_cleanTarget target ;;
    ret ("Domain not found: " +:+ name, VStr "DOMAIN_NOT_FOUND")
  else if strict_eq code (VStr "ETIMEOUT")
  then ret ("DNS resolution timeout - no response from DNS servers", VStr "TIMEOUT")
  else if strict_eq code (VStr "ECONNREFUSED")
  then ret ("DNS server refused connection", VStr "CONNECTION_REFUSED")
  else if strict_eq code (VStr "ESERVFAIL")
  then ret ("DNS server failure", VStr "SERVER_FAILURE")
  else if strict_eq code (VStr "ENODATA")
  then ret ("Domain exists but has no DNS records", VStr "NO_DATA")
  else
    (* `DNS error: ${error.message}` *)
    text <- ToString (field "message" error) ;;
    ret ("DNS error: " +:+ text, if truthy code then code else VStr "UNKNOWN").

Definition executeRealDNSLookup {St : Type} (h : host) (target : value) : M St obj :=
  try_catch
    (if negb (isValidDomain target)
     then ret (createDNSResult h target false [] VNull "Invalid domain format" "A" VNull)
     else
       name <- call_cleanTarget target ;;
       found <- lookup h name ;;
       let addresses := fst found in
       let recordType := snd found in
       let resolveTime := end_now h - start_now h in
       ret (createDNSResult h target true addresses (VNum resolveTime)
              ("Resolved " +:+ name +:+ " to "
               +:+ pretty (Z.of_nat (length addresses)) +:+ " IP addresses ("
               +:+ recordType +:+ ") in " +:+ pretty resolveTime +:+ "ms")
              recordType VNull))
    (fun error =>
       chosen <- categorize target error ;;
       name <- call_cleanTarget target ;;
       ret (createDNSResult h (VStr name) false [] VNull (fst chosen) "A" (snd chosen))).

Definition processDNSJob (h : host) (job : value) : M Nats.connection unit :=
  try_catch
    (target <- read job "target" ;;
     dnsResult <- executeRealDNSLookup h target ;;
     id <- read job "id" ;;
     let dnsResult := <["jobId" := id]> dnsResult in
     (* `mmn.jobs.result.${job.id}` *)
     id <- read job "id" ;;
     id_text <- ToString id ;;
     Nats.publish ("mmn.jobs.result." +:+ id_text) (VObj dnsResult) ;;
     (* console.log(`REAL DNS result for ${job.target}: ${...}`) *)
     target <- read job "target" ;;
     ToString target ;;
     ret tt)
    (fun error =>
       (* console.error(`REAL DNS error for ${job.target}:`, error) *)
       target <- read job "target" ;;
       ToString target ;;
       (* `DNS lookup failed: ${error.message}` *)
       text <- ToString (field "message" error) ;;
       errorResult <- createErrorResult h job ("DNS lookup failed: " +:+ text) ;;
       id <- read job "id" ;;
       id_text <- ToString id ;;
       Nats.publish ("mmn.jobs.result." +:+ id_text) (VObj errorResult)).

(** The body of the [for await (const msg of subscription)] loop of
    [startJobProcessing], for one message of [mmn.jobs.submit]. *)
Definition on_job (h : host) (msg : wire) : M Nats.connection unit :=
  try_catch
    (job <- JSON_parse msg ;;
     type <- read job "type" ;;
     if strict_eq type (VStr "dns")
     then
       (* console.log(`Processing REAL DNS lookup: ${job.target}`) *)
       target <- read job "target" ;;
       ToString target ;;
       processDNSJob h job
     else ret tt)
    (fun _ => ret tt).

End DNSModule.

(* ===================================================================== *)
(** ** modules/http-module/src/index.js: [sanitizeHeaders]                 *)
(* ===================================================================== *)

Module HTTPModule.

Definition safeHeaders : list string :=
  ["content-type"; "content-length"; "server"; "date";
   "cache-control"; "etag"; "last-modified"; "location";
   "x-powered-by"; "x-frame-options"; "x-content-type-options"].

(** [safeHeaders.forEach(header => { if (headers[header]) sanitized[header] =
    headers[header] })], on the header object of a response. *)
Definition sanitizeHeaders (headers : obj) : obj :=
  fold_left
    (fun sanitized header =>
       if truthy (field header headers)
       then <[header := field header headers]> sanitized
       else sanitized)
    safeHeaders ∅.

End HTTPModule.

(* ===================================================================== *)
(** ** management-api/src/storage.js: [exportToFile]                        *)
(* ===================================================================== *)

Module JSONStorageFiles.
Import JSONStorage.

Section Directory.

(** [path.join] of the platform. *)
Variable path_join : string -> string -> string.

Definition storageDir : string := "./data".
Definition resultsFile : string := path_join storageDir "measurements.json".

(** The files by path; a path without entry is a missing file. *)
Definition content (d : gmap string file) (path : string) : file :=
  default Unreadable (d !! path).

(** [JSON.parse(await fs.readFile(path, 'utf8'))] and [fs.writeFile(path, ...)]. *)
Definition readFile_at (e : io) (path : string) : M (gmap string file) (list obj) :=
  fun d =>
    if read_fails e then (Thrown (Error "EIO: read failed"), d)
    else match content d path with
         | Unreadable => (Thrown (Error "ENOENT or SyntaxError"), d)
         | Stored records => (Normal records, d)
         end.

Definition writeFile_at (e : io) (path : string) (data : list obj)
  : M (gmap string file) unit :=
  fun d =>
    match write e with
    | Written => (Normal tt, <[path := Stored data]> d)
    | Refused => (Thrown (Error "EACCES: write failed"), d)
    | Torn => (Thrown (Error "ENOSPC: write failed"), <[path := Unreadable]> d)
    end.

Definition loadAll_at (e : io) : M (gmap string file) (list obj) :=
  try_catch (readFile_at e resultsFile) (fun _ => ret []).

(** [path.join(this.storageDir, filename)]: a [TypeError] unless the
    argument is a string. *)
Definition join_storageDir (filename : value) : M (gmap string file) string :=
  match filename with
  | VStr name => ret (path_join storageDir name)
  | _ => throw (Error "The path argument must be of type string")
  end.

(** [exportToFile(filename = `measurements_export_${Date.now()}.json`)]:
    the path of the export, or [null]. *)
Definition exportToFile (e : io) (filename : value) : M (gmap string file) value :=
  let filename :=
    match filename with
    | VUndef => VStr ("measurements_export_" +:+ pretty (date_now e) +:+ ".json")
    | _ => filename
    end in
  try_catch
    (data <- loadAll_at e ;;
     exportPath <- join_storageDir filename ;;
     writeFile_at e exportPath data ;;
     ret (VStr exportPath))
    (fun _ => ret VNull).

End Directory.

End JSONStorageFiles.


(* ===================================================================== *)
(** * Notions used in the statements                                       *)
(* ===================================================================== *)

(** ** Generated identifiers: [`prefix_${Date.now()}_${suffix}`] *)

(** Strings without [_]: the decimal digits of a clock reading. *)
Definition no_underscore (s : string) : bool :=
  string_forallb (fun c => negb (Ascii.eqb c "_")) s.

(** ** Conversions to strings *)

(** A value a template literal converts without throwing. *)
Definition converts (v : value) : bool :=
  match to_string v with
  | Some _ => true
  | None => false
  end.

(** Whether the log line [`Measurement saved: ${result.jobId}`] of an
    append completes: [result] has properties to read, and its [jobId]
    converts. *)
Definition logs_jobId (result : value) : bool :=
  match prop result "jobId" with
  | Some jobId => converts jobId
  | None => false
  end.

(** ** The dispatcher and the result correlator *)

Section DispatcherNotions.
Import ManagementAPI.

(** The two answers of [POST /api/jobs]. *)
Definition accepted_response (id : string) : response :=
  {| status := 200;
     body := list_to_map [("success", VBool true); ("jobId", VStr id)] |}.

Definition failed_response (reason : value) : response :=
  {| status := 500;
     body := list_to_map [("success", VBool false); ("error", reason)] |}.

(** The state after a submit the bus accepted, and after one it refused. *)
Definition enqueued (job : obj) (st : api) : api :=
  {| natsConnection := Nats.accepted "mmn.jobs.submit" (VObj job) (natsConnection st);
     jobResults := jobResults st ++ [job];
     storage := storage st;
     wss := wss st |}.

Definition refused (st : api) : api :=
  {| natsConnection := Nats.dropped (natsConnection st);
     jobResults := jobResults st;
     storage := storage st;
     wss := wss st |}.

(** The job table after a result arrived: the first job whose [id] is the
    [jobId] of the result has the properties of the result merged in. *)
Fixpoint merge_first (result : obj) (jobs : list obj) : list obj :=
  match jobs with
  | [] => []
  | job :: rest =>
      if strict_eq (field "id" job) (field "jobId" result)
      then assign job result :: rest
      else job :: merge_first result rest
  end.

End DispatcherNotions.

(** ** The workers *)

Section WorkerNotions.
Import PingModule.

(** How the measurement strategy completes on [job.target] (it touches no
    state). *)
Definition strategy (statistics : string -> string -> option (Z * value))
    (h : host) (target : value) : completion obj :=
  fst (executeRealPing statistics h target tt).

(** The strategy failed internally: [job.target] is no string, or the
    [ping] process was rejected. *)
Definition strategy_fails (h : host) (target : value) : bool :=
  match target with
  | VStr s =>
      match execPromise h (command h (cleanTarget s)) with
      | Resolved _ => false
      | Rejected _ => true
      end
  | _ => true
  end.

(** A message the worker takes for itself: JSON whose [type] is ['ping']. *)
Definition is_ping_job (msg : wire) : bool :=
  match msg with
  | Malformed => false
  | Json v =>
      match prop v "type" with
      | Some type => strict_eq type (VStr "ping")
      | None => false
      end
  end.

(** The reply topic of a job, from the text of its id:
    [`mmn.jobs.result.${job.id}`]. *)
Definition reply_topic (id_text : string) : string :=
  "mmn.jobs.result." +:+ id_text.

(** A message the DNS worker takes for itself. *)
Definition is_dns_job (msg : wire) : bool :=
  match msg with
  | Malformed => false
  | Json v =>
      match prop v "type" with
      | Some type => strict_eq type (VStr "dns")
      | None => false
      end
  end.

(** A promise of the platform that was rejected. *)
Definition rejected {A : Type} (p : settled A) : bool :=
  match p with
  | Resolved _ => false
  | Rejected _ => true
  end.

(** How the DNS lookup completes on [job.target] (it touches no state). *)
Definition resolution (h : DNSModule.host) (target : value) : completion obj :=
  fst (DNSModule.executeRealDNSLookup h target tt).

(** Strings without [/], and strings without line terminators. *)
Definition no_slash (s : string) : bool :=
  string_forallb (fun c => negb (Ascii.eqb c "/")) s.

Definition single_line (s : string) : bool :=
  string_forallb (fun c => negb (is_line_terminator c)) s.

(** The line feed, code unit 10. *)
Definition LF : string := String (ascii_of_nat 10) "".

(** A Linux host on which every [ping] process is rejected. *)
Definition linux_host : host :=
  {| platform := "linux";
     execPromise := fun _ => Rejected (Error "Command failed");
     date_now := 1700000000000;
     date_iso := "2023-11-14T22:13:20.000Z";
     random36 := "k2j8x0q1z" |}.

End WorkerNotions.

(** ** Sample data for concrete runs *)

Module Samples.

Definition io_ok : JSONStorage.io :=
  {| JSONStorage.read_fails := false;
     JSONStorage.write := JSONStorage.Written;
     JSONStorage.date_iso := "2023-11-14T22:13:20.000Z";
     JSONStorage.date_now := 1700000000000;
     JSONStorage.random36 := "k2j8x0q1z" |}.

Definition io_later : JSONStorage.io :=
  {| JSONStorage.read_fails := false;
     JSONStorage.write := JSONStorage.Written;
     JSONStorage.date_iso := "2023-11-14T22:13:21.000Z";
     JSONStorage.date_now := 1700000001000;
     JSONStorage.random36 := "p9d3m7c5w" |}.

Definition io_disk_full : JSONStorage.io :=
  {| JSONStorage.read_fails := false;
     JSONStorage.write := JSONStorage.Refused;
     JSONStorage.date_iso := "2023-11-14T22:13:22.000Z";
     JSONStorage.date_now := 1700000002000;
     JSONStorage.random36 := "a1b2c3d4e" |}.

Definition ping_result : obj :=
  list_to_map
    [("jobId", VStr "job_1700000000000_abc123xyz");
     ("type", VStr "ping");
     ("target", VStr "8.8.8.8");
     ("status", VStr "completed");
     ("result", VObj (list_to_map [("success", VBool true); ("rtt", VNum 12)]))].

Definition dns_record : obj :=
  list_to_map
    [("jobId", VStr "job_1699999999000_zzz999aaa");
     ("type", VStr "dns");
     ("target", VStr "example.com");
     ("_id", VStr "meas_1699999999500_q1w2e3r4t")].

Definition http_record : obj :=
  list_to_map
    [("jobId", VStr "job_1699999998000_yyy888bbb");
     ("type", VStr "http");
     ("target", VStr "https://example.com");
     ("_id", VStr "meas_1699999998500_u7i8o9p0a")].

Definition request : ManagementAPI.request_env :=
  {| ManagementAPI.id_now := 1700000000000;
     ManagementAPI.id_random36 := "abc123xyz";
     ManagementAPI.timestamp_now := 1700000000001 |}.

Definition bus_up : Nats.connection :=
  {| Nats.outages := []; Nats.published := [] |}.

Definition bus_down : Nats.connection :=
  {| Nats.outages := [true]; Nats.published := [] |}.

Definition listener : ManagementAPI.client :=
  {| ManagementAPI.readyState := ManagementAPI.OPEN; ManagementAPI.inbox := [] |}.

Definition api_idle (c : Nats.connection) : ManagementAPI.api :=
  {| ManagementAPI.natsConnection := c;
     ManagementAPI.jobResults := [];
     ManagementAPI.storage := JSONStorage.Stored [];
     ManagementAPI.wss := Some [listener] |}.

Definition ping_announcement : obj :=
  list_to_map [("name", VStr "ping-module"); ("version", VStr "1.0.0");
               ("type", VStr "ping");
               ("rfcCompliance", VArr [VStr "RFC2330"; VStr "RFC792"])].

Definition dns_announcement : obj :=
  list_to_map [("name", VStr "dns-module"); ("version", VStr "1.0.0");
               ("type", VStr "dns");
               ("rfcCompliance", VArr [VStr "RFC2330"; VStr "RFC1035"])].

(** A resolver that knows no name at all. *)
Definition not_found : obj :=
  list_to_map [("code", VStr "ENOTFOUND");
               ("message", VStr "queryA ENOTFOUND nonexistent.invalid")].

Definition dns_host : DNSModule.host :=
  {| DNSModule.resolve4 := fun _ => Rejected not_found;
     DNSModule.resolve6 := fun _ => Rejected not_found;
     DNSModule.resolveAny := fun _ => Rejected not_found;
     DNSModule.start_now := 1700000000000;
     DNSModule.end_now := 1700000000040;
     DNSModule.date_now := 1700000000041;
     DNSModule.date_iso := "2023-11-14T22:13:20.041Z";
     DNSModule.random36 := "h5g4f3d2s" |}.

Definition dns_job : obj :=
  list_to_map
    [("id", VStr "job_1700000000000_abc123xyz");
     ("type", VStr "dns");
     ("target", VStr "nonexistent.invalid");
     ("timestamp", VNum 1700000000001);
     ("status", VStr "submitted")].

Definition ping_job : obj :=
  list_to_map
    [("id", VStr "job_1700000000000_abc123xyz");
     ("type", VStr "ping");
     ("target", VStr "8.8.8.8");
     ("timestamp", VNum 1700000000001);
     ("status", VStr "submitted")].

(** No output matches the statistics expressions. *)
Definition no_statistics (pf output : string) : option (Z * value) := None.

End Samples.

(** A store at its cap: 1000 copies of a record. *)
Definition full_store : list obj := replicate 1000 Samples.dns_record.

(** ** Notions of the further properties *)

(** A value that is strictly equal to itself: anything but an array or an
    object, which a later [JSON.parse] delivers as a new reference. *)
Definition primitive (v : value) : bool := strict_eq v v.

(** [path.join('./data', name)] for a plain file name (no separator, no
    dot segment): the directory is normalized to [data]. *)
Definition join_flat (dir name : string) : string := "data/" +:+ name.

(** The answers among [answers] that report success (status 200). *)
Definition accepted_answers (answers : list (completion ManagementAPI.response)) : nat :=
  length (List.filter
            (fun a => match a with
                      | Normal r => ManagementAPI.status r =? 200
                      | Thrown _ => false
                      end) answers).

(** An answer of [POST /api/jobs]: status 200 or 500, never an exception. *)
Definition is_answer (a : completion ManagementAPI.response) : Prop :=
  match a with
  | Normal r => ManagementAPI.status r = 200 \/ ManagementAPI.status r = 500
  | Thrown _ => False
  end.

(** The clients after some broadcasts: the same clients in the same states,
    each with its earlier messages followed by possibly more. *)
Definition clients_extend (before after : option (list ManagementAPI.client)) : Prop :=
  match before, after with
  | None, None => True
  | Some l, Some l' =>
      Forall2 (fun c c' =>
                 ManagementAPI.readyState c' = ManagementAPI.readyState c
                 /\ ManagementAPI.inbox c `prefix_of` ManagementAPI.inbox c') l l'
  | _, _ => False
  end.

(** What every payload of the ping worker has in common: no [id] of its
    own, [type] ['ping'], [status] ['completed'], and a [result] whose
    [success] flag, packet loss, round-trip time and packet counts agree. *)
Definition ping_payload_consistent (payload : obj) : Prop :=
  payload !! "id" = None
  /\ field "type" payload = VStr "ping"
  /\ field "status" payload = VStr "completed"
  /\ exists (ok : bool) (loss sent received : Z),
       result_field "success" payload = VBool ok
       /\ result_field "packetLoss" payload = VNum loss
       /\ result_field "packetsTransmitted" payload = VNum sent
       /\ result_field "packetsReceived" payload = VNum received
       /\ ok = (loss <? 100)
       /\ (ok = false -> result_field "rtt" payload = VNull)
       /\ (sent = 4 \/ (sent = 0 /\ ok = false))
       /\ (0 <= loss <= 100 -> 0 <= received <= sent).

(** A string [trim] leaves as it is. *)
Definition trimmed (s : string) : Prop := trim s = s.

(** No character of the class [[;&|`$<>]]. *)
Definition no_shell_meta (s : string) : bool :=
  string_forallb (fun c => negb (PingModule.is_shell_meta c)) s.

(** What every payload of the DNS worker has in common: no [id] of its own,
    [type] ['dns'], [status] ['completed'], and a [result] whose [success]
    flag, addresses, address count, record type, resolve time and error
    code agree. *)
Definition dns_payload_consistent (payload : obj) : Prop :=
  payload !! "id" = None
  /\ field "type" payload = VStr "dns"
  /\ field "status" payload = VStr "completed"
  /\ exists (ok : bool) (addresses : list value) (recordType : string),
       result_field "success" payload = VBool ok
       /\ result_field "addresses" payload = VArr addresses
       /\ result_field "addressCount" payload = VNum (Z.of_nat (length addresses))
       /\ result_field "recordType" payload = VStr recordType
       /\ (ok = true ->
           result_field "errorCode" payload = VNull
           /\ recordType ∈ ["A"; "AAAA"; "ANY"]
           /\ exists t, result_field "resolveTime" payload = VNum t)
       /\ (ok = false ->
           addresses = [] /\ recordType = "A"
           /\ result_field "resolveTime" payload = VNull).

(** The characters of a host name: letters, digits, the hyphen, the dot. *)
Definition is_domain_char (c : ascii) : bool :=
  DNSModule.is_label_char c || Ascii.eqb c ".".

(** ** Further sample values *)

(** The JSON object [{"toString": 0}]: its own [toString] property hides
    [Object.prototype.toString], so a template literal cannot convert
    it. *)
Definition no_text : value := VObj {[ "toString" := VNum 0 ]}.

(** A ping job whose [target] no template literal converts: what
    [POST /api/jobs] publishes for the body
    [{"type": "ping", "target": {"toString": 0}}]. *)
Definition unprintable_target_job : obj :=
  list_to_map
    [("id", VStr "job_1700000000000_abc123xyz");
     ("type", VStr "ping");
     ("target", no_text);
     ("timestamp", VNum 1700000000001);
     ("status", VStr "submitted")].

(** A job object whose [id] and [target] convert to strings. *)
Definition answerable (msg : wire) : bool :=
  match msg with
  | Json (VObj job) => converts (field "id" job) && converts (field "target" job)
  | _ => false
  end.

(** The ping jobs among the messages that are answerable. *)
Definition answerable_ping_jobs (msgs : list (PingModule.host * wire))
  : list (PingModule.host * wire) :=
  List.filter (fun m => is_ping_job (snd m) && answerable (snd m)) msgs.

(** ** Computations that leave the state alone *)

(** [c] runs on any state as [c0] runs on none: it leaves the state as it
    is and completes as [c0] does. *)
Definition stateless {St A : Type} (c : M St A) (c0 : M unit A) : Prop :=
  forall s, c s = (fst (c0 tt), s).

(** A computation that leaves the state as it is, however it completes. *)
Definition keeps {St A : Type} (c : M St A) : Prop := forall s, snd (c s) = s.

(** Moreover, what it throws is an [Error] with a text as its message. *)
Definition tame {St A : Type} (c : M St A) (c0 : M unit A) : Prop :=
  stateless c c0
  /\ (forall error, fst (c0 tt) = Thrown error -> exists text, error = Error text).

(** A second result for the job of [Samples.ping_result]. *)
Definition late_result : obj :=
  list_to_map
    [("jobId", VStr "job_1700000000000_abc123xyz");
     ("status", VStr "completed");
     ("result", VObj (list_to_map [("success", VBool false); ("rtt", VNull)]))].

(** A resolver with AAAA records only. *)
Definition ipv6_only_host : DNSModule.host :=
  {| DNSModule.resolve4 := fun _ => Rejected Samples.not_found;
     DNSModule.resolve6 := fun _ => Resolved ["2606:2800:220:1:248:1893:25c8:1946"];
     DNSModule.resolveAny := fun _ => Rejected Samples.not_found;
     DNSModule.start_now := 1700000000000;
     DNSModule.end_now := 1700000000040;
     DNSModule.date_now := 1700000000041;
     DNSModule.date_iso := "2023-11-14T22:13:20.041Z";
     DNSModule.random36 := "h5g4f3d2s" |}.


(** ** The registry *)

Section RegistryNotions.
Import AnchorService.

(** An [rfcCompliance] the handlers get through: a falsy value (absent,
    [null], [0], the empty string), or an array whose elements all
    convert to strings. *)
Definition listing (compliance : value) : bool :=
  negb (truthy compliance)
  || match compliance with
     | VArr items => forallb converts items
     | _ => false
     end.

(** An announcement as the modules of the repository send it: an object
    whose [name], [version] and [type] convert to strings and whose
    [rfcCompliance] is a listing. *)
Definition well_formed (moduleInfo : obj) : bool :=
  converts (field "name" moduleInfo) && converts (field "version" moduleInfo)
  && converts (field "type" moduleInfo) && listing (field "rfcCompliance" moduleInfo).

(** A registry of such announcements. *)
Definition tidy (modules : registry) : bool :=
  forallb (fun entry => converts (fst entry) && listing (rfcCompliance (snd entry)))
          modules.

(** The record an announcement stores, and a record after a sweep that
    completes. *)
Definition record (e : env) (moduleInfo : value) : module :=
  {| announced := own_properties moduleInfo; lastSeen := now e; healthy := true;
     connectionTime := iso e |}.

Definition swept (t : Z) (m : module) : module :=
  {| announced := announced m; lastSeen := lastSeen m;
     healthy := healthy m && negb (t - lastSeen m >? 30000);
     connectionTime := connectionTime m |}.

(** An event whose handler a tidy registry gets through: a sweep, or a
    well-formed announcement. *)
Definition orderly (ev : event) : bool :=
  match ev with
  | Announce _ (Json (VObj moduleInfo)) => well_formed moduleInfo
  | Announce _ _ => false
  | Sweep _ => true
  end.

(** An event that leaves the record keyed [name] to the timer: a sweep, or
    an announcement under another name. *)
Definition silent_for (name : value) (ev : event) : bool :=
  match ev with
  | Announce _ (Json (VObj moduleInfo)) => negb (strict_eq (field "name" moduleInfo) name)
  | Announce _ _ => true
  | Sweep _ => true
  end.

(** A sweep at which a record last seen at [seen] is inside the window. *)
Definition within_window (seen : Z) (ev : event) : bool :=
  match ev with
  | Announce _ _ => true
  | Sweep t => negb (t - seen >? 30000)
  end.

(** The announcements among the events. *)
Definition announcements (events : list event) : list event :=
  List.filter (fun ev => match ev with Announce _ _ => true | Sweep _ => false end)
              events.

(** The clock readings of the sample announcements. *)
Definition at_start : env := {| now := 0; iso := "2023-11-14T22:13:20.000Z" |}.
Definition later : env := {| now := 25000; iso := "2023-11-14T22:13:45.000Z" |}.

(** An announcement whose [rfcCompliance] is a text instead of a list, and
    one whose [rfcCompliance] is a number. *)
Definition text_announcement : obj :=
  list_to_map [("name", VStr "probe"); ("version", VStr "1.0.0");
               ("type", VStr "ping"); ("rfcCompliance", VStr "RFC792")].

Definition number_announcement : obj :=
  list_to_map [("name", VStr "probe"); ("version", VStr "1.0.0");
               ("type", VStr "ping"); ("rfcCompliance", VNum 5)].

End RegistryNotions.

(* ===================================================================== *)
(** * Verification                                                         *)
(* ===================================================================== *)

Arguments slice : simpl never.

(** ** Arrays and objects *)

Lemma slice_from_start {A : Type} (l : list A) (n : Z) :
  slice l 0 n = take (Z.to_nat (clamp_index (Z.of_nat (length l)) n)) l.
Proof.
  unfold slice. replace (clamp_index (Z.of_nat (length l)) 0) with 0.
  - rewrite Z.sub_0_r. reflexivity.
  - unfold clamp_index. simpl. lia.
Qed.

Lemma slice_take {A : Type} (l : list A) (n : Z) :
  0 <= n -> slice l 0 n = take (Z.to_nat n) l.
Proof.
  intros Hn. rewrite slice_from_start. unfold clamp_index.
  destruct (Z.ltb_spec n 0) as [?|_]; [lia|].
  destruct (Z.le_gt_cases n (Z.of_nat (length l))) as [Hle|Hgt].
  - rewrite Z.min_l by lia. reflexivity.
  - rewrite Z.min_r by lia. rewrite Nat2Z.id.
    rewrite !take_ge by lia. reflexivity.
Qed.

Lemma slice_negative {A : Type} (l : list A) (n : Z) :
  n < 0 -> slice l 0 n = take (length l - Z.to_nat (- n)) l.
Proof.
  intros Hn. rewrite slice_from_start. unfold clamp_index.
  destruct (Z.ltb_spec n 0) as [_|?]; [|lia].
  f_equal. lia.
Qed.

Lemma slice_sublist {A : Type} (l : list A) (n : Z) : sublist (slice l 0 n) l.
Proof. rewrite slice_from_start. apply sublist_take. Qed.

Lemma slice_length_le {A : Type} (l : list A) (n : Z) :
  0 <= n -> Z.of_nat (length (slice l 0 n)) <= n.
Proof. intros Hn. rewrite slice_take by done. rewrite length_take. lia. Qed.

Lemma slice_nil {A : Type} (n : Z) : slice (@nil A) 0 n = [].
Proof. rewrite slice_from_start. apply take_nil. Qed.

Lemma filter_sublist {A : Type} (p : A -> bool) (l : list A) :
  sublist (List.filter p l) l.
Proof.
  induction l as [|x l IH]; simpl.
  - constructor.
  - destruct (p x); by constructor.
Qed.

Lemma filter_all_false {A : Type} (p : A -> bool) (l : list A) :
  (forall x, x ∈ l -> p x = false) -> List.filter p l = [].
Proof.
  induction l as [|x l IH]; intros Hall; simpl; [done|].
  rewrite Hall by left. apply IH. intros y Hy. apply Hall. by right.
Qed.

Lemma filter_Forall {A : Type} (p : A -> bool) (l : list A) :
  Forall (fun x => p x = true) (List.filter p l).
Proof.
  induction l as [|x l IH]; simpl; [constructor|].
  destruct (p x) eqn:Hx; [by constructor|done].
Qed.

Lemma field_insert (k : string) (v : value) (o : obj) : field k (<[k := v]> o) = v.
Proof. unfold field. by rewrite lookup_insert_eq. Qed.

Lemma field_insert_ne (k k' : string) (v : value) (o : obj) :
  k <> k' -> field k' (<[k := v]> o) = field k' o.
Proof. intros Hne. unfold field. by rewrite lookup_insert_ne. Qed.

(** ** Conversions *)

Lemma ToString_run {St : Type} (v : value) (s : St) :
  ToString v s
  = match to_string v with
    | Some text => (Normal text, s)
    | None => (Thrown (Error "Cannot convert object to primitive value"), s)
    end.
Proof. unfold ToString. by destruct (to_string v). Qed.

Lemma ToString_converts {St : Type} (v : value) (text : string) (s : St) :
  to_string v = Some text -> ToString v s = (Normal text, s).
Proof. intros Hv. by rewrite ToString_run, Hv. Qed.

Lemma converts_Some (v : value) :
  converts v = true <-> exists text, to_string v = Some text.
Proof.
  unfold converts. destruct (to_string v) as [text|]; split; eauto.
  - done.
  - by intros [? ?].
Qed.

(** ** The bounded result store *)

Section Store.
Import JSONStorage.

(** What an append does and returns, for any argument. *)
Lemma saveMeasurement_run (e : io) (result : value) (f : file) :
  saveMeasurement e result f =
    match write e with
    | Written =>
        (Normal (logs_jobId result),
         Stored (measurement e result :: take 999 (loaded e f)))
    | Refused => (Normal false, f)
    | Torn => (Normal false, Unreadable)
    end.
Proof.
  unfold saveMeasurement, loadAll, readFile, writeFile, loaded,
    try_catch, bind, read, ToString, logs_jobId, converts, ret, throw; simpl.
  destruct (read_fails e), f, (write e); try reflexivity;
    rewrite slice_take by lia;
    destruct (prop result "jobId") as [jobId|]; try reflexivity;
    destruct (to_string jobId); reflexivity.
Qed.

(** The file an append leaves. *)
Lemma saveMeasurement_file (e : io) (result : value) (f : file) :
  snd (saveMeasurement e result f) =
    match write e with
    | Written => Stored (measurement e result :: take 999 (loaded e f))
    | Refused => f
    | Torn => Unreadable
    end.
Proof. rewrite saveMeasurement_run. by destruct (write e). Qed.

Lemma after_append_cases (e : io) (result : value) (f : file) :
  after_append (e, result) f =
    match write e with
    | Written => Stored (slice (measurement e result :: loaded e f) 0 1000)
    | Refused => f
    | Torn => Unreadable
    end.
Proof.
  unfold after_append. simpl. rewrite saveMeasurement_file.
  destruct (write e); try reflexivity. by rewrite slice_take by lia.
Qed.

Lemma after_append_bounded (call : io * value) (f : file) :
  (length (records_of f) <= 1000)%nat ->
  (length (records_of (after_append call f)) <= 1000)%nat.
Proof.
  intros Hf. destruct call as [e result]. rewrite after_append_cases.
  destruct (write e); simpl; [|done|lia].
  pose proof (slice_length_le (measurement e result :: loaded e f) 1000). lia.
Qed.

Lemma history_bounded (calls : list (io * value)) (f : file) :
  (length (records_of f) <= 1000)%nat ->
  Forall (fun f' => (length (records_of f') <= 1000)%nat) (history calls f).
Proof.
  revert f. induction calls as [|call calls IH]; intros f Hf; simpl.
  - constructor.
  - constructor; [|apply IH]; by apply after_append_bounded.
Qed.

End Store.

(** ** Generated identifiers *)

Lemma pretty_N_char_no_underscore (x : N) :
  Ascii.eqb (pretty_N_char x) "_" = false.
Proof. unfold pretty_N_char. by repeat case_match. Qed.

Lemma pretty_N_go_no_underscore (x : N) (s : string) :
  no_underscore s = true -> no_underscore (pretty_N_go x s) = true.
Proof.
  revert s. induction (N.lt_wf_0 x) as [x _ IH]; intros s Hs.
  destruct (decide (x = 0)%N) as [->|Hx].
  - by rewrite pretty_N_go_0.
  - rewrite pretty_N_go_step by lia. apply IH.
    + apply N.div_lt; lia.
    + unfold no_underscore in *. simpl.
      by rewrite pretty_N_char_no_underscore, Hs.
Qed.

Lemma pretty_N_no_underscore (x : N) : no_underscore (pretty x) = true.
Proof.
  unfold pretty, pretty_N. case_decide; [done|].
  by apply pretty_N_go_no_underscore.
Qed.

Lemma pretty_Z_no_underscore (n : Z) : no_underscore (pretty n) = true.
Proof.
  destruct n as [|p|p]; unfold pretty, pretty_Z; [done| |].
  - apply (pretty_N_no_underscore (N.pos p)).
  - change (no_underscore (String "-" (pretty (N.pos p))) = true).
    unfold no_underscore. simpl. apply (pretty_N_no_underscore (N.pos p)).
Qed.

Lemma split_at_underscore (a1 a2 r1 r2 : string) :
  no_underscore a1 = true -> no_underscore a2 = true ->
  a1 +:+ "_" +:+ r1 = a2 +:+ "_" +:+ r2 -> a1 = a2 /\ r1 = r2.
Proof.
  revert a2. induction a1 as [|c a1 IH]; intros [|d a2] H1 H2 Heq.
  - by injection Heq.
  - injection Heq as Hc _. subst d.
    unfold no_underscore in H2. simpl in H2. done.
  - injection Heq as Hc _. subst c.
    unfold no_underscore in H1. simpl in H1. done.
  - injection Heq as Hc Hrest. subst d.
    unfold no_underscore in H1, H2. simpl in H1, H2.
    apply andb_prop in H1 as [_ H1]. apply andb_prop in H2 as [_ H2].
    destruct (IH a2 H1 H2 Hrest) as [-> ->]. done.
Qed.

(** Two identifiers with the same prefix are equal only when both the clock
    reading and the random suffix are. *)
Lemma generated_id_inj (prefix : string) (n1 n2 : Z) (r1 r2 : string) :
  prefix +:+ pretty n1 +:+ "_" +:+ r1 = prefix +:+ pretty n2 +:+ "_" +:+ r2 ->
  n1 = n2 /\ r1 = r2.
Proof.
  intros Heq. apply (inj (String.app prefix)) in Heq.
  apply split_at_underscore in Heq as [Hn Hr]; auto using pretty_Z_no_underscore.
  split; [by apply (inj pretty)|done].
Qed.

Section StoreProperties.
Import JSONStorage.

(** C1.  Starting from a store within the cap, after each append of any
    sequence of appends (whatever each call is given and however its file
    I/O ends) the store holds at most 1000 records.  An append that reads
    and writes the file, whatever value it is given, leaves the new record
    at the head, in front of the records stored before in their order, and
    what it drops are exactly the records past position 999 of the old
    sequence: the oldest ones, at the tail, and none unless the cap is
    exceeded. *)
Theorem store_capped_newest_first
    (calls : list (io * value)) (f : file)
    (e : io) (result : value) (stored : list obj)
    (Hcap : (length (records_of f) <= 1000)%nat)
    (Hread : read_fails e = false)
    (Hwrite : write e = Written) :
  Forall (fun f' => (length (records_of f') <= 1000)%nat) (history calls f)
  /\ snd (saveMeasurement e result (Stored stored))
     = Stored (measurement e result :: take 999 stored)
  /\ measurement e result :: stored
     = (measurement e result :: take 999 stored) ++ drop 999 stored
  /\ (length (measurement e result :: take 999 stored) <= 1000)%nat
  /\ length (drop 999 stored) = (length stored - 999)%nat.
Proof.
  split; [by apply history_bounded|].
  split.
  { rewrite saveMeasurement_file, Hwrite. unfold loaded. by rewrite Hread. }
  split; [by rewrite <- app_comm_cons, take_drop|].
  split; [simpl; rewrite length_take; lia|].
  apply length_drop.
Qed.

(** C6.  An append can write the record and still return [false].  After
    the write, inside the same [try], the method prints
    [`Measurement saved: ${result.jobId}`]; when that line throws, the
    [catch] block answers [false] although the file already holds the new
    record.  It throws on [null] (what the correlator hands over for the
    message [null] when the job table is empty) and on a result whose
    [jobId] is an object with an own [toString] property.  For every
    argument and every I/O outcome: the value returned is [true] exactly
    when the write succeeded and that line completed, and the file after a
    successful write holds the new record at its head. *)
Theorem append_returns_false_after_writing :
  saveMeasurement Samples.io_ok VNull (Stored [Samples.dns_record])
  = (Normal false,
     Stored [measurement Samples.io_ok VNull; Samples.dns_record])
  /\ saveMeasurement Samples.io_ok (VObj {[ "jobId" := no_text ]})
       (Stored [Samples.dns_record])
     = (Normal false,
        Stored [measurement Samples.io_ok (VObj {[ "jobId" := no_text ]});
                Samples.dns_record])
  /\ write Samples.io_ok = Written
  /\ (forall (e : io) (result : value) (f : file),
        fst (saveMeasurement e result f)
        = Normal (match write e with
                  | Written => logs_jobId result
                  | _ => false
                  end))
  /\ (forall (e : io) (result : value) (f : file),
        write e = Written ->
        snd (saveMeasurement e result f)
        = Stored (measurement e result :: take 999 (loaded e f))).
Proof.
  split; [reflexivity|]. split; [reflexivity|]. split; [reflexivity|].
  split.
  - intros e result f. rewrite saveMeasurement_run. by destruct (write e).
  - intros e result f Hwrite. by rewrite saveMeasurement_file, Hwrite.
Qed.

(** X19.  What C6 says holds for a result object whose [jobId] a template
    literal converts (a string, a number, [undefined]): the append returns
    [true] exactly when the write succeeds. When it does, one new record
    stands at the head of the stored sequence: the properties of the result
    plus an [_id] generated from the clock and random readings of this call
    (whatever [jobId] or [_id] the result or the stored records carry). When
    it returns [false] the file is left as it was or unreadable: no record
    is added. Appending the same result twice stores two records, with the
    same [jobId], whose [_id] differ as soon as the clock reading or the
    random suffix does. *)
Theorem append_creates_one_fresh_record
    (e e' : io) (result : obj) (f : file) (stored : list obj)
    (Hlog : converts (field "jobId" result) = true) :
  (fst (saveMeasurement e (VObj result) f) = Normal true <-> write e = Written)
  /\ (fst (saveMeasurement e (VObj result) f) = Normal false <-> write e <> Written)
  /\ (write e = Written ->
      snd (saveMeasurement e (VObj result) f)
      = Stored (measurement e (VObj result) :: take 999 (loaded e f)))
  /\ (write e <> Written ->
      snd (saveMeasurement e (VObj result) f) = f
      \/ snd (saveMeasurement e (VObj result) f) = Unreadable)
  /\ field "_id" (measurement e (VObj result))
     = VStr ("meas_" +:+ pretty (date_now e) +:+ "_" +:+ random36 e)
  /\ (forall k, k <> "_id" -> k <> "_savedAt" -> k <> "_persisted" ->
      field k (measurement e (VObj result)) = field k result)
  /\ (read_fails e = false -> write e = Written ->
      read_fails e' = false -> write e' = Written ->
      snd (saveMeasurement e' (VObj result)
             (snd (saveMeasurement e (VObj result) (Stored stored))))
      = Stored (measurement e' (VObj result) :: measurement e (VObj result)
                  :: take 998 stored)
      /\ field "jobId" (measurement e' (VObj result))
         = field "jobId" (measurement e (VObj result))
      /\ (id_seed e <> id_seed e' ->
          field "_id" (measurement e (VObj result))
          <> field "_id" (measurement e' (VObj result)))).
Proof.
  assert (Hid : forall x, field "_id" (measurement x (VObj result))
                = VStr ("meas_" +:+ pretty (date_now x) +:+ "_" +:+ random36 x)).
  { intros x. unfold measurement. apply field_insert. }
  assert (Hkeep : forall x k, k <> "_id" -> k <> "_savedAt" -> k <> "_persisted" ->
                  field k (measurement x (VObj result)) = field k result).
  { intros x k H1 H2 H3. unfold measurement.
    rewrite !field_insert_ne by done. reflexivity. }
  assert (Hflag : logs_jobId (VObj result) = true) by exact Hlog.
  rewrite saveMeasurement_run, Hflag.
  split; [destruct (write e); simpl; split; congruence|].
  split; [destruct (write e); simpl; split; congruence|].
  split; [by intros ->|].
  split; [destruct (write e); simpl; intros Hne; auto; congruence|].
  split; [apply Hid|].
  split; [apply Hkeep|].
  intros Hread Hwrite Hread' Hwrite'.
  split.
  { rewrite !saveMeasurement_file, Hwrite, Hwrite'. simpl.
    unfold loaded. rewrite Hread, Hread'. simpl. by rewrite take_take. }
  split; [by rewrite !Hkeep|].
  intros Hne. rewrite !Hid. intros Heq. apply Hne.
  injection Heq as Heq. apply generated_id_inj in Heq as [Hn Hr].
  unfold id_seed. by rewrite Hn, Hr.
Qed.

(** C8.  A query with a negative limit returns more records than the
    limit allows.  The limit goes unchecked into [slice(0, limit)], and a
    negative end counts from the end of the array: with limit [-k] the
    query returns all matching records but the last [k], in the stored
    order.  On three stored records a query by recency with limit [-1]
    returns two; [GET /api/measurements?limit=-1] asks for it, since
    [parseInt('-1') || 100] is [-1]. *)
Theorem query_with_negative_limit_exceeds_it :
  getRecent Samples.io_ok (Some (-1))
    (Stored [Samples.ping_result; Samples.dns_record; Samples.http_record])
  = (Normal [Samples.ping_result; Samples.dns_record],
     Stored [Samples.ping_result; Samples.dns_record; Samples.http_record])
  /\ getByType Samples.io_ok (VStr "dns") (Some (-1))
       (Stored [Samples.dns_record; Samples.ping_result; Samples.dns_record])
     = (Normal [Samples.dns_record],
        Stored [Samples.dns_record; Samples.ping_result; Samples.dns_record])
  /\ ~ (Z.of_nat (length [Samples.ping_result; Samples.dns_record]) <= -1)
  /\ (forall (e : io) (f : file) (k : positive),
        getRecent e (Some (Z.neg k)) f
        = (Normal (take (length (loaded e f) - Pos.to_nat k) (loaded e f)), f))
  /\ (forall (e : io) (f : file) (type : value) (k : positive),
        let matching :=
          List.filter (fun item => strict_eq (field "type" item) type) (loaded e f) in
        getByType e type (Some (Z.neg k)) f
        = (Normal (take (length matching - Pos.to_nat k) matching), f))
  /\ (forall (e : io) (f : file) (k : positive) (l : list obj),
        fst (getRecent e (Some (Z.neg k)) f) = Normal l ->
        ~ (Z.of_nat (length l) <= Z.neg k)).
Proof.
  assert (Hload : forall (e : io) (f : file), loadAll e f = (Normal (loaded e f), f)).
  { intros e f. unfold loadAll, readFile, try_catch, ret, loaded.
    destruct (read_fails e), f; reflexivity. }
  split; [reflexivity|]. split; [reflexivity|]. split; [simpl; lia|].
  split.
  { intros e f k. unfold getRecent, bind. rewrite Hload. unfold ret. simpl.
    by rewrite slice_negative by lia. }
  split.
  { intros e f type k matching. unfold getByType, bind. rewrite Hload.
    unfold ret. simpl. by rewrite slice_negative by lia. }
  intros e f k l _. lia.
Qed.

(** X20.  What C8 says holds for a limit that is not negative: a query by
    type or by recency never fails and returns the first [limit] matching
    records of the stored sequence: a subsequence of the stored order
    (newest first) of at most [limit] records, each of the requested type.
    It is empty when no stored record matches and when the file cannot be
    read. *)
Theorem queries_are_bounded_and_ordered
    (e : io) (f : file) (type : value) (limit : Z) (Hlimit : 0 <= limit) :
  let matching := List.filter (fun item => strict_eq (field "type" item) type) in
  exists byType recent : list obj,
    getByType e type (Some limit) f = (Normal byType, f)
    /\ getRecent e (Some limit) f = (Normal recent, f)
    /\ byType = take (Z.to_nat limit) (matching (loaded e f))
    /\ recent = take (Z.to_nat limit) (loaded e f)
    /\ sublist byType (records_of f) /\ sublist recent (records_of f)
    /\ Z.of_nat (length byType) <= limit /\ Z.of_nat (length recent) <= limit
    /\ Forall (fun item => strict_eq (field "type" item) type = true) byType
    /\ ((forall item, item ∈ records_of f ->
           strict_eq (field "type" item) type = false) -> byType = [])
    /\ (read_fails e = true \/ f = Unreadable -> byType = [] /\ recent = []).
Proof.
  intros matching.
  assert (Hsub : sublist (loaded e f) (records_of f)).
  { unfold loaded. destruct (read_fails e); [apply sublist_nil_l|done]. }
  exists (take (Z.to_nat limit) (matching (loaded e f))),
         (take (Z.to_nat limit) (loaded e f)).
  split.
  { unfold getByType, loadAll, readFile, try_catch, bind, ret, loaded.
    simpl. destruct (read_fails e), f; simpl; by rewrite slice_take. }
  split.
  { unfold getRecent, loadAll, readFile, try_catch, bind, ret, loaded.
    simpl. destruct (read_fails e), f; simpl; by rewrite slice_take. }
  split; [done|]. split; [done|].
  split.
  { etrans; [apply sublist_take|]. etrans; [apply filter_sublist|]. done. }
  split; [by etrans; [apply sublist_take|]|].
  split; [rewrite length_take; lia|].
  split; [rewrite length_take; lia|].
  split.
  { apply Forall_take, filter_Forall. }
  split.
  { intros Hnone. unfold matching. rewrite filter_all_false; [by rewrite take_nil|].
    intros x Hx. apply Hnone. eapply elem_of_sublist; eauto. }
  intros Hbad.
  assert (loaded e f = []) as ->.
  { unfold loaded. destruct Hbad as [-> | ->]; [done|]. by destruct (read_fails e). }
  unfold matching. simpl. by rewrite !take_nil.
Qed.

End StoreProperties.

(** ** The bus *)

Lemma publish_cases (subject : string) (payload : value) (c : Nats.connection) :
  Nats.publish subject payload c =
    if Nats.accepts c
    then (Normal tt, Nats.accepted subject payload c)
    else (Thrown (Error "CONNECTION_CLOSED"), Nats.dropped c).
Proof. destruct c as [[|[] rest] sent]; reflexivity. Qed.

(** ** The dispatcher and the result correlator *)

Section Dispatcher.
Import ManagementAPI.

Lemma post_jobs_object (e : request_env) (req_body : obj) (st : api) :
  let job := new_job e (generateJobId e) (field "type" req_body)
                     (field "target" req_body) in
  post_jobs e (VObj req_body) st =
    if Nats.accepts (natsConnection st)
    then (Normal (accepted_response (generateJobId e)), enqueued job st)
    else (Normal (failed_response (VStr "CONNECTION_CLOSED")), refused st).
Proof.
  unfold post_jobs, try_catch, bind, read, zoom, modify, ret; simpl.
  rewrite publish_cases. destruct (Nats.accepts (natsConnection st)); reflexivity.
Qed.

(** C7.  A submit whose publish on the submit topic throws answers with the
    500 error response carrying the failure, leaves the job table as it was
    and has made that one publish attempt only; a submit whose publish is
    accepted has published the job on [mmn.jobs.submit], appended it to the
    job table and answers with its id. *)
Theorem submit_records_only_published_jobs
    (e : request_env) (req_body : obj) (st : api) :
  let job := new_job e (generateJobId e) (field "type" req_body)
                     (field "target" req_body) in
  let after := snd (post_jobs e (VObj req_body) st) in
  (Nats.accepts (natsConnection st) = false ->
     fst (post_jobs e (VObj req_body) st)
     = Normal (failed_response (VStr "CONNECTION_CLOSED"))
     /\ jobResults after = jobResults st
     /\ Nats.published (natsConnection after) = Nats.published (natsConnection st)
     /\ Nats.outages (natsConnection after) = tail (Nats.outages (natsConnection st)))
  /\ (Nats.accepts (natsConnection st) = true ->
     fst (post_jobs e (VObj req_body) st)
     = Normal (accepted_response (generateJobId e))
     /\ jobResults after = jobResults st ++ [job]
     /\ Nats.published (natsConnection after)
        = Nats.published (natsConnection st)
            ++ [{| Nats.topic := "mmn.jobs.submit"; Nats.data := VObj job |}]
     /\ field "id" job = VStr (generateJobId e)).
Proof.
  intros job after. subst after. rewrite post_jobs_object.
  split; intros ->; simpl; auto.
Qed.

(** C3, amended.  The dispatcher does not validate the request: whatever
    its kind and target (an unrecognized kind and an empty target included),
    a submit whose publish is accepted publishes the job with that kind and
    target on the submit topic, records it and answers with its id. *)
Theorem submit_enqueues_any_kind_and_target
    (e : request_env) (req_body : obj) (st : api)
    (Hbus : Nats.accepts (natsConnection st) = true) :
  exists job : obj,
    post_jobs e (VObj req_body) st
    = (Normal (accepted_response (generateJobId e)), enqueued job st)
    /\ field "type" job = field "type" req_body
    /\ field "target" job = field "target" req_body
    /\ field "status" job = VStr "submitted"
    /\ last (jobResults (enqueued job st)) = Some job
    /\ last (Nats.published (natsConnection (enqueued job st)))
       = Some {| Nats.topic := "mmn.jobs.submit"; Nats.data := VObj job |}.
Proof.
  exists (new_job e (generateJobId e) (field "type" req_body)
                  (field "target" req_body)).
  rewrite post_jobs_object, Hbus. simpl.
  rewrite !last_snoc. repeat split; reflexivity.
Qed.

End Dispatcher.

Section Correlator.
Import ManagementAPI.

Lemma findIndex_jobId {St : Type} (result : obj) (jobs : list obj) (i : nat) (s : St) :
  exists r : option nat,
    findIndex (fun j => jobId <- read (VObj result) "jobId" ;;
                        ret (strict_eq (field "id" j) jobId)) jobs i s
    = (Normal r, s)
    /\ match r with
       | Some k =>
           (i <= k)%nat
           /\ alter (fun job => assign job result) (k - i)%nat jobs
              = merge_first result jobs
       | None => merge_first result jobs = jobs
       end.
Proof.
  revert i. induction jobs as [|job rest IH]; intros i; simpl.
  - exists None. done.
  - unfold bind at 1. unfold read at 1. simpl. unfold ret at 1. unfold bind at 1.
    unfold ret at 1.
    destruct (strict_eq (field "id" job) (field "jobId" result)) eqn:Hjob.
    + exists (Some i). split; [done|]. split; [lia|]. by rewrite Nat.sub_diag.
    + destruct (IH (S i)) as (r & Hrun & Hr). exists r. split; [exact Hrun|].
      destruct r as [k|].
      * destruct Hr as [Hle Halter]. split; [lia|].
        replace (k - i)%nat with (S (k - S i)) by lia.
        rewrite <- Halter. reflexivity.
      * by rewrite Hr.
Qed.

Lemma merge_first_none (result : obj) (jobs : list obj) :
  (forall job, job ∈ jobs ->
     strict_eq (field "id" job) (field "jobId" result) = false) ->
  merge_first result jobs = jobs.
Proof.
  induction jobs as [|job rest IH]; intros Hnone; simpl; [done|].
  rewrite Hnone by left. f_equal. apply IH. intros j Hj. apply Hnone. by right.
Qed.

Lemma send_open (message : value) (c : client) :
  readyState c = OPEN ->
  readyState (send message c) = OPEN /\ inbox (send message c) = inbox c ++ [message].
Proof. unfold send. intros ->. done. Qed.

Lemma send_not_open (message : value) (c : client) :
  readyState c <> OPEN -> send message c = c.
Proof. unfold send. by destruct (readyState c). Qed.

(** What the listener does with a result object: the job table merged,
    the file as the append leaves it, the message sent to the clients.  The
    log line at the end of the [try] block may throw; nothing follows
    it. *)
Lemma on_result_object (e : JSONStorage.io) (result : obj) (st : api) :
  on_result e (Json (VObj result)) st
  = (Normal tt,
     {| natsConnection := natsConnection st;
        jobResults := merge_first result (jobResults st);
        storage := snd (JSONStorage.saveMeasurement e (VObj result) (storage st));
        wss := List.map
                 (send (VObj (list_to_map [("type", VStr "job_result");
                                           ("data", VObj result)]))) <$> wss st |}).
Proof.
  unfold on_result, try_catch. unfold bind at 1. unfold JSON_parse, ret at 1.
  unfold bind at 1. unfold get_state at 1. unfold bind at 1.
  destruct (findIndex_jobId result (jobResults st) 0 st) as (r & -> & Hr).
  unfold bind, modify, zoom, broadcastToWebSocket, read, ToString, ret, throw;
    simpl.
  assert (Htable : match r with
                   | Some k => alter (fun job => assign job result) k (jobResults st)
                   | None => jobResults st
                   end = merge_first result (jobResults st)).
  { destruct r as [k|]; [|done]. destruct Hr as [_ Hr].
    by rewrite Nat.sub_0_r in Hr. }
  rewrite <- Htable.
  destruct r as [k|]; simpl; rewrite !saveMeasurement_run;
    destruct (JSONStorage.write e), st as [c jobs f [clients|]];
    destruct (to_string (field "jobId" result)); reflexivity.
Qed.

(** C5.  Every result object received on the reply topics is handed to the
    store ([saveMeasurement] is run on it against the file) and then sent to
    every open WebSocket client, whatever the job table holds (a [jobId] that
    matches no recorded job included) and however the append ends: when the
    write fails the broadcast is the same.  When the write succeeds the
    result stands, enriched, at the head of the stored sequence. *)
Theorem correlator_stores_and_broadcasts
    (e : JSONStorage.io) (result : obj) (st : api) :
  let message :=
    VObj (list_to_map [("type", VStr "job_result"); ("data", VObj result)]) in
  let after := snd (on_result e (Json (VObj result)) st) in
  fst (on_result e (Json (VObj result)) st) = Normal tt
  /\ storage after = snd (JSONStorage.saveMeasurement e (VObj result) (storage st))
  /\ (JSONStorage.write e = JSONStorage.Written ->
      storage after
      = JSONStorage.Stored
          (JSONStorage.measurement e (VObj result)
             :: take 999 (JSONStorage.loaded e (storage st))))
  /\ wss after = List.map (send message) <$> wss st
  /\ (forall c, readyState c = OPEN -> inbox (send message c) = inbox c ++ [message])
  /\ jobResults after = merge_first result (jobResults st)
  /\ ((forall job, job ∈ jobResults st ->
         strict_eq (field "id" job) (field "jobId" result) = false) ->
      jobResults after = jobResults st)
  /\ natsConnection after = natsConnection st.
Proof.
  intros message after.
  subst after. rewrite on_result_object. simpl.
  split; [done|]. split; [done|].
  split.
  { intros Hw. rewrite saveMeasurement_file, Hw. reflexivity. }
  split; [done|].
  split; [intros c Hc; by destruct (send_open message c Hc)|].
  split; [done|].
  split; [|done].
  apply merge_first_none.
Qed.

End Correlator.

(** ** The worker registry and the liveness sweep *)

Section Registry.
Import AnchorService.

Variable positive_numeral : string -> bool.

Lemma strict_eq_true (a b : value) : strict_eq a b = true -> a = b.
Proof.
  destruct a, b; simpl; try done.
  - intros H. apply Bool.eqb_prop in H. by subst.
  - intros H. apply Z.eqb_eq in H. by subst.
  - intros H. apply String.eqb_eq in H. by subst.
Qed.

Lemma map_get_set_eq (key : value) (m : module) (modules : registry) :
  primitive key = true -> map_get key (map_set key m modules) = Some m.
Proof.
  intros Hkey. induction modules as [|[k old] rest IH]; simpl.
  - unfold primitive in Hkey. by rewrite Hkey.
  - destruct (strict_eq k key) eqn:Hk; simpl; rewrite Hk; [done|exact IH].
Qed.

Lemma map_get_set_ne (key other : value) (m : module) (modules : registry) :
  strict_eq key other = false ->
  map_get other (map_set key m modules) = map_get other modules.
Proof.
  intros Hne. induction modules as [|[k old] rest IH]; simpl.
  - by rewrite Hne.
  - destruct (strict_eq k key) eqn:Hk; simpl.
    + apply strict_eq_true in Hk. subst k. by rewrite Hne.
    + by rewrite IH.
Qed.

(** *** Conversion of arrays *)

Lemma to_string_array (items : list value) :
  forallb converts items = true -> converts (VArr items) = true.
Proof.
  intros Hitems. unfold converts at 1. simpl.
  match goal with
  | |- context [join_comma <$> ?f items] =>
      assert (Hall : exists texts, f items = Some texts)
  end.
  { induction items as [|x items IH]; [by eexists|].
    simpl in Hitems. apply andb_prop in Hitems as [Hx Hitems].
    destruct (IH Hitems) as [texts Htexts]. rewrite Htexts.
    apply converts_Some in Hx as [text Hx].
    destruct x; try (rewrite Hx); by eexists. }
  destruct Hall as [texts ->]. done.
Qed.

Lemma join_array {St : Type} (items : list value) (s : St) :
  forallb converts items = true ->
  exists text, join (VArr items) s = (Normal text, s).
Proof.
  intros Hitems. apply to_string_array, converts_Some in Hitems as [text Htext].
  exists text. unfold join. by apply ToString_converts.
Qed.

(** *** The handlers on announcements as the modules send them *)

Lemma listing_cases (compliance : value) :
  listing compliance = true ->
  truthy compliance = false
  \/ exists items, compliance = VArr items /\ forallb converts items = true.
Proof.
  unfold listing. destruct (truthy compliance); [|by left].
  simpl. destruct compliance; try done. right. by eexists.
Qed.

Lemma forEach_converts {St : Type} (items : list value) (s : St) :
  forallb converts items = true ->
  forEach (VArr items) (fun rfc => ToString rfc ;; ret tt) s = (Normal tt, s).
Proof.
  intros Hitems. simpl. induction items as [|x items IH]; [done|].
  simpl in Hitems. apply andb_prop in Hitems as [Hx Hitems].
  apply converts_Some in Hx as [text Hx].
  unfold bind at 1. unfold bind at 1. rewrite (ToString_converts _ _ _ Hx).
  simpl. by apply IH.
Qed.

Lemma collect_rfcs_tidy (modules : registry) (s : registry) :
  tidy modules = true ->
  exists all, collect_rfcs modules s = (Normal all, s)
              /\ forallb converts all = true.
Proof.
  intros Htidy. induction modules as [|[k m] rest IH]; [by eexists|].
  simpl in Htidy. apply andb_prop in Htidy as [Hm Hrest].
  apply andb_prop in Hm as [_ Hm].
  destruct (IH Hrest) as (others & Hothers & Hconv).
  destruct (listing_cases _ Hm) as [Hfalsy|(items & Hitems & Hall)].
  - exists others. split; [|done]. simpl. rewrite Hfalsy.
    unfold bind, ret. by rewrite Hothers.
  - exists (items ++ others). split.
    + simpl. rewrite Hitems. simpl. unfold bind, ret. by rewrite Hothers.
    + by rewrite forallb_app, Hall.
Qed.

Lemma logModuleSummary_tidy (modules : registry) :
  tidy modules = true -> logModuleSummary modules = (Normal tt, modules).
Proof.
  intros Htidy. unfold logModuleSummary.
  destruct (collect_rfcs_tidy modules modules Htidy) as (all & Hall & Hconv).
  destruct (join_array (St := registry) all modules Hconv) as [text Htext].
  unfold bind, get_state. by rewrite Hall, Htext.
Qed.

Lemma tidy_map_set (key : value) (m : module) (modules : registry) :
  converts key = true -> listing (rfcCompliance m) = true ->
  tidy modules = true -> tidy (map_set key m modules) = true.
Proof.
  intros Hkey Hm. induction modules as [|[k old] rest IH]; simpl.
  - by rewrite Hkey, Hm.
  - intros Htidy. apply andb_prop in Htidy as [Hold Hrest].
    destruct (strict_eq k key) eqn:Hk; simpl.
    + apply strict_eq_true in Hk. subst k. by rewrite Hkey, Hm.
    + by rewrite Hold, IH.
Qed.

Lemma handleModuleAnnouncement_well_formed
    (e : env) (moduleInfo : obj) (modules : registry) :
  well_formed moduleInfo = true -> tidy modules = true ->
  handleModuleAnnouncement positive_numeral e (VObj moduleInfo) modules
  = (Normal tt,
     map_set (field "name" moduleInfo) (record e (VObj moduleInfo)) modules)
  /\ tidy (map_set (field "name" moduleInfo) (record e (VObj moduleInfo)) modules)
     = true.
Proof.
  intros Hinfo Htidy. unfold well_formed in Hinfo.
  apply andb_prop in Hinfo as [Hinfo Hlisting].
  apply andb_prop in Hinfo as [Hinfo Htype].
  apply andb_prop in Hinfo as [Hname Hversion].
  assert (Hafter : tidy (map_set (field "name" moduleInfo)
                                 (record e (VObj moduleInfo)) modules) = true).
  { by apply tidy_map_set. }
  split; [|exact Hafter].
  apply converts_Some in Hname as [name_text Hname_text].
  apply converts_Some in Hversion as [version_text Hversion_text].
  apply converts_Some in Htype as [type_text Htype_text].
  unfold handleModuleAnnouncement, read. simpl.
  unfold bind at 1. unfold ret at 1.
  unfold bind at 1. rewrite (ToString_converts _ _ _ Hname_text).
  unfold bind at 1. unfold ret at 1.
  unfold bind at 1. rewrite (ToString_converts _ _ _ Hversion_text).
  unfold bind at 1. unfold ret at 1.
  unfold bind at 1. rewrite (ToString_converts _ _ _ Htype_text).
  unfold bind at 1. unfold ret at 1.
  destruct (listing_cases _ Hlisting) as [Hfalsy|(items & Hitems & Hall)].
  - rewrite Hfalsy. unfold bind at 1. unfold ret at 1.
    unfold bind at 1. unfold ret at 1.
    unfold bind at 1. unfold ret at 1.
    unfold bind at 1. unfold modify at 1.
    by apply logModuleSummary_tidy.
  - rewrite Hitems. cbn [truthy length_of greater_than_zero].
    unfold bind at 1. unfold ret at 1.
    assert (Heach : forall k : unit -> M registry unit,
      bind (if 0 <? Z.of_nat (length items)
            then forEach (VArr items) (fun rfc => ToString rfc ;; ret tt)
            else ret tt) k modules = k tt modules).
    { intros k. unfold bind at 1.
      destruct (0 <? Z.of_nat (length items)); [|done].
      by rewrite (forEach_converts (St := registry)). }
    rewrite Heach.
    unfold bind at 1. unfold ret at 1.
    unfold bind at 1. unfold modify at 1.
    by apply logModuleSummary_tidy.
Qed.

Lemma check_module_tidy (t : Z) (name : value) (m : module) :
  converts name = true -> listing (rfcCompliance m) = true ->
  check_module t name m tt = (Normal (swept t m), tt).
Proof.
  intros Hname Hm. unfold check_module, swept. destruct m as [info seen h ct].
  simpl in *. destruct (t - seen >? 30000); simpl.
  - rewrite andb_false_r. destruct h; [|done].
    apply converts_Some in Hname as [text Htext].
    unfold bind at 1. unfold bind at 1. unfold bind at 1.
    rewrite (ToString_converts _ _ _ Htext).
    destruct (listing_cases _ Hm) as [Hfalsy|(items & Hitems & Hall)].
    + unfold rfcCompliance in *. simpl in *. by rewrite Hfalsy.
    + unfold rfcCompliance in *. simpl in *. rewrite Hitems.
      destruct (join_array (St := unit) items tt Hall) as [joined Hjoined].
      cbn [truthy]. unfold bind. by rewrite Hjoined.
  - by rewrite andb_true_r.
Qed.

Lemma startHealthMonitoring_tidy (t : Z) (modules : registry) :
  tidy modules = true ->
  startHealthMonitoring t modules
  = (Normal tt, map (fun entry => (fst entry, swept t (snd entry))) modules)
  /\ tidy (map (fun entry => (fst entry, swept t (snd entry))) modules) = true.
Proof.
  induction modules as [|[k m] rest IH]; [done|].
  intros Htidy. simpl in Htidy. apply andb_prop in Htidy as [Hm Hrest].
  apply andb_prop in Hm as [Hk Hm].
  destruct (IH Hrest) as [Hsweep Hafter]. simpl.
  rewrite (check_module_tidy t k m Hk Hm). simpl. rewrite Hsweep.
  split; [done|]. rewrite Hafter, Hk. unfold rfcCompliance in *. simpl.
  by rewrite Hm.
Qed.

Lemma map_get_swept (t : Z) (key : value) (modules : registry) :
  map_get key (map (fun entry => (fst entry, swept t (snd entry))) modules)
  = swept t <$> map_get key modules.
Proof.
  induction modules as [|[k m] rest IH]; [done|].
  simpl. by destruct (strict_eq k key).
Qed.

Lemma step_orderly (ev : event) (modules : registry) :
  orderly ev = true -> tidy modules = true ->
  tidy (snd (step positive_numeral ev modules)) = true.
Proof.
  intros Hev Htidy. destruct ev as [e [|[]]|t]; try done; simpl in *.
  - unfold bind, ret.
    destruct (handleModuleAnnouncement_well_formed e fields modules Hev Htidy)
      as [-> Hafter]. done.
  - destruct (startHealthMonitoring_tidy t modules Htidy) as [-> Hafter]. done.
Qed.

Lemma run_cons (ev : event) (events : list event) (modules : registry) :
  run positive_numeral (ev :: events) modules
  = run positive_numeral events (snd (step positive_numeral ev modules)).
Proof. reflexivity. Qed.

(** A record left to the timer keeps its fields, and stays healthy exactly
    as long as every sweep so far found it inside the window. *)
Lemma run_silent (events : list event) (modules : registry)
    (name : value) (r : module) :
  tidy modules = true ->
  forallb orderly events = true ->
  forallb (silent_for name) events = true ->
  map_get name modules = Some r ->
  map_get name (run positive_numeral events modules)
  = Some {| announced := announced r; lastSeen := lastSeen r;
            healthy := healthy r && forallb (within_window (lastSeen r)) events;
            connectionTime := connectionTime r |}.
Proof.
  revert modules r.
  induction events as [|ev events IH]; intros modules r Htidy Ho Hs Hr.
  - simpl. rewrite andb_true_r. by destruct r.
  - simpl in Ho, Hs. apply andb_prop in Ho as [Hev Ho].
    apply andb_prop in Hs as [Hsilent Hs].
    pose proof (step_orderly ev modules Hev Htidy) as Hafter.
    rewrite run_cons.
    destruct ev as [e [|[]]|t]; try done.
    + simpl in Hev, Hsilent.
      destruct (handleModuleAnnouncement_well_formed e fields modules Hev Htidy)
        as [Hrun _].
      assert (Hstep : step positive_numeral (Announce e (Json (VObj fields))) modules
                      = (Normal tt, map_set (field "name" fields)
                                            (record e (VObj fields)) modules)).
      { exact Hrun. }
      rewrite Hstep in *. simpl in Hafter |- *.
      rewrite (IH _ r); [done|done|done|done|].
      rewrite map_get_set_ne; [done|]. by destruct (strict_eq _ name).
    + destruct (startHealthMonitoring_tidy t modules Htidy) as [Hrun _].
      assert (Hstep : step positive_numeral (Sweep t) modules
                      = (Normal tt, map (fun entry => (fst entry, swept t (snd entry)))
                                        modules)).
      { exact Hrun. }
      rewrite Hstep in *. simpl in Hafter |- *.
      rewrite (IH _ (swept t r)); [|done|done|done|by rewrite map_get_swept, Hr].
      simpl. by rewrite andb_assoc.
Qed.

(** C4.  An announcement whose [rfcCompliance] is not a list is not
    handled as C4 says.  When it is a text, [forEach] is missing and the
    handler throws before [this.modules.set]: the module is not registered,
    whatever the registry holds.  When it is a number, the record is
    stored, and [logModuleSummary] throws after that; the sweep that finds
    the record older than the window then throws at
    [module.rfcCompliance.join] before [module.healthy = false]: the record
    stays healthy, and the records behind it are not visited. *)
Theorem unlisted_compliance_breaks_registration_and_sweep :
  forall (e : env) (modules : registry),
    (handleModuleAnnouncement positive_numeral e (VObj text_announcement) modules
     = (Thrown (Error "forEach is not a function"), modules))
    /\ map_get (VStr "probe")
         (snd (handleModuleAnnouncement positive_numeral e (VObj text_announcement) []))
       = None
    /\ (handleModuleAnnouncement positive_numeral e (VObj number_announcement) []
        = (Thrown (Error "module.rfcCompliance.forEach is not a function"),
           [(VStr "probe", record e (VObj number_announcement))]))
    /\ (forall late : positive,
          startHealthMonitoring (now e + 30000 + Z.pos late)
            ((VStr "probe", record e (VObj number_announcement)) :: modules)
          = (Thrown (Error "join is not a function"),
             (VStr "probe", record e (VObj number_announcement)) :: modules))
    /\ (forall late : positive,
          healthy <$> map_get (VStr "probe")
            (snd (startHealthMonitoring (now e + 30000 + Z.pos late)
                    [(VStr "probe", record e (VObj number_announcement))]))
          = Some true).
Proof.
  intros e modules.
  assert (Hsweep : forall late : positive,
    startHealthMonitoring (now e + 30000 + Z.pos late)
      ((VStr "probe", record e (VObj number_announcement)) :: modules)
    = (Thrown (Error "join is not a function"),
       (VStr "probe", record e (VObj number_announcement)) :: modules)).
  { intros late. simpl. unfold check_module. simpl.
    replace (now e + 30000 + Z.pos late - now e >? 30000) with true
      by (symmetry; apply Z.gtb_lt; lia).
    reflexivity. }
  split; [reflexivity|].
  split; [reflexivity|].
  split; [reflexivity|].
  split; [exact Hsweep|].
  intros late. simpl. unfold check_module. simpl.
  replace (now e + 30000 + Z.pos late - now e >? 30000) with true
    by (symmetry; apply Z.gtb_lt; lia).
  reflexivity.
Qed.

(** X21.  What C4 says holds for announcements as the modules send them. On
    a registry of such announcements, a well-formed announcement with a
    primitive name is handled to the end: it inserts or overwrites the
    record under the announced name with [lastSeen] the current time and
    [healthy] true, and touches no other record. As long as the module is
    not announced again and the events are handled to the end, the record
    keeps that [lastSeen], and it is healthy after a sequence of sweeps
    exactly when each sweep ran no later than 30000 ms after [lastSeen]: the
    first sweep that finds it older flips it to unhealthy, no sweep before
    does, and none after sets it back. A sweep leaves an unhealthy record as
    it is. *)
Theorem announcement_and_sweep
    (e : env) (moduleInfo : obj) (modules : registry) (events : list event)
    (Hinfo : well_formed moduleInfo = true)
    (Hname : primitive (field "name" moduleInfo) = true)
    (Htidy : tidy modules = true)
    (Horderly : forallb orderly events = true)
    (Hsilent : forallb (silent_for (field "name" moduleInfo)) events = true) :
  let name := field "name" moduleInfo in
  let after := map_set name (record e (VObj moduleInfo)) modules in
  handleModuleAnnouncement positive_numeral e (VObj moduleInfo) modules
  = (Normal tt, after)
  /\ map_get name after
     = Some {| announced := moduleInfo; lastSeen := now e; healthy := true;
               connectionTime := iso e |}
  /\ (forall other, strict_eq name other = false ->
        map_get other after = map_get other modules)
  /\ map_get name (run positive_numeral events after)
     = Some {| announced := moduleInfo; lastSeen := now e;
               healthy := forallb (within_window (now e)) events;
               connectionTime := iso e |}
  /\ (forall t,
        forallb (within_window (now e)) events = true ->
        healthy <$> map_get name (run positive_numeral (events ++ [Sweep t]) after)
        = Some (negb (t - now e >? 30000)))
  /\ (forall t,
        forallb (within_window (now e)) events = false ->
        healthy <$> map_get name (run positive_numeral (events ++ [Sweep t]) after)
        = Some false)
  /\ (forall t (ms : registry) key r,
        tidy ms = true -> map_get key ms = Some r ->
        fst (startHealthMonitoring t ms) = Normal tt
        /\ map_get key (snd (startHealthMonitoring t ms))
           = Some {| announced := announced r; lastSeen := lastSeen r;
                     healthy := healthy r && negb (t - lastSeen r >? 30000);
                     connectionTime := connectionTime r |})
  /\ (forall t (ms : registry) key r,
        tidy ms = true -> map_get key ms = Some r -> healthy r = false ->
        map_get key (snd (startHealthMonitoring t ms)) = Some r).
Proof.
  intros name after.
  destruct (handleModuleAnnouncement_well_formed e moduleInfo modules Hinfo Htidy)
    as [Hrun Hafter].
  fold name in Hrun, Hafter. fold after in Hrun, Hafter.
  assert (Hnew : map_get name after = Some (record e (VObj moduleInfo))).
  { by apply map_get_set_eq. }
  assert (Hlater : forall t,
    healthy <$> map_get name (run positive_numeral (events ++ [Sweep t]) after)
    = Some (forallb (within_window (now e)) events && negb (t - now e >? 30000))).
  { intros t. rewrite (run_silent _ _ _ (record e (VObj moduleInfo)) Hafter);
      [| | |exact Hnew].
    - simpl. rewrite forallb_app. simpl. by rewrite andb_true_r.
    - rewrite forallb_app, Horderly. reflexivity.
    - unfold name. rewrite forallb_app, Hsilent. reflexivity. }
  split; [exact Hrun|].
  split; [exact Hnew|].
  split; [intros other Hother; by apply map_get_set_ne|].
  split; [by rewrite (run_silent events after name _ Hafter Horderly Hsilent Hnew)|].
  split; [intros t Hin; by rewrite Hlater, Hin|].
  split; [intros t Hout; by rewrite Hlater, Hout|].
  split.
  { intros t ms key r Hms Hr.
    destruct (startHealthMonitoring_tidy t ms Hms) as [-> _]. simpl.
    split; [done|]. by rewrite map_get_swept, Hr. }
  intros t ms key r Hms Hr Hdown.
  destruct (startHealthMonitoring_tidy t ms Hms) as [-> _]. simpl.
  rewrite map_get_swept, Hr. simpl. f_equal.
  destruct r as [info seen h ct]. simpl in *. by subst h.
Qed.

End Registry.

(** ** Running handlers *)

Lemma run_ret {St A B : Type} (a : A) (k : A -> M St B) (s : St) :
  bind (ret a) k s = k a s.
Proof. reflexivity. Qed.

Lemma run_bind {St A B C : Type} (c : M St A) (k : A -> M St B) (k' : B -> M St C)
    (s : St) :
  bind (bind c k) k' s = bind c (fun a => bind (k a) k') s.
Proof. unfold bind. by destruct (c s) as [[a|e] s']. Qed.

Lemma run_read {St B : Type} (o : obj) (key : string) (k : value -> M St B) (s : St) :
  bind (read (VObj o) key) k s = k (field key o) s.
Proof. reflexivity. Qed.

Lemma run_ToString {St B : Type} (v : value) (text : string)
    (k : string -> M St B) (s : St) :
  to_string v = Some text -> bind (ToString v) k s = k text s.
Proof. intros Hv. unfold bind. by rewrite (ToString_converts _ _ _ Hv). Qed.

Lemma run_ToString_throw {St B : Type} (v : value) (k : string -> M St B) (s : St) :
  to_string v = None ->
  bind (ToString v) k s
  = (Thrown (Error "Cannot convert object to primitive value"), s).
Proof. intros Hv. unfold bind. by rewrite ToString_run, Hv. Qed.

Lemma message_Error (text : string) : field "message" (Error text) = VStr text.
Proof. reflexivity. Qed.

(** *** Computations that leave the state alone *)

Lemma stateless_ret {St A : Type} (a : A) : stateless (St := St) (ret a) (ret a).
Proof. done. Qed.

Lemma stateless_throw {St A : Type} (e : obj) :
  stateless (St := St) (A := A) (throw e) (throw e).
Proof. done. Qed.

Lemma stateless_await {St A : Type} (p : settled A) :
  stateless (St := St) (await p) (await p).
Proof. by destruct p. Qed.

Lemma stateless_bind {St A B : Type} (c : M St A) (c0 : M unit A)
    (k : A -> M St B) (k0 : A -> M unit B) :
  stateless c c0 -> (forall a, stateless (k a) (k0 a)) ->
  stateless (bind c k) (bind c0 k0).
Proof.
  intros Hc Hk s. unfold bind. rewrite Hc.
  destruct (c0 tt) as [[a|e] []]; simpl; [|done]. by rewrite Hk.
Qed.

Lemma stateless_try_catch {St A : Type} (body : M St A) (body0 : M unit A)
    (handler : obj -> M St A) (handler0 : obj -> M unit A) :
  stateless body body0 -> (forall e, stateless (handler e) (handler0 e)) ->
  stateless (try_catch body handler) (try_catch body0 handler0).
Proof.
  intros Hbody Hhandler s. unfold try_catch. rewrite Hbody.
  destruct (body0 tt) as [[a|e] []]; simpl; [done|]. by rewrite Hhandler.
Qed.

Lemma tame_stateless {St A : Type} (c : M St A) (c0 : M unit A) :
  tame c c0 -> stateless c c0.
Proof. by intros [Hc _]. Qed.

Lemma tame_ret {St A : Type} (a : A) : tame (St := St) (ret a) (ret a).
Proof. split; [done|]. intros error [=]. Qed.

Lemma tame_throw {St A : Type} (text : string) :
  tame (St := St) (A := A) (throw (Error text)) (throw (Error text)).
Proof. split; [done|]. intros error [= <-]. by eexists. Qed.

Lemma tame_bind {St A B : Type} (c : M St A) (c0 : M unit A)
    (k : A -> M St B) (k0 : A -> M unit B) :
  tame c c0 -> (forall a, tame (k a) (k0 a)) -> tame (bind c k) (bind c0 k0).
Proof.
  intros [Hc Hthrown] Hk. split.
  - apply stateless_bind; [done|]. intros a. apply Hk.
  - intros error. unfold bind.
    destruct (c0 tt) as [[a|e] []]; simpl in *.
    + destruct (Hk a) as [_ Hka]. apply Hka.
    + intros [= <-]. by apply Hthrown.
Qed.

(** Whatever the body of a [try] throws is handed to the handler. *)
Lemma tame_try_catch {St A : Type} (body : M St A) (body0 : M unit A)
    (handler : obj -> M St A) (handler0 : obj -> M unit A) :
  stateless body body0 -> (forall e, tame (handler e) (handler0 e)) ->
  tame (try_catch body handler) (try_catch body0 handler0).
Proof.
  intros Hbody Hhandler. split.
  - apply stateless_try_catch; [done|]. intros e. apply Hhandler.
  - intros error. unfold try_catch.
    destruct (body0 tt) as [[a|e] []]; simpl; [done|].
    destruct (Hhandler e) as [_ He]. apply He.
Qed.

Lemma tame_ToString {St : Type} (v : value) : tame (St := St) (ToString v) (ToString v).
Proof.
  unfold ToString. destruct (to_string v); [apply tame_ret|apply tame_throw].
Qed.

Lemma tame_read {St : Type} (v : value) (key : string) :
  tame (St := St) (read v key) (read v key).
Proof.
  unfold read. destruct (prop v key); [apply tame_ret|apply tame_throw].
Qed.

Lemma tame_toString_method {St : Type} (v : value) :
  tame (St := St) (toString_method v) (toString_method v).
Proof.
  unfold toString_method.
  destruct v; try apply tame_ToString;
    try (apply tame_bind; [apply tame_read|intros ?; apply tame_ret]).
  destruct (to_string _); [apply tame_ret|apply tame_throw].
Qed.

Ltac tame_step :=
  first [ apply tame_ret | apply tame_throw | apply tame_ToString
        | apply tame_toString_method | apply tame_read
        | apply tame_bind; [|intros ?]
        | case_match ].

Ltac stateless_step :=
  first [ apply stateless_ret | apply stateless_throw | apply stateless_await
        | apply stateless_bind; [|intros ?]
        | apply stateless_try_catch; [|intros ?]
        | apply tame_stateless; tame_step ].

(** ** The ping worker *)

Section PingWorker.
Import PingModule.

Variable statistics : string -> string -> option (Z * value).

Lemma tame_call_cleanTarget {St : Type} (target : value) :
  tame (St := St) (call_cleanTarget target) (call_cleanTarget target).
Proof. destruct target; simpl; first [apply tame_ret|apply tame_throw]. Qed.

Lemma tame_executeRealPing {St : Type} (h : host) (target : value) :
  tame (St := St) (executeRealPing statistics h target)
       (executeRealPing statistics h target).
Proof.
  unfold executeRealPing.
  apply tame_bind; [apply tame_call_cleanTarget|intros name].
  apply tame_try_catch.
  - apply stateless_bind; [apply stateless_await|intros result].
    apply tame_stateless. unfold parsePingOutput. cbv zeta. repeat tame_step.
  - intros error. unfold ping_failed. cbv zeta. repeat tame_step.
Qed.

Lemma executeRealPing_state {St : Type} (h : host) (target : value) (st : St) :
  executeRealPing statistics h target st = (strategy statistics h target, st).
Proof. apply tame_executeRealPing. Qed.

(** What the strategy throws is an [Error] with a text. *)
Lemma strategy_throws_Error (h : host) (target : value) (error : obj) :
  strategy statistics h target = Thrown error -> exists text, error = Error text.
Proof. apply (tame_executeRealPing (St := unit)). Qed.

Lemma success_createPingResult (h : host) (target : string) (ok : bool) (time : value)
    (loss : Z) (text : string) (transmitted received : Z) :
  result_field "success"
    (createPingResult h target ok time loss text transmitted received) = VBool ok.
Proof. reflexivity. Qed.

Lemma success_ping_failed (h : host) (target : string) (error pingResult : obj) :
  fst (ping_failed h target error tt) = Normal pingResult ->
  result_field "success" pingResult = VBool false.
Proof.
  unfold ping_failed, bind, ret, toString_method, ToString, read, throw.
  repeat (case_match; simpl in *; simplify_eq);
    intros; simplify_eq; try apply success_createPingResult.
Qed.

Lemma success_error_result (h : host) (id target : value) (target_text text : string) :
  result_field "success" (error_result h id target target_text text) = VBool false.
Proof. reflexivity. Qed.

Lemma result_field_jobId (k : string) (id : value) (payload : obj) :
  result_field k (<["jobId" := id]> payload) = result_field k payload.
Proof. unfold result_field. by rewrite field_insert_ne. Qed.

Lemma jobId_error_result (h : host) (id target : value) (target_text text : string) :
  field "jobId" (error_result h id target target_text text) = id.
Proof. reflexivity. Qed.

(** The [catch] block of [processPingJob] on a job whose [target]
    converts, for an [Error] with a text. *)
Lemma processPingJob_catch (h : host) (job : obj) (target_text text : string)
    (c : Nats.connection) :
  to_string (field "target" job) = Some target_text ->
  (target <- read (VObj job) "target" ;;
   ToString target ;;
   text <- ToString (field "message" (Error text)) ;;
   errorResult <- createErrorResult h (VObj job) ("Ping failed: " +:+ text) ;;
   id <- read (VObj job) "id" ;;
   id_text <- ToString id ;;
   Nats.publish ("mmn.jobs.result." +:+ id_text) (VObj errorResult)) c
  = match to_string (field "id" job) with
    | Some id_text =>
        Nats.publish (reply_topic id_text)
          (VObj (error_result h (field "id" job) (field "target" job) target_text
                   ("Ping failed: " +:+ text))) c
    | None => (Thrown (Error "Cannot convert object to primitive value"), c)
    end.
Proof.
  intros Htarget.
  rewrite run_read, (run_ToString _ _ _ _ Htarget).
  rewrite (run_ToString _ text) by reflexivity.
  unfold createErrorResult. rewrite run_bind, run_read.
  rewrite run_bind, run_read. rewrite run_bind, (run_ToString _ _ _ _ Htarget).
  rewrite run_ret, run_read.
  destruct (to_string (field "id" job)) as [id_text|] eqn:Hid.
  - by rewrite (run_ToString _ _ _ _ Hid).
  - by rewrite (run_ToString_throw _ _ _ Hid).
Qed.

(** What [processPingJob] does with a job object whose [target] converts. *)
Lemma processPingJob_object (h : host) (job : obj) (target_text : string)
    (c : Nats.connection) :
  to_string (field "target" job) = Some target_text ->
  let failure text :=
    VObj (error_result h (field "id" job) (field "target" job) target_text
            ("Ping failed: " +:+ text)) in
  match to_string (field "id" job) with
  | None =>
      processPingJob statistics h (VObj job) c
      = (Thrown (Error "Cannot convert object to primitive value"), c)
  | Some id_text =>
      match strategy statistics h (field "target" job) with
      | Normal pingResult =>
          processPingJob statistics h (VObj job) c
          = if Nats.accepts c
            then (Normal tt,
                  Nats.accepted (reply_topic id_text)
                    (VObj (<["jobId" := field "id" job]> pingResult)) c)
            else Nats.publish (reply_topic id_text) (failure "CONNECTION_CLOSED")
                   (Nats.dropped c)
      | Thrown error =>
          exists text,
            error = Error text
            /\ processPingJob statistics h (VObj job) c
               = Nats.publish (reply_topic id_text) (failure text) c
      end
  end.
Proof.
  intros Htarget failure.
  pose proof (fun text c0 => processPingJob_catch h job target_text text c0 Htarget)
    as Hcatch.
  assert (Hrun : processPingJob statistics h (VObj job) c
    = match strategy statistics h (field "target" job) with
      | Normal pingResult =>
          match to_string (field "id" job) with
          | Some id_text =>
              if Nats.accepts c
              then (Normal tt,
                    Nats.accepted (reply_topic id_text)
                      (VObj (<["jobId" := field "id" job]> pingResult)) c)
              else
                (target <- read (VObj job) "target" ;;
                 ToString target ;;
                 text <- ToString (field "message" (Error "CONNECTION_CLOSED")) ;;
                 errorResult <- createErrorResult h (VObj job) ("Ping failed: " +:+ text) ;;
                 id <- read (VObj job) "id" ;;
                 id_text <- ToString id ;;
                 Nats.publish ("mmn.jobs.result." +:+ id_text) (VObj errorResult))
                  (Nats.dropped c)
          | None =>
              (target <- read (VObj job) "target" ;;
               ToString target ;;
               text <- ToString (field "message"
                                   (Error "Cannot convert object to primitive value")) ;;
               errorResult <- createErrorResult h (VObj job) ("Ping failed: " +:+ text) ;;
               id <- read (VObj job) "id" ;;
               id_text <- ToString id ;;
               Nats.publish ("mmn.jobs.result." +:+ id_text) (VObj errorResult)) c
          end
      | Thrown error =>
          (target <- read (VObj job) "target" ;;
           ToString target ;;
           text <- ToString (field "message" error) ;;
           errorResult <- createErrorResult h (VObj job) ("Ping failed: " +:+ text) ;;
           id <- read (VObj job) "id" ;;
           id_text <- ToString id ;;
           Nats.publish ("mmn.jobs.result." +:+ id_text) (VObj errorResult)) c
      end).
  { unfold processPingJob, try_catch.
    rewrite run_read. unfold bind at 1. rewrite executeRealPing_state.
    destruct (strategy statistics h (field "target" job)) as [pingResult|error];
      [|reflexivity].
    rewrite run_read, run_read.
    destruct (to_string (field "id" job)) as [id_text|] eqn:Hid.
    - rewrite (run_ToString _ _ _ _ Hid). unfold bind at 1.
      rewrite publish_cases. destruct (Nats.accepts c); [|reflexivity].
      by rewrite run_read, (run_ToString _ _ _ _ Htarget).
    - by rewrite (run_ToString_throw _ _ _ Hid). }
  destruct (to_string (field "id" job)) as [id_text|] eqn:Hid.
  - destruct (strategy statistics h (field "target" job)) as [pingResult|error] eqn:Hs.
    + rewrite Hrun. destruct (Nats.accepts c); [done|].
      by rewrite Hcatch.
    + destruct (strategy_throws_Error _ _ _ Hs) as [text ->].
      exists text. split; [done|]. by rewrite Hrun, Hcatch.
  - rewrite Hrun.
    destruct (strategy statistics h (field "target" job)) as [pingResult|error] eqn:Hs.
    + by rewrite Hcatch.
    + destruct (strategy_throws_Error _ _ _ Hs) as [text ->].
      by rewrite Hcatch.
Qed.

Lemma on_job_ping (h : host) (job : obj) (c : Nats.connection) :
  field "type" job = VStr "ping" ->
  on_job statistics h (Json (VObj job)) c =
    match to_string (field "target" job) with
    | Some _ => (Normal tt, snd (processPingJob statistics h (VObj job) c))
    | None => (Normal tt, c)
    end.
Proof.
  intros Hkind. unfold on_job, try_catch, JSON_parse.
  rewrite run_ret. cbv beta. rewrite run_read, Hkind.
  change (strict_eq (VStr "ping") (VStr "ping")) with true. cbv iota.
  rewrite run_read.
  destruct (to_string (field "target" job)) as [target_text|] eqn:Htarget.
  - rewrite (run_ToString _ _ _ _ Htarget).
    by destruct (processPingJob statistics h (VObj job) c) as [[[]|error] c'].
  - by rewrite (run_ToString_throw _ _ _ Htarget).
Qed.

Lemma on_job_other (h : host) (msg : wire) (c : Nats.connection) :
  is_ping_job msg = false -> on_job statistics h msg c = (Normal tt, c).
Proof.
  unfold is_ping_job, on_job, try_catch, bind, JSON_parse, read, ret, throw.
  destruct msg as [|v]; [reflexivity|].
  destruct (prop v "type") as [type|]; [|reflexivity].
  intros ->. reflexivity.
Qed.

Lemma strategy_fails_success (h : host) (target : value) (pingResult : obj) :
  strategy_fails h target = true ->
  strategy statistics h target = Normal pingResult ->
  result_field "success" pingResult = VBool false.
Proof.
  unfold strategy, strategy_fails, executeRealPing, call_cleanTarget, try_catch,
    await.
  destruct target; try discriminate.
  rewrite run_ret.
  destruct (execPromise h (command h (cleanTarget s))); [discriminate|].
  intros _. unfold bind at 1, throw. apply success_ping_failed.
Qed.

Lemma is_ping_job_object (msg : wire) :
  is_ping_job msg = true ->
  exists job : obj, msg = Json (VObj job) /\ field "type" job = VStr "ping".
Proof.
  destruct msg as [|v]; [discriminate|].
  destruct v as [| | | | |items|job]; try discriminate.
  simpl. intros Hkind. exists job. split; [reflexivity|].
  destruct (field "type" job); try discriminate.
  simpl in Hkind. apply String.eqb_eq in Hkind. by subst.
Qed.

(** A ping job on a bus that accepts the publish: nothing is published when
    [id] or [target] does not convert, and one message otherwise. *)
Lemma on_job_ping_accepted (h : host) (job : obj) (c : Nats.connection) :
  field "type" job = VStr "ping" ->
  Nats.accepts c = true ->
  match to_string (field "id" job), to_string (field "target" job) with
  | Some id_text, Some _ =>
      exists payload : obj,
        on_job statistics h (Json (VObj job)) c
        = (Normal tt, Nats.accepted (reply_topic id_text) (VObj payload) c)
        /\ field "jobId" payload = field "id" job
        /\ (strategy_fails h (field "target" job) = true ->
            result_field "success" payload = VBool false)
  | _, _ => on_job statistics h (Json (VObj job)) c = (Normal tt, c)
  end.
Proof.
  intros Hkind Hbus. rewrite (on_job_ping h job c Hkind).
  destruct (to_string (field "target" job)) as [target_text|] eqn:Htarget;
    [|by destruct (to_string (field "id" job))].
  pose proof (processPingJob_object h job target_text c Htarget) as Hrun.
  simpl in Hrun.
  destruct (to_string (field "id" job)) as [id_text|]; [|by rewrite Hrun].
  destruct (strategy statistics h (field "target" job)) as [pingResult|error] eqn:Hs.
  - rewrite Hrun, Hbus. eexists. split; [reflexivity|].
    split; [apply field_insert|].
    intros Hfails. rewrite result_field_jobId.
    by apply (strategy_fails_success h (field "target" job)).
  - destruct Hrun as (text & -> & ->). rewrite publish_cases, Hbus.
    eexists. split; [reflexivity|].
    split; [apply jobId_error_result|].
    intros _. apply success_error_result.
Qed.

(** Whatever arrives and whatever the bus does, the handler completes
    normally and has published at most one message. *)
Lemma on_job_at_most_one (h : host) (msg : wire) (c : Nats.connection) :
  exists c' : Nats.connection,
    on_job statistics h msg c = (Normal tt, c')
    /\ (Nats.published c' = Nats.published c
        \/ exists m, Nats.published c' = Nats.published c ++ [m]).
Proof.
  destruct (is_ping_job msg) eqn:Hmsg.
  - apply is_ping_job_object in Hmsg as (job & -> & Hkind).
    rewrite (on_job_ping h job c Hkind).
    destruct (to_string (field "target" job)) as [target_text|] eqn:Htarget;
      [|exists c; by split; [|left]].
    pose proof (processPingJob_object h job target_text c Htarget) as Hrun.
    simpl in Hrun.
    destruct (to_string (field "id" job)) as [id_text|];
      [|rewrite Hrun; exists c; by split; [|left]].
    destruct (strategy statistics h (field "target" job)) as [pingResult|error];
      [|destruct Hrun as (text & _ & Hrun)];
      rewrite Hrun, ?publish_cases;
      repeat match goal with
             | |- context [if Nats.accepts ?x then _ else _] =>
                 destruct (Nats.accepts x); rewrite ?publish_cases
             end;
      eexists; (split; [reflexivity|]); simpl; eauto.
  - exists c. split; [by apply on_job_other|by left].
Qed.

(** The loop on a bus without outages: one published message per
    answerable ping job delivered, and none for the other messages. *)
Lemma startJobProcessing_one_per_job (msgs : list (host * wire)) (c : Nats.connection) :
  Nats.outages c = [] ->
  Nats.outages (startJobProcessing statistics msgs c) = []
  /\ length (Nats.published (startJobProcessing statistics msgs c))
     = (length (Nats.published c) + length (answerable_ping_jobs msgs))%nat.
Proof.
  revert c. induction msgs as [|[h msg] msgs IH]; intros c Hup; simpl.
  - split; [done|lia].
  - destruct (is_ping_job msg) eqn:Hmsg.
    + apply is_ping_job_object in Hmsg as (job & -> & Hkind).
      assert (Hbus : Nats.accepts c = true) by (unfold Nats.accepts; by rewrite Hup).
      pose proof (on_job_ping_accepted h job c Hkind Hbus) as Hrun.
      cbn [andb answerable]. unfold converts.
      destruct (to_string (field "id" job)) as [id_text|];
        [destruct (to_string (field "target" job)) as [target_text|]|].
      * destruct Hrun as (payload & -> & _). simpl.
        destruct (IH (Nats.accepted (reply_topic id_text) (VObj payload) c))
          as [Hout Hlen]; [simpl; by rewrite Hup|].
        split; [exact Hout|]. rewrite Hlen. simpl. rewrite length_app. simpl. lia.
      * rewrite Hrun. simpl. by apply IH.
      * rewrite Hrun. simpl. by apply IH.
    + rewrite (on_job_other h msg c Hmsg). simpl. by apply IH.
Qed.

(** C2.  A ping job whose [target] no template literal converts gets no
    result.  [POST /api/jobs] forwards whatever [target] the
    request holds; on the job it publishes for the target [{"toString": 0}]
    the worker throws at the log line before [processPingJob], inside the
    [try] of the loop: the handler completes, and nothing is published, on
    any host and whatever the bus does.  So it is for every ping job whose
    [target] does not convert; and for one whose [id] does not convert the
    reply topic cannot be built, neither for the result nor for the
    failure report. *)
Theorem ping_job_without_result :
  forall (h : host) (c : Nats.connection),
    is_ping_job (Json (VObj unprintable_target_job)) = true
    /\ (forall q : ManagementAPI.request_env,
          snd (ManagementAPI.post_jobs q
                 (VObj (list_to_map [("type", VStr "ping"); ("target", no_text)]))
                 (Samples.api_idle Samples.bus_up))
          = enqueued (ManagementAPI.new_job q (ManagementAPI.generateJobId q)
                        (VStr "ping") no_text)
                     (Samples.api_idle Samples.bus_up)
          /\ on_job statistics h
               (Json (VObj (ManagementAPI.new_job q (ManagementAPI.generateJobId q)
                              (VStr "ping") no_text))) c
             = (Normal tt, c))
    /\ on_job statistics h (Json (VObj unprintable_target_job)) c = (Normal tt, c)
    /\ (forall job : obj,
          field "type" job = VStr "ping" ->
          converts (field "target" job) = false ->
          on_job statistics h (Json (VObj job)) c = (Normal tt, c))
    /\ (forall job : obj,
          field "type" job = VStr "ping" ->
          converts (field "id" job) = false ->
          on_job statistics h (Json (VObj job)) c = (Normal tt, c)).
Proof.
  intros h c.
  assert (Htarget : forall job : obj,
    field "type" job = VStr "ping" ->
    converts (field "target" job) = false ->
    on_job statistics h (Json (VObj job)) c = (Normal tt, c)).
  { intros job Hkind Hconv. rewrite (on_job_ping h job c Hkind).
    unfold converts in Hconv. by destruct (to_string (field "target" job)). }
  split; [reflexivity|].
  split.
  { intros q. split; [reflexivity|]. by apply Htarget. }
  split; [by apply Htarget|].
  split; [exact Htarget|].
  intros job Hkind Hconv. rewrite (on_job_ping h job c Hkind).
  destruct (to_string (field "target" job)) as [target_text|] eqn:Ht; [|done].
  pose proof (processPingJob_object h job target_text c Ht) as Hrun.
  simpl in Hrun. unfold converts in Hconv.
  destruct (to_string (field "id" job)); [done|]. by rewrite Hrun.
Qed.

(** X22.  What C2 says holds for a job whose [id] and [target] convert to
    strings (as the [id] the API generates and a [target] that is a string,
    a number or a boolean do). Such a job object whose [type] is ['ping'],
    received while the bus accepts the publish, makes the worker publish
    exactly one message: on the reply topic [mmn.jobs.result.<job.id>],
    carrying the [jobId] of the job, and with [result.success] false when
    the strategy failed internally ([job.target] unusable, or the ping
    process rejected). A message that is not a ping job (another [type], no
    [type], malformed JSON) publishes nothing and leaves the connection as
    it was. In every case the handler completes normally and publishes at
    most one message; over a bus without outages the loop has published one
    message per answerable ping job it was delivered. *)
Theorem ping_worker_publishes_one_result
    (h : host) (job : obj) (id_text : string) (c : Nats.connection) (other : wire)
    (Hkind : field "type" job = VStr "ping")
    (Hid : to_string (field "id" job) = Some id_text)
    (Htarget : converts (field "target" job) = true)
    (Hbus : Nats.accepts c = true)
    (Hother : is_ping_job other = false) :
  (exists payload : obj,
     on_job statistics h (Json (VObj job)) c
     = (Normal tt, Nats.accepted (reply_topic id_text) (VObj payload) c)
     /\ Nats.published (Nats.accepted (reply_topic id_text) (VObj payload) c)
        = Nats.published c
            ++ [{| Nats.topic := "mmn.jobs.result." +:+ id_text;
                   Nats.data := VObj payload |}]
     /\ field "jobId" payload = field "id" job
     /\ (strategy_fails h (field "target" job) = true ->
         result_field "success" payload = VBool false))
  /\ on_job statistics h other c = (Normal tt, c)
  /\ (forall msg c0, exists c',
        on_job statistics h msg c0 = (Normal tt, c')
        /\ (Nats.published c' = Nats.published c0
            \/ exists m, Nats.published c' = Nats.published c0 ++ [m]))
  /\ (forall msgs c0,
        Nats.outages c0 = [] ->
        length (Nats.published (startJobProcessing statistics msgs c0))
        = (length (Nats.published c0) + length (answerable_ping_jobs msgs))%nat).
Proof.
  split.
  { pose proof (on_job_ping_accepted h job c Hkind Hbus) as Hrun.
    rewrite Hid in Hrun. apply converts_Some in Htarget as [target_text Htarget].
    rewrite Htarget in Hrun. destruct Hrun as (payload & Hrun & Hjob & Hfailed).
    exists payload. split; [exact Hrun|]. split; [reflexivity|].
    split; [exact Hjob | exact Hfailed]. }
  split; [by apply on_job_other|].
  split; [apply on_job_at_most_one|].
  intros msgs c0 Hup. by apply startJobProcessing_one_per_job.
Qed.

End PingWorker.

(** ** The DNS worker *)

Section DNSWorker.
Import DNSModule.

Lemma tame_dns_call_cleanTarget {St : Type} (target : value) :
  tame (St := St) (call_cleanTarget target) (call_cleanTarget target).
Proof. destruct target; simpl; first [apply tame_ret|apply tame_throw]. Qed.

Lemma stateless_lookup {St : Type} (h : host) (name : string) :
  stateless (St := St) (lookup h name) (lookup h name).
Proof. unfold lookup. repeat stateless_step. Qed.

Lemma tame_categorize {St : Type} (target : value) (error : obj) :
  tame (St := St) (categorize target error) (categorize target error).
Proof.
  unfold categorize. cbv zeta.
  repeat first [apply tame_dns_call_cleanTarget | tame_step].
Qed.

Lemma tame_executeRealDNSLookup {St : Type} (h : host) (target : value) :
  tame (St := St) (executeRealDNSLookup h target) (executeRealDNSLookup h target).
Proof.
  unfold executeRealDNSLookup. apply tame_try_catch.
  - destruct (negb (isValidDomain target)); [apply stateless_ret|].
    apply stateless_bind;
      [apply tame_stateless, tame_dns_call_cleanTarget|intros name].
    apply stateless_bind; [apply stateless_lookup|intros found].
    apply stateless_ret.
  - intros error. apply tame_bind; [apply tame_categorize|intros chosen].
    apply tame_bind; [apply tame_dns_call_cleanTarget|intros name].
    apply tame_ret.
Qed.

Lemma executeRealDNSLookup_state {St : Type} (h : host) (target : value) (st : St) :
  executeRealDNSLookup h target st = (resolution h target, st).
Proof. apply tame_executeRealDNSLookup. Qed.

(** What the lookup throws is an [Error] with a text. *)
Lemma resolution_throws_Error (h : host) (target : value) (error : obj) :
  resolution h target = Thrown error -> exists text, error = Error text.
Proof. apply (tame_executeRealDNSLookup (St := unit)). Qed.

(** The result of a lookup whose three record-type queries are all
    rejected, the first with [ENOTFOUND]. *)
Lemma executeRealDNSLookup_not_found {St : Type} (h : host) (target : string)
    (error : obj) (st : St) :
  isValidDomain (VStr target) = true ->
  resolve4 h (cleanTarget target) = Rejected error ->
  field "code" error = VStr "ENOTFOUND" ->
  rejected (resolve6 h (cleanTarget target)) = true ->
  rejected (resolveAny h (cleanTarget target)) = true ->
  executeRealDNSLookup h (VStr target) st
  = (Normal (createDNSResult h (VStr (cleanTarget target)) false [] VNull
               ("Domain not found: " +:+ cleanTarget target) "A"
               (VStr "DOMAIN_NOT_FOUND")),
     st).
Proof.
  intros Hvalid H4 Hcode H6 Hany.
  unfold executeRealDNSLookup, lookup, try_catch, bind, call_cleanTarget, await,
    ret, throw.
  rewrite Hvalid. simpl. rewrite H4.
  destruct (resolve6 h (cleanTarget target)); [discriminate|].
  destruct (resolveAny h (cleanTarget target)); [discriminate|].
  unfold categorize. rewrite Hcode. reflexivity.
Qed.

Lemma errorCode_createDNSResult (h : host) (target : value) (ok : bool)
    (addresses : list value) (resolveTime : value) (text recordType : string)
    (errorCode : value) :
  result_field "errorCode"
    (createDNSResult h target ok addresses resolveTime text recordType errorCode)
  = errorCode
  /\ result_field "success"
       (createDNSResult h target ok addresses resolveTime text recordType errorCode)
     = VBool ok.
Proof. split; reflexivity. Qed.

(** The [catch] block of [processDNSJob] on a job whose [target] converts,
    for an [Error] with a text. *)
Lemma processDNSJob_catch (h : host) (job : obj) (target_text text : string)
    (c : Nats.connection) :
  to_string (field "target" job) = Some target_text ->
  (target <- read (VObj job) "target" ;;
   ToString target ;;
   text <- ToString (field "message" (Error text)) ;;
   errorResult <- createErrorResult h (VObj job) ("DNS lookup failed: " +:+ text) ;;
   id <- read (VObj job) "id" ;;
   id_text <- ToString id ;;
   Nats.publish ("mmn.jobs.result." +:+ id_text) (VObj errorResult)) c
  = match to_string (field "id" job) with
    | Some id_text =>
        Nats.publish (reply_topic id_text)
          (VObj (error_result h (field "id" job) (field "target" job) target_text
                   ("DNS lookup failed: " +:+ text))) c
    | None => (Thrown (Error "Cannot convert object to primitive value"), c)
    end.
Proof.
  intros Htarget.
  rewrite run_read, (run_ToString _ _ _ _ Htarget).
  rewrite (run_ToString _ text) by reflexivity.
  unfold createErrorResult. rewrite run_bind, run_read.
  rewrite run_bind, run_read. rewrite run_bind, (run_ToString _ _ _ _ Htarget).
  rewrite run_ret, run_read.
  destruct (to_string (field "id" job)) as [id_text|] eqn:Hid.
  - by rewrite (run_ToString _ _ _ _ Hid).
  - by rewrite (run_ToString_throw _ _ _ Hid).
Qed.

(** What [processDNSJob] does with a job object whose [target] converts. *)
Lemma processDNSJob_object (h : host) (job : obj) (target_text : string)
    (c : Nats.connection) :
  to_string (field "target" job) = Some target_text ->
  let failure text :=
    VObj (error_result h (field "id" job) (field "target" job) target_text
            ("DNS lookup failed: " +:+ text)) in
  match to_string (field "id" job) with
  | None =>
      processDNSJob h (VObj job) c
      = (Thrown (Error "Cannot convert object to primitive value"), c)
  | Some id_text =>
      match resolution h (field "target" job) with
      | Normal dnsResult =>
          processDNSJob h (VObj job) c
          = if Nats.accepts c
            then (Normal tt,
                  Nats.accepted (reply_topic id_text)
                    (VObj (<["jobId" := field "id" job]> dnsResult)) c)
            else Nats.publish (reply_topic id_text) (failure "CONNECTION_CLOSED")
                   (Nats.dropped c)
      | Thrown error =>
          exists text,
            error = Error text
            /\ processDNSJob h (VObj job) c
               = Nats.publish (reply_topic id_text) (failure text) c
      end
  end.
Proof.
  intros Htarget failure.
  pose proof (fun text c0 => processDNSJob_catch h job target_text text c0 Htarget)
    as Hcatch.
  assert (Hrun : processDNSJob h (VObj job) c
    = match resolution h (field "target" job) with
      | Normal dnsResult =>
          match to_string (field "id" job) with
          | Some id_text =>
              if Nats.accepts c
              then (Normal tt,
                    Nats.accepted (reply_topic id_text)
                      (VObj (<["jobId" := field "id" job]> dnsResult)) c)
              else
                (target <- read (VObj job) "target" ;;
                 ToString target ;;
                 text <- ToString (field "message" (Error "CONNECTION_CLOSED")) ;;
                 errorResult <- createErrorResult h (VObj job)
                                  ("DNS lookup failed: " +:+ text) ;;
                 id <- read (VObj job) "id" ;;
                 id_text <- ToString id ;;
                 Nats.publish ("mmn.jobs.result." +:+ id_text) (VObj errorResult))
                  (Nats.dropped c)
          | None =>
              (target <- read (VObj job) "target" ;;
               ToString target ;;
               text <- ToString (field "message"
                                   (Error "Cannot convert object to primitive value")) ;;
               errorResult <- createErrorResult h (VObj job)
                                ("DNS lookup failed: " +:+ text) ;;
               id <- read (VObj job) "id" ;;
               id_text <- ToString id ;;
               Nats.publish ("mmn.jobs.result." +:+ id_text) (VObj errorResult)) c
          end
      | Thrown error =>
          (target <- read (VObj job) "target" ;;
           ToString target ;;
           text <- ToString (field "message" error) ;;
           errorResult <- createErrorResult h (VObj job)
                            ("DNS lookup failed: " +:+ text) ;;
           id <- read (VObj job) "id" ;;
           id_text <- ToString id ;;
           Nats.publish ("mmn.jobs.result." +:+ id_text) (VObj errorResult)) c
      end).
  { unfold processDNSJob, try_catch.
    rewrite run_read. unfold bind at 1. rewrite executeRealDNSLookup_state.
    destruct (resolution h (field "target" job)) as [dnsResult|error];
      [|reflexivity].
    rewrite run_read, run_read.
    destruct (to_string (field "id" job)) as [id_text|] eqn:Hid.
    - rewrite (run_ToString _ _ _ _ Hid). unfold bind at 1.
      rewrite publish_cases. destruct (Nats.accepts c); [|reflexivity].
      by rewrite run_read, (run_ToString _ _ _ _ Htarget).
    - by rewrite (run_ToString_throw _ _ _ Hid). }
  destruct (to_string (field "id" job)) as [id_text|] eqn:Hid.
  - destruct (resolution h (field "target" job)) as [dnsResult|error] eqn:Hs.
    + rewrite Hrun. destruct (Nats.accepts c); [done|].
      by rewrite Hcatch.
    + destruct (resolution_throws_Error _ _ _ Hs) as [text ->].
      exists text. split; [done|]. by rewrite Hrun, Hcatch.
  - rewrite Hrun.
    destruct (resolution h (field "target" job)) as [dnsResult|error] eqn:Hs.
    + by rewrite Hcatch.
    + destruct (resolution_throws_Error _ _ _ Hs) as [text ->].
      by rewrite Hcatch.
Qed.

Lemma on_job_dns (h : host) (job : obj) (c : Nats.connection) :
  field "type" job = VStr "dns" ->
  on_job h (Json (VObj job)) c =
    match to_string (field "target" job) with
    | Some _ => (Normal tt, snd (processDNSJob h (VObj job) c))
    | None => (Normal tt, c)
    end.
Proof.
  intros Hkind. unfold on_job, try_catch, JSON_parse.
  rewrite run_ret. cbv beta. rewrite run_read, Hkind.
  change (strict_eq (VStr "dns") (VStr "dns")) with true. cbv iota.
  rewrite run_read.
  destruct (to_string (field "target" job)) as [target_text|] eqn:Htarget.
  - rewrite (run_ToString _ _ _ _ Htarget).
    by destruct (processDNSJob h (VObj job) c) as [[[]|error] c'].
  - by rewrite (run_ToString_throw _ _ _ Htarget).
Qed.

Lemma dns_on_job_other (h : host) (msg : wire) (c : Nats.connection) :
  is_dns_job msg = false -> on_job h msg c = (Normal tt, c).
Proof.
  unfold is_dns_job, on_job, try_catch, bind, JSON_parse, read, ret, throw.
  destruct msg as [|v]; [reflexivity|].
  destruct (prop v "type") as [type|]; [|reflexivity].
  intros ->. reflexivity.
Qed.

Lemma is_dns_job_object (msg : wire) :
  is_dns_job msg = true ->
  exists job : obj, msg = Json (VObj job) /\ field "type" job = VStr "dns".
Proof.
  destruct msg as [|v]; [discriminate|].
  destruct v as [| | | | |items|job]; try discriminate.
  simpl. intros Hkind. exists job. split; [reflexivity|].
  destruct (field "type" job); try discriminate.
  simpl in Hkind. apply String.eqb_eq in Hkind. by subst.
Qed.

(** C9.  A dns job whose (well-formed) target is rejected by the resolver
    with [ENOTFOUND], and by the AAAA and ANY fallbacks as well, makes the
    worker publish, when the bus accepts it, one result on the reply topic of
    the job with [result.success] false and [result.errorCode]
    ["DOMAIN_NOT_FOUND"]; the record the store writes for that result has
    the same [result] property, [errorCode] included.  The [id] of the job
    is one a template literal converts, as every [id] the API generates:
    the reply topic is built from its text. *)
Theorem dns_not_found_is_published_and_preserved
    (h : host) (job : obj) (id_text target : string) (error : obj)
    (c : Nats.connection) (e : JSONStorage.io) (f : JSONStorage.file)
    (Hkind : field "type" job = VStr "dns")
    (Hid : to_string (field "id" job) = Some id_text)
    (Htarget : field "target" job = VStr target)
    (Hvalid : isValidDomain (VStr target) = true)
    (Hnotfound : resolve4 h (cleanTarget target) = Rejected error)
    (Hcode : field "code" error = VStr "ENOTFOUND")
    (Hipv6 : rejected (resolve6 h (cleanTarget target)) = true)
    (Hany : rejected (resolveAny h (cleanTarget target)) = true)
    (Hbus : Nats.accepts c = true)
    (Hwrite : JSONStorage.write e = JSONStorage.Written) :
  exists payload record : obj,
    on_job h (Json (VObj job)) c
    = (Normal tt,
       Nats.accepted ("mmn.jobs.result." +:+ id_text) (VObj payload) c)
    /\ field "jobId" payload = field "id" job
    /\ result_field "success" payload = VBool false
    /\ result_field "errorCode" payload = VStr "DOMAIN_NOT_FOUND"
    /\ JSONStorage.saveMeasurement e (VObj payload) f
       = (Normal true,
          JSONStorage.Stored (record :: take 999 (JSONStorage.loaded e f)))
    /\ field "result" record = field "result" payload
    /\ result_field "errorCode" record = VStr "DOMAIN_NOT_FOUND".
Proof.
  set (found := createDNSResult h (VStr (cleanTarget target)) false [] VNull
                  ("Domain not found: " +:+ cleanTarget target) "A"
                  (VStr "DOMAIN_NOT_FOUND")).
  exists (<["jobId" := field "id" job]> found),
         (JSONStorage.measurement e (VObj (<["jobId" := field "id" job]> found))).
  assert (Hkeep : field "result"
            (JSONStorage.measurement e (VObj (<["jobId" := field "id" job]> found)))
          = field "result" (<["jobId" := field "id" job]> found)).
  { unfold JSONStorage.measurement. by rewrite !field_insert_ne. }
  split.
  { rewrite (on_job_dns h job c Hkind), Htarget. simpl.
    pose proof (processDNSJob_object h job target c) as Hrun.
    rewrite Htarget in Hrun. specialize (Hrun eq_refl). simpl in Hrun.
    rewrite Hid in Hrun. unfold resolution in Hrun.
    rewrite (executeRealDNSLookup_not_found h target error tt) in Hrun
      by assumption.
    simpl in Hrun. rewrite Hrun, Hbus. reflexivity. }
  split; [apply field_insert|].
  split; [reflexivity|]. split; [reflexivity|].
  split.
  { rewrite saveMeasurement_run, Hwrite. unfold logs_jobId, converts. simpl.
    by rewrite field_insert, Hid. }
  split; [exact Hkeep|].
  unfold result_field. rewrite Hkeep. reflexivity.
Qed.

End DNSWorker.

(** ** Sanitizing the ping target *)

Section CleanTarget.
Import PingModule.

Lemma forallb_trimStart (p : ascii -> bool) (s : string) :
  string_forallb p s = true -> string_forallb p (trimStart s) = true.
Proof.
  induction s as [|c s IH]; simpl; [done|].
  intros [Hc Hs]%andb_prop. destruct (is_white_space c); [by apply IH|].
  simpl. by rewrite Hc, Hs.
Qed.

Lemma forallb_rev_app (p : ascii -> bool) (s1 s2 : string) :
  string_forallb p (String.rev_app s1 s2)
  = string_forallb p s1 && string_forallb p s2.
Proof.
  revert s2. induction s1 as [|c s1 IH]; intros s2; simpl; [done|].
  rewrite IH. simpl. destruct (p c), (string_forallb p s1); reflexivity.
Qed.

Lemma forallb_rev (p : ascii -> bool) (s : string) :
  string_forallb p (String.rev s) = string_forallb p s.
Proof. unfold String.rev. rewrite forallb_rev_app. simpl. apply andb_true_r. Qed.

Lemma forallb_trim (p : ascii -> bool) (s : string) :
  string_forallb p s = true -> string_forallb p (trim s) = true.
Proof.
  intros Hs. unfold trim, trimEnd. rewrite forallb_rev.
  apply forallb_trimStart. rewrite forallb_rev. by apply forallb_trimStart.
Qed.

Lemma forallb_filter (p : ascii -> bool) (s : string) :
  string_forallb p (string_filter p s) = true.
Proof.
  induction s as [|c s IH]; simpl; [done|].
  destruct (p c) eqn:Hc; simpl; [by rewrite Hc|done].
Qed.

Lemma forallb_filter_keeps (p q : ascii -> bool) (s : string) :
  string_forallb p s = true -> string_forallb p (string_filter q s) = true.
Proof.
  induction s as [|c s IH]; simpl; [done|].
  intros [Hc Hs]%andb_prop. destruct (q c); simpl; [rewrite Hc|]; by apply IH.
Qed.

(** The part of the sanitizer that holds for every input: no character of
    [[;&|`$<>]] is left. *)
Lemma cleanTarget_no_shell_meta (target : string) :
  string_forallb (fun c => negb (is_shell_meta c)) (cleanTarget target) = true.
Proof. unfold cleanTarget. apply forallb_trim, forallb_filter. Qed.

Lemma single_line_strip_prefix (p s rest : string) :
  single_line s = true -> strip_prefix p s = Some rest -> single_line rest = true.
Proof.
  revert s. induction p as [|a p IH]; intros s Hs; simpl.
  - by intros [= <-].
  - destruct s as [|b s]; [done|]. destruct (Ascii.eqb a b); [|done].
    unfold single_line in Hs. simpl in Hs. apply andb_prop in Hs as [_ Hs].
    by apply IH.
Qed.

Lemma single_line_remove_protocol (s : string) :
  single_line s = true -> single_line (remove_protocol s) = true.
Proof.
  intros Hs. unfold remove_protocol.
  repeat case_match; eauto using single_line_strip_prefix.
Qed.

Lemma remove_path_no_slash (s : string) :
  single_line s = true -> no_slash (remove_path s) = true.
Proof.
  unfold single_line, no_slash.
  induction s as [|c s IH]; simpl; [done|].
  intros [Hc Hs]%andb_prop. rewrite Hs, andb_true_r.
  destruct (Ascii.eqb c "/") eqn:Hslash; simpl; [done|].
  rewrite Hslash. simpl. by apply IH.
Qed.

(** On a target without line terminators the sanitizer leaves no [/] at
    all: neither a path nor a protocol prefix. *)
Lemma cleanTarget_single_line_no_slash (target : string) :
  single_line target = true -> no_slash (cleanTarget target) = true.
Proof.
  intros Hline. unfold cleanTarget, no_slash.
  apply forallb_trim, forallb_filter_keeps.
  by apply remove_path_no_slash, single_line_remove_protocol.
Qed.

(** C10.  With a line feed after the path the path is not removed: the
    regular expression [/\/.*$/] finds no match, since [.] stops at the line
    feed and [$] only matches at the end of the input, and [trim] then
    drops the line feed.  The sanitized target of
    ["example.com/etc/passwd\n"] keeps the path, that of
    ["https://https://example.com\n"] keeps a protocol prefix, and both are
    interpolated into the command line. *)
Theorem cleanTarget_keeps_path_before_line_feed :
  cleanTarget ("example.com/etc/passwd" +:+ LF) = "example.com/etc/passwd"
  /\ cleanTarget ("https://https://example.com" +:+ LF) = "https://example.com"
  /\ command linux_host (cleanTarget ("example.com/etc/passwd" +:+ LF))
     = "ping -c 4 -W 3 example.com/etc/passwd".
Proof. repeat split; reflexivity. Qed.

End CleanTarget.

(** ** Concrete runs *)

Section Runs.
Import Samples.

(** C1 at a full store: the append keeps 1000 records, the new one first,
    and drops the one record at the tail. *)
Lemma store_capped_newest_first_witness :
  (length (JSONStorage.records_of (JSONStorage.Stored full_store)) <= 1000)%nat
  /\ JSONStorage.read_fails io_ok = false
  /\ JSONStorage.write io_ok = JSONStorage.Written
  /\ Forall (fun f' => (length (JSONStorage.records_of f') <= 1000)%nat)
       (JSONStorage.history
          [(io_ok, VObj ping_result); (io_disk_full, VNull); (io_later, VObj ping_result)]
          (JSONStorage.Stored full_store))
  /\ snd (JSONStorage.saveMeasurement io_ok (VObj ping_result)
            (JSONStorage.Stored full_store))
     = JSONStorage.Stored
         (JSONStorage.measurement io_ok (VObj ping_result) :: take 999 full_store)
  /\ length (drop 999 full_store) = 1%nat.
Proof.
  assert (Hcap : (length (JSONStorage.records_of (JSONStorage.Stored full_store))
                  <= 1000)%nat).
  { unfold full_store. cbn [JSONStorage.records_of].
    rewrite length_replicate. lia. }
  destruct (store_capped_newest_first
              [(io_ok, VObj ping_result); (io_disk_full, VNull);
               (io_later, VObj ping_result)]
              (JSONStorage.Stored full_store) io_ok (VObj ping_result) full_store
              Hcap eq_refl eq_refl)
    as (Hhistory & Hsave & _ & _ & Hdropped).
  split; [exact Hcap|]. split; [reflexivity|]. split; [reflexivity|].
  split; [exact Hhistory|]. split; [exact Hsave|].
  rewrite Hdropped. unfold full_store. rewrite length_replicate. reflexivity.
Defined.

(** X19 on two appends of the same result. *)
Lemma append_creates_one_fresh_record_witness :
  converts (field "jobId" ping_result) = true
  /\ JSONStorage.read_fails io_ok = false
  /\ JSONStorage.write io_ok = JSONStorage.Written
  /\ JSONStorage.read_fails io_later = false
  /\ JSONStorage.write io_later = JSONStorage.Written
  /\ (JSONStorage.id_seed io_ok <> JSONStorage.id_seed io_later)
  /\ snd (JSONStorage.saveMeasurement io_later (VObj ping_result)
            (snd (JSONStorage.saveMeasurement io_ok (VObj ping_result)
                    (JSONStorage.Stored [dns_record]))))
     = JSONStorage.Stored
         [JSONStorage.measurement io_later (VObj ping_result);
          JSONStorage.measurement io_ok (VObj ping_result);
          dns_record]
  /\ field "_id" (JSONStorage.measurement io_ok (VObj ping_result))
     <> field "_id" (JSONStorage.measurement io_later (VObj ping_result))
  /\ JSONStorage.write io_disk_full <> JSONStorage.Written
  /\ fst (JSONStorage.saveMeasurement io_disk_full (VObj ping_result)
            (JSONStorage.Stored [dns_record])) = Normal false.
Proof.
  destruct (append_creates_one_fresh_record io_ok io_later ping_result
              (JSONStorage.Stored [dns_record]) [dns_record] eq_refl)
    as (_ & _ & _ & _ & _ & _ & Htwice).
  destruct (Htwice eq_refl eq_refl eq_refl eq_refl) as (Hstored & _ & Hfresh).
  destruct (append_creates_one_fresh_record io_disk_full io_later ping_result
              (JSONStorage.Stored [dns_record]) [dns_record] eq_refl)
    as (_ & Hfalse & _).
  assert (Hpair : JSONStorage.id_seed io_ok <> JSONStorage.id_seed io_later) by discriminate.
  assert (Hfull : JSONStorage.write io_disk_full <> JSONStorage.Written)
    by discriminate.
  split; [reflexivity|].
  split; [reflexivity|]. split; [reflexivity|].
  split; [reflexivity|]. split; [reflexivity|].
  split; [exact Hpair|]. split; [exact Hstored|].
  split; [exact (Hfresh Hpair)|]. split; [exact Hfull|].
  apply Hfalse. exact Hfull.
Defined.

(** X20 with limit 2. *)
Lemma queries_are_bounded_and_ordered_witness :
  0 <= 2
  /\ JSONStorage.getByType io_ok (VStr "dns") (Some 2)
       (JSONStorage.Stored [dns_record; ping_result; dns_record; dns_record])
     = (Normal [dns_record; dns_record],
        JSONStorage.Stored [dns_record; ping_result; dns_record; dns_record])
  /\ JSONStorage.getRecent io_ok (Some 2)
       (JSONStorage.Stored [dns_record; ping_result; dns_record; dns_record])
     = (Normal [dns_record; ping_result],
        JSONStorage.Stored [dns_record; ping_result; dns_record; dns_record]).
Proof.
  assert (Hlimit : 0 <= 2) by lia.
  destruct (queries_are_bounded_and_ordered io_ok
              (JSONStorage.Stored [dns_record; ping_result; dns_record; dns_record])
              (VStr "dns") 2 Hlimit)
    as (byType & recent & HbyType & Hrecent & -> & -> & _).
  split; [exact Hlimit|]. split; [exact HbyType | exact Hrecent].
Defined.


(** C3: a request for an unknown kind with an empty target is answered with
    success, published on the submit topic and recorded. *)
Lemma submit_unknown_kind_counterexample :
  let req_body : obj :=
    list_to_map [("type", VStr "traceroute"); ("target", VStr "")] in
  let job := ManagementAPI.new_job request "job_1700000000000_abc123xyz"
               (VStr "traceroute") (VStr "") in
  ManagementAPI.post_jobs request (VObj req_body) (api_idle bus_up)
  = (Normal {| ManagementAPI.status := 200;
               ManagementAPI.body :=
                 list_to_map [("success", VBool true);
                              ("jobId", VStr "job_1700000000000_abc123xyz")] |},
     {| ManagementAPI.natsConnection :=
          {| Nats.outages := [];
             Nats.published :=
               [{| Nats.topic := "mmn.jobs.submit"; Nats.data := VObj job |}] |};
        ManagementAPI.jobResults := [job];
        ManagementAPI.storage := JSONStorage.Stored [];
        ManagementAPI.wss := Some [listener] |}).
Proof. reflexivity. Qed.

Lemma submit_enqueues_any_kind_and_target_witness :
  Nats.accepts (ManagementAPI.natsConnection (api_idle bus_up)) = true
  /\ exists job : obj,
       ManagementAPI.post_jobs request
         (VObj (list_to_map [("type", VStr "traceroute"); ("target", VStr "")]))
         (api_idle bus_up)
       = (Normal (accepted_response (ManagementAPI.generateJobId request)),
          enqueued job (api_idle bus_up))
       /\ field "type" job = VStr "traceroute"
       /\ field "target" job = VStr "".
Proof.
  split; [reflexivity|].
  destruct (submit_enqueues_any_kind_and_target request
              (list_to_map [("type", VStr "traceroute"); ("target", VStr "")])
              (api_idle bus_up) eq_refl)
    as (job & Hrun & Htype & Htarget & _).
  exists job. split; [exact Hrun|]. split; [exact Htype | exact Htarget].
Defined.

(** C7 on a bus that is down and on one that is up. *)
Lemma submit_records_only_published_jobs_witness :
  Nats.accepts (ManagementAPI.natsConnection (api_idle bus_down)) = false
  /\ Nats.accepts (ManagementAPI.natsConnection (api_idle bus_up)) = true
  /\ fst (ManagementAPI.post_jobs request (VObj ping_job) (api_idle bus_down))
     = Normal (failed_response (VStr "CONNECTION_CLOSED"))
  /\ ManagementAPI.jobResults
       (snd (ManagementAPI.post_jobs request (VObj ping_job) (api_idle bus_down)))
     = []
  /\ fst (ManagementAPI.post_jobs request (VObj ping_job) (api_idle bus_up))
     = Normal (accepted_response "job_1700000000000_abc123xyz")
  /\ length (ManagementAPI.jobResults
               (snd (ManagementAPI.post_jobs request (VObj ping_job) (api_idle bus_up))))
     = 1%nat.
Proof.
  destruct (submit_records_only_published_jobs request ping_job (api_idle bus_down))
    as [Hdown _].
  destruct (submit_records_only_published_jobs request ping_job (api_idle bus_up))
    as [_ Hup].
  destruct (Hdown eq_refl) as (Hanswer & Htable & _).
  destruct (Hup eq_refl) as (Hid & Hrecorded & _).
  split; [reflexivity|]. split; [reflexivity|].
  split; [exact Hanswer|]. split; [exact Htable|].
  split; [exact Hid|]. rewrite Hrecorded. reflexivity.
Defined.

(** C5 on a result for a job the API never recorded, with a failing write. *)
Lemma correlator_stores_and_broadcasts_witness :
  ManagementAPI.readyState listener = ManagementAPI.OPEN
  /\ JSONStorage.write io_disk_full <> JSONStorage.Written
  /\ ManagementAPI.wss
       (snd (ManagementAPI.on_result io_disk_full (Json (VObj ping_result))
               (api_idle bus_up)))
     = Some [ManagementAPI.send
               (VObj (list_to_map [("type", VStr "job_result");
                                   ("data", VObj ping_result)]))
               listener]
  /\ JSONStorage.write io_ok = JSONStorage.Written
  /\ ManagementAPI.storage
       (snd (ManagementAPI.on_result io_ok (Json (VObj ping_result))
               (api_idle bus_up)))
     = JSONStorage.Stored [JSONStorage.measurement io_ok (VObj ping_result)].
Proof.
  destruct (correlator_stores_and_broadcasts io_disk_full ping_result (api_idle bus_up))
    as (_ & _ & _ & Hsent & _).
  destruct (correlator_stores_and_broadcasts io_ok ping_result (api_idle bus_up))
    as (_ & _ & Hstored & _).
  split; [reflexivity|]. split; [discriminate|].
  split; [exact Hsent|]. split; [reflexivity|].
  exact (Hstored eq_refl).
Defined.

(** X21: announced at time 0, swept at 10 s, 20 s and 30 s (healthy), then
    at 40 s (unhealthy), with another module announced in between. *)
Lemma announcement_and_sweep_witness :
  let no_numeral (s : string) := false in
  let events :=
    [AnchorService.Sweep 10000; AnchorService.Sweep 20000;
     AnchorService.Announce later (Json (VObj dns_announcement));
     AnchorService.Sweep 30000] in
  let registry :=
    snd (AnchorService.handleModuleAnnouncement no_numeral at_start
           (VObj ping_announcement) []) in
  well_formed ping_announcement = true
  /\ primitive (field "name" ping_announcement) = true
  /\ tidy [] = true
  /\ forallb orderly events = true
  /\ forallb (silent_for (field "name" ping_announcement)) events = true
  /\ forallb (within_window 0) events = true
  /\ AnchorService.healthy
       <$> AnchorService.map_get (field "name" ping_announcement)
             (AnchorService.run no_numeral events registry)
     = Some true
  /\ AnchorService.healthy
       <$> AnchorService.map_get (field "name" ping_announcement)
             (AnchorService.run no_numeral (events ++ [AnchorService.Sweep 40000])
                registry)
     = Some false.
Proof.
  intros no_numeral events registry.
  destruct (announcement_and_sweep no_numeral at_start ping_announcement [] events
              eq_refl eq_refl eq_refl eq_refl eq_refl)
    as (Hhandled & _ & _ & Hrun & Hflip & _).
  assert (Hregistry : registry
            = AnchorService.map_set (field "name" ping_announcement)
                (record at_start (VObj ping_announcement)) []).
  { unfold registry. by rewrite Hhandled. }
  do 6 (split; [reflexivity|]).
  rewrite Hregistry.
  split; [by rewrite Hrun|].
  exact (Hflip 40000 eq_refl).
Defined.

(** X22: a ping job on a host whose ping process is rejected, and a dns
    job delivered to the ping worker. *)
Lemma ping_worker_publishes_one_result_witness :
  field "type" ping_job = VStr "ping"
  /\ to_string (field "id" ping_job) = Some "job_1700000000000_abc123xyz"
  /\ converts (field "target" ping_job) = true
  /\ Nats.accepts bus_up = true
  /\ is_ping_job (Json (VObj dns_job)) = false
  /\ strategy_fails linux_host (field "target" ping_job) = true
  /\ (exists payload : obj,
        PingModule.on_job no_statistics linux_host (Json (VObj ping_job)) bus_up
        = (Normal tt,
           {| Nats.outages := [];
              Nats.published :=
                [{| Nats.topic := "mmn.jobs.result.job_1700000000000_abc123xyz";
                    Nats.data := VObj payload |}] |})
        /\ field "jobId" payload = VStr "job_1700000000000_abc123xyz"
        /\ result_field "success" payload = VBool false)
  /\ PingModule.on_job no_statistics linux_host (Json (VObj dns_job)) bus_up
     = (Normal tt, bus_up).
Proof.
  destruct (ping_worker_publishes_one_result no_statistics linux_host ping_job
              "job_1700000000000_abc123xyz" bus_up (Json (VObj dns_job))
              eq_refl eq_refl eq_refl eq_refl eq_refl)
    as ((payload & Hrun & _ & Hid & Hfailed) & Hother & _).
  split; [reflexivity|]. split; [reflexivity|]. split; [reflexivity|].
  split; [reflexivity|]. split; [reflexivity|]. split; [reflexivity|].
  split; [|exact Hother].
  exists payload. split; [exact Hrun|]. split; [exact Hid|].
  exact (Hfailed eq_refl).
Defined.

(** C9 on the target ["nonexistent.invalid"] and a resolver that knows no
    name. *)
Lemma dns_not_found_is_published_and_preserved_witness :
  field "type" dns_job = VStr "dns"
  /\ to_string (field "id" dns_job) = Some "job_1700000000000_abc123xyz"
  /\ field "target" dns_job = VStr "nonexistent.invalid"
  /\ DNSModule.isValidDomain (VStr "nonexistent.invalid") = true
  /\ DNSModule.resolve4 dns_host (DNSModule.cleanTarget "nonexistent.invalid")
     = Rejected not_found
  /\ field "code" not_found = VStr "ENOTFOUND"
  /\ rejected (DNSModule.resolve6 dns_host (DNSModule.cleanTarget "nonexistent.invalid"))
     = true
  /\ rejected (DNSModule.resolveAny dns_host (DNSModule.cleanTarget "nonexistent.invalid"))
     = true
  /\ Nats.accepts bus_up = true
  /\ JSONStorage.write io_ok = JSONStorage.Written
  /\ exists payload record : obj,
       DNSModule.on_job dns_host (Json (VObj dns_job)) bus_up
       = (Normal tt,
          {| Nats.outages := [];
             Nats.published :=
               [{| Nats.topic := "mmn.jobs.result.job_1700000000000_abc123xyz";
                   Nats.data := VObj payload |}] |})
       /\ result_field "success" payload = VBool false
       /\ result_field "errorCode" payload = VStr "DOMAIN_NOT_FOUND"
       /\ JSONStorage.saveMeasurement io_ok (VObj payload) (JSONStorage.Stored [])
          = (Normal true, JSONStorage.Stored [record])
       /\ result_field "errorCode" record = VStr "DOMAIN_NOT_FOUND".
Proof.
  destruct (dns_not_found_is_published_and_preserved dns_host dns_job
              "job_1700000000000_abc123xyz" "nonexistent.invalid" not_found bus_up
              io_ok (JSONStorage.Stored [])
              eq_refl eq_refl eq_refl eq_refl eq_refl eq_refl eq_refl eq_refl
              eq_refl eq_refl)
    as (payload & record & Hrun & _ & Hsuccess & Hcode & Hsave & _ & Hkept).
  repeat (split; [reflexivity|]).
  exists payload, record.
  split; [exact Hrun|]. split; [exact Hsuccess|]. split; [exact Hcode|].
  split; [exact Hsave | exact Hkept].
Defined.

End Runs.

(* ===================================================================== *)
(** * Further properties of the embedded code                              *)
(* ===================================================================== *)

(** ** The store: lookups after an append, and exports *)

Section StoreQueries.
Import JSONStorage.

Lemma loadAll_run (e : io) (f : file) : loadAll e f = (Normal (loaded e f), f).
Proof.
  unfold loadAll, readFile, try_catch, ret, loaded.
  destruct (read_fails e), f; reflexivity.
Qed.

Lemma getByJobId_run (e : io) (jobId : value) (f : file) :
  getByJobId e jobId f
  = (Normal (find_item (fun item => strict_eq (field "jobId" item) jobId)
               (loaded e f)), f).
Proof. unfold getByJobId, bind. rewrite loadAll_run. reflexivity. Qed.

Lemma measurement_keeps (e : io) (result : obj) (k : string) :
  k <> "_id" -> k <> "_savedAt" -> k <> "_persisted" ->
  field k (measurement e (VObj result)) = field k result.
Proof.
  intros H1 H2 H3. unfold measurement. by rewrite !field_insert_ne.
Qed.

(** X1.  Insert, then look up: after an append whose write succeeded, a
    query that can read the file finds the new record first, by its job id
    (even when older records carry the same job id), by recency and by its
    type, for every limit of at least 1 and for the default limits. *)
Theorem append_then_query
    (e q : io) (result : obj) (f : file) (limit : Z)
    (Hwrite : write e = Written)
    (Hq : read_fails q = false)
    (Hlimit : 1 <= limit)
    (Hid : primitive (field "jobId" result) = true)
    (Htype : primitive (field "type" result) = true) :
  let f' := snd (saveMeasurement e (VObj result) f) in
  let record := measurement e (VObj result) in
  fst (getByJobId q (field "jobId" result) f') = Normal (VObj record)
  /\ (exists older, fst (getRecent q (Some limit) f') = Normal (record :: older))
  /\ (exists older, fst (getRecent q None f') = Normal (record :: older))
  /\ (exists older,
        fst (getByType q (field "type" result) (Some limit) f')
        = Normal (record :: older))
  /\ (exists older,
        fst (getByType q (field "type" result) None f') = Normal (record :: older)).
Proof.
  intros f' record. subst f'. rewrite saveMeasurement_file, Hwrite.
  assert (Hload : forall A (k : list obj -> A),
            (data <- loadAll q ;; @ret file A (k data))
              (Stored (record :: take 999 (loaded e f)))
            = (Normal (k (record :: take 999 (loaded e f))),
               Stored (record :: take 999 (loaded e f)))).
  { intros A k. unfold bind. rewrite loadAll_run. unfold loaded at 1.
    by rewrite Hq. }
  assert (Htake : forall (n : Z) (l : list obj), 1 <= n ->
            exists older,
              @Normal (list obj) (slice (record :: l) 0 n) = Normal (record :: older)).
  { intros n l Hn. rewrite slice_take by lia.
    destruct (Z.to_nat n) as [|n'] eqn:Hn'; [lia|]. simpl. eauto. }
  split.
  { rewrite getByJobId_run. unfold loaded at 1. rewrite Hq. simpl.
    unfold find_item. simpl. subst record.
    rewrite measurement_keeps by done. unfold primitive in Hid. by rewrite Hid. }
  split.
  { unfold getRecent. rewrite Hload. simpl. by apply Htake. }
  split.
  { unfold getRecent. rewrite Hload. simpl. by apply Htake. }
  assert (Hmatch : strict_eq (field "type" record) (field "type" result) = true).
  { subst record. rewrite measurement_keeps by done. exact Htype. }
  split.
  { unfold getByType. rewrite Hload. simpl. rewrite Hmatch. by apply Htake. }
  unfold getByType. rewrite Hload. simpl. rewrite Hmatch. by apply Htake.
Qed.

(** X2.  A successful append that could read the file leaves the lookups
    of other job ids alone as long as the store was not yet full: the record
    found for another job id is the one found before (and none, if none
    was). *)
Theorem append_keeps_other_lookups
    (e q : io) (result : obj) (f : file) (other : value)
    (Hread : read_fails e = false)
    (Hwrite : write e = Written)
    (Hroom : (length (records_of f) < 1000)%nat)
    (Hother : strict_eq (field "jobId" result) other = false) :
  fst (getByJobId q other (snd (saveMeasurement e (VObj result) f)))
  = fst (getByJobId q other f).
Proof.
  rewrite saveMeasurement_file, !getByJobId_run, Hwrite. simpl.
  unfold loaded. rewrite Hread. destruct (read_fails q); [reflexivity|]. simpl.
  rewrite take_ge by lia. unfold find_item. simpl.
  rewrite measurement_keeps by done. by rewrite Hother.
Qed.

End StoreQueries.

Section Exports.
Import JSONStorage JSONStorageFiles.

Variable path_join : string -> string -> string.

Lemma loadAll_at_run (e : io) (d : gmap string file) :
  loadAll_at path_join e d
  = (Normal (loaded e (content d (resultsFile path_join))), d).
Proof.
  unfold loadAll_at, readFile_at, try_catch, ret, loaded.
  destruct (read_fails e); [reflexivity|].
  destruct (content d (resultsFile path_join)); reflexivity.
Qed.

(** What an export does, for a file name that is a string. *)
Lemma exportToFile_string (e : io) (name : string) (d : gmap string file) :
  let path := path_join storageDir name in
  let data := loaded e (content d (resultsFile path_join)) in
  exportToFile path_join e (VStr name) d =
    match write e with
    | Written => (Normal (VStr path), <[path := Stored data]> d)
    | Refused => (Normal VNull, d)
    | Torn => (Normal VNull, <[path := Unreadable]> d)
    end.
Proof.
  unfold exportToFile, try_catch. unfold bind at 1. rewrite loadAll_at_run.
  unfold bind, join_storageDir, writeFile_at, ret.
  destruct (write e); reflexivity.
Qed.

(** X3.  An export under a file name writes the records the store holds at
    that moment to [path.join('./data', name)] and returns that path; no
    other path changes, so the measurements file is left alone unless the
    export is given its very name.  Reading the exported file back yields
    exactly the records a load returns.  When the write fails the answer is
    [null], no other path changes and the export path holds no new
    snapshot; a file name that is no string gives [null] and changes
    nothing. *)
Theorem export_is_a_snapshot
    (e q : io) (name : string) (d : gmap string file) (bad : value) :
  let path := path_join storageDir name in
  let data := loaded e (content d (resultsFile path_join)) in
  let d' := snd (exportToFile path_join e (VStr name) d) in
  (write e = Written ->
     fst (exportToFile path_join e (VStr name) d) = Normal (VStr path)
     /\ content d' path = Stored data
     /\ (read_fails q = false ->
         fst (readFile_at q path d') = Normal data)
     /\ (read_fails e = false -> read_fails q = false ->
         path <> resultsFile path_join ->
         fst (loadAll_at path_join q d') = Normal data))
  /\ (write e <> Written ->
      fst (exportToFile path_join e (VStr name) d) = Normal VNull
      /\ (content d' path = content d path \/ content d' path = Unreadable))
  /\ (forall other, other <> path -> content d' other = content d other)
  /\ (match bad with VStr _ | VUndef => False | _ => True end ->
      exportToFile path_join e bad d = (Normal VNull, d)).
Proof.
  intros path data d'. subst d'. rewrite exportToFile_string. fold path data.
  split.
  { intros Hw. rewrite Hw. simpl.
    assert (Hat : content (<[path := Stored data]> d) path = Stored data).
    { unfold content. by rewrite lookup_insert_eq. }
    split; [done|]. split; [exact Hat|]. split.
    - intros Hq. unfold readFile_at. by rewrite Hq, Hat.
    - intros He Hq Hne. rewrite loadAll_at_run. simpl. f_equal.
      unfold loaded, content. rewrite Hq. subst data. unfold loaded, content.
      rewrite He. by rewrite lookup_insert_ne. }
  split.
  { intros Hw. destruct (write e); [done| |]; simpl.
    - split; [done|by left].
    - split; [done|]. right. unfold content. by rewrite lookup_insert_eq. }
  split.
  { intros other Hne. unfold content.
    destruct (write e); simpl; [|done|]; by rewrite lookup_insert_ne. }
  intros Hbad. unfold exportToFile, try_catch. unfold bind at 1.
  rewrite loadAll_at_run. unfold bind, join_storageDir, throw, ret.
  destruct bad; try done.
Qed.

End Exports.

(** ** The job table of the management API *)

Lemma slice_from_last {A : Type} (l : list A) (n : nat) :
  (0 < n)%nat -> slice_from l (- Z.of_nat n) = drop (length l - n) l.
Proof.
  intros Hn. unfold slice_from, slice, clamp_index.
  destruct (Z.ltb_spec (- Z.of_nat n) 0) as [_|?]; [|lia].
  destruct (Z.ltb_spec (Z.of_nat (length l)) 0) as [?|_]; [lia|].
  rewrite Z.min_id.
  replace (Z.to_nat (Z.max (Z.of_nat (length l) + - Z.of_nat n) 0))
    with (length l - n)%nat by lia.
  apply take_ge. rewrite length_drop. lia.
Qed.

Section JobTable.
Import ManagementAPI.

Lemma get_jobs_newest_first (st : api) :
  get_jobs st = take 50 (reverse (jobResults st)).
Proof.
  unfold get_jobs. rewrite (slice_from_last _ 50) by lia.
  by rewrite take_reverse.
Qed.

(** X4.  [GET /api/jobs] lists the job table newest first, cut to the 50
    most recent entries; a job just accepted by [POST /api/jobs] is its
    first element.  The greeting of a new WebSocket client carries the 20
    most recent entries, the same jobs as the first 20 of that listing but
    oldest first. *)
Theorem job_listing_is_newest_first
    (e : request_env) (req_body : obj) (st : api)
    (Hbus : Nats.accepts (natsConnection st) = true) :
  let st' := snd (post_jobs e (VObj req_body) st) in
  let job := new_job e (generateJobId e) (field "type" req_body)
                     (field "target" req_body) in
  get_jobs st = take 50 (reverse (jobResults st))
  /\ (length (get_jobs st) <= 50)%nat
  /\ get_jobs st' = job :: take 49 (get_jobs st)
  /\ slice_from (jobResults st) (-20) = reverse (take 20 (get_jobs st))
  /\ (forall clients,
        wss st = Some clients ->
        wss (on_connection st)
        = Some (clients ++ [{| readyState := OPEN;
                               inbox := [initial_results st] |}])).
Proof.
  intros st' job. subst st'. rewrite post_jobs_object, Hbus. simpl.
  rewrite !get_jobs_newest_first. simpl.
  split; [done|]. split; [rewrite length_take; lia|].
  split.
  { rewrite reverse_snoc. simpl. by rewrite take_take. }
  split.
  { rewrite (slice_from_last _ 20) by lia. rewrite take_take. simpl.
    by rewrite take_reverse, reverse_involutive. }
  intros clients Hwss. unfold on_connection. rewrite Hwss.
  destruct st; simpl in *. reflexivity.
Qed.

(** What a submit does, for any request body. *)
Lemma post_jobs_cases (e : request_env) (req_body : value) (st : api) :
  (exists job,
     post_jobs e req_body st
     = (Normal (accepted_response (generateJobId e)), enqueued job st))
  \/ (exists reason,
        post_jobs e req_body st = (Normal (failed_response reason), st)
        \/ post_jobs e req_body st = (Normal (failed_response reason), refused st)).
Proof.
  destruct (prop req_body "type") as [type|] eqn:Htype.
  - assert (Htarget : exists target, prop req_body "target" = Some target).
    { destruct req_body; try discriminate; simpl; eauto. }
    destruct Htarget as [target Htarget].
    unfold post_jobs, try_catch, bind, read, zoom, modify, ret.
    rewrite Htype, Htarget. simpl. rewrite publish_cases.
    destruct (Nats.accepts (natsConnection st)).
    + left. eexists. reflexivity.
    + right. eexists. right. reflexivity.
  - right. unfold post_jobs, try_catch, bind, read, throw, ret.
    rewrite Htype. simpl. eexists. left. reflexivity.
Qed.

(** X5.  Whatever the request bodies and whatever the bus does, each
    [POST /api/jobs] is answered with status 200 or 500 and never throws,
    and over any sequence of requests the number of 200 answers is exactly
    the number of jobs added to the job table and of messages published:
    a success answer means the job is recorded and on the bus, an error
    answer means neither.  Earlier entries of the table stay in place, and
    the measurements file and the WebSocket clients are not touched. *)
Theorem submits_answers_and_table_agree
    (reqs : list (request_env * value)) (st : api) :
  let answers := fst (post_all reqs st) in
  let st' := snd (post_all reqs st) in
  Forall is_answer answers
  /\ length answers = length reqs
  /\ length (jobResults st') = (length (jobResults st) + accepted_answers answers)%nat
  /\ length (Nats.published (natsConnection st'))
     = (length (Nats.published (natsConnection st)) + accepted_answers answers)%nat
  /\ jobResults st `prefix_of` jobResults st'
  /\ Nats.published (natsConnection st)
       `prefix_of` Nats.published (natsConnection st')
  /\ storage st' = storage st
  /\ wss st' = wss st.
Proof.
  revert st. induction reqs as [|[e req_body] reqs IH]; intros st; simpl.
  - repeat split; try done; unfold accepted_answers; simpl; lia.
  - destruct (post_jobs e req_body st) as [answer st1] eqn:Hpost.
    specialize (IH st1).
    destruct (post_all reqs st1) as [answers st2]. simpl in *.
    destruct IH as (Hall & Hlen & Hjobs & Hpub & Hpre & Hpubpre & Hsto & Hwss).
    assert (Hstep :
      is_answer answer
      /\ length (jobResults st1)
         = (length (jobResults st) + accepted_answers [answer])%nat
      /\ length (Nats.published (natsConnection st1))
         = (length (Nats.published (natsConnection st))
            + accepted_answers [answer])%nat
      /\ jobResults st `prefix_of` jobResults st1
      /\ Nats.published (natsConnection st)
           `prefix_of` Nats.published (natsConnection st1)
      /\ storage st1 = storage st /\ wss st1 = wss st).
    { destruct (post_jobs_cases e req_body st) as [[job Hrun]|[reason [Hrun|Hrun]]];
        rewrite Hrun in Hpost; injection Hpost as <- <-;
        unfold accepted_answers; simpl.
      - rewrite !length_app. simpl.
        repeat split; auto; try lia; by apply prefix_app_r.
      - repeat split; auto; lia.
      - repeat split; auto; lia. }
    destruct Hstep as (Ha & Hj1 & Hp1 & Hpre1 & Hpubpre1 & Hsto1 & Hwss1).
    assert (Hcount : accepted_answers (answer :: answers)
                     = (accepted_answers [answer] + accepted_answers answers)%nat).
    { unfold accepted_answers. simpl.
      destruct answer as [r|]; [destruct (status r =? 200)|]; simpl; lia. }
    split; [by constructor|]. split; [lia|].
    split; [lia|]. split; [lia|].
    split; [by etrans|]. split; [by etrans|].
    split; congruence.
Qed.

End JobTable.

(** ** The result listener *)

Section Listener.
Import ManagementAPI.

Lemma saveMeasurement_completes (e : JSONStorage.io) (v : value) (f : JSONStorage.file) :
  exists b : bool,
    JSONStorage.saveMeasurement e v f
    = (Normal b, JSONStorage.after_append (e, v) f).
Proof.
  rewrite saveMeasurement_run, after_append_cases.
  destruct (JSONStorage.write e); eexists; try reflexivity.
  by rewrite slice_take by lia.
Qed.

Lemma findIndex_completes {St : Type} (v jobId : value) (jobs : list obj)
    (i : nat) (s : St) :
  prop v "jobId" = Some jobId ->
  exists r : option nat,
    findIndex (fun j => jobId <- read v "jobId" ;;
                        ret (strict_eq (field "id" j) jobId)) jobs i s
    = (Normal r, s).
Proof.
  intros Hid. revert i. induction jobs as [|job rest IH]; intros i; simpl.
  - by exists None.
  - unfold bind at 1. unfold read at 1. rewrite Hid. unfold ret at 1.
    unfold bind at 1. unfold ret at 1.
    destruct (strict_eq (field "id" job) jobId); [by exists (Some i)|apply IH].
Qed.

Lemma send_extends (message : value) (c : client) :
  readyState (send message c) = readyState c
  /\ inbox c `prefix_of` inbox (send message c).
Proof.
  unfold send. destruct (readyState c) eqn:Hc; simpl; rewrite ?Hc;
    split; try done. by apply prefix_app_r.
Qed.

Lemma clients_extend_refl (w : option (list client)) : clients_extend w w.
Proof.
  destruct w as [l|]; simpl; [|done]. induction l; by constructor.
Qed.

Lemma clients_extend_send (message : value) (w : option (list client)) :
  clients_extend w (List.map (send message) <$> w).
Proof.
  destruct w as [l|]; simpl; [|done].
  induction l; constructor; auto using send_extends.
Qed.

Lemma clients_extend_trans (w1 w2 w3 : option (list client)) :
  clients_extend w1 w2 -> clients_extend w2 w3 -> clients_extend w1 w3.
Proof.
  destruct w1 as [l1|], w2 as [l2|], w3 as [l3|]; simpl; try done.
  intros H12. revert l3. induction H12 as [|c1 c2 l1 l2 [Hs Hp] _ IH];
    intros l3 H23; inversion H23 as [|? c3 ? l3' [Hs' Hp'] Hrest]; subst;
    constructor; auto.
  split; [congruence|by etrans].
Qed.

(** One message of any kind: the handler completes, and the state is either
    untouched or has the same connection, a job table of the same length,
    the file an append leaves and clients that were sent one more message. *)
Lemma on_result_step (e : JSONStorage.io) (msg : wire) (st : api) :
  exists st' : api,
    on_result e msg st = (Normal tt, st')
    /\ natsConnection st' = natsConnection st
    /\ length (jobResults st') = length (jobResults st)
    /\ (storage st' = storage st
        \/ exists v, storage st' = JSONStorage.after_append (e, v) (storage st))
    /\ clients_extend (wss st) (wss st').
Proof.
  assert (Hsame : exists st' : api,
            (Normal tt, st) = (Normal tt, st')
            /\ natsConnection st' = natsConnection st
            /\ length (jobResults st') = length (jobResults st)
            /\ (storage st' = storage st
                \/ exists v, storage st'
                             = JSONStorage.after_append (e, v) (storage st))
            /\ clients_extend (wss st) (wss st')).
  { exists st. repeat split; auto using clients_extend_refl. }
  destruct msg as [|v]; [exact Hsame|].
  unfold on_result, try_catch. unfold bind at 1. unfold JSON_parse, ret at 1.
  unfold bind at 1. unfold get_state at 1. unfold bind at 1.
  destruct (prop v "jobId") as [jobId|] eqn:Hid.
  - destruct (findIndex_completes v jobId (jobResults st) 0 st Hid) as (r & ->).
    set (jobs' := match r with
                  | Some i => alter (fun job => assign job (own_properties v)) i
                                (jobResults st)
                  | None => jobResults st
                  end).
    destruct (saveMeasurement_completes e v (storage st)) as (b & Hsave).
    exists {| natsConnection := natsConnection st; jobResults := jobs';
              storage := JSONStorage.after_append (e, v) (storage st);
              wss := List.map
                       (send (VObj (list_to_map [("type", VStr "job_result");
                                                 ("data", v)]))) <$> wss st |}.
    split.
    { unfold bind, modify, zoom, broadcastToWebSocket, read, ToString, ret, throw.
      rewrite Hid.
      subst jobs'. destruct r as [i|]; simpl; rewrite Hsave;
        destruct st as [c jobs f [clients|]], (to_string jobId); reflexivity. }
    simpl. split; [done|]. split.
    { subst jobs'. destruct r; [apply length_alter|done]. }
    split; [right; by exists v|apply clients_extend_send].
  - destruct (jobResults st) as [|job rest] eqn:Hjobs.
    + simpl. unfold ret at 1.
      destruct (saveMeasurement_completes e v (storage st)) as (b & Hsave).
      exists {| natsConnection := natsConnection st; jobResults := [];
                storage := JSONStorage.after_append (e, v) (storage st);
                wss := List.map
                         (send (VObj (list_to_map [("type", VStr "job_result");
                                                   ("data", v)]))) <$> wss st |}.
      split.
      { unfold bind, modify, zoom, broadcastToWebSocket, read, ret, throw.
        rewrite Hid. simpl. rewrite Hsave.
        destruct st as [c jobs f [clients|]]; simpl in *; subst; reflexivity. }
      simpl. split; [done|]. split; [done|].
      split; [right; by exists v|apply clients_extend_send].
    + simpl. unfold bind at 1. unfold read at 1. rewrite Hid.
      unfold throw at 1. exact Hsame.
Qed.

(** X6.  The result listener never stops on a message and never lets one
    damage the state: over any sequence of messages (malformed JSON and
    values that are no objects included) and any storage outcomes, the bus
    connection is untouched, the job table keeps its length, a store within
    the cap stays within it, and every WebSocket client stays in its state
    and keeps the messages it was sent, in order, possibly followed by new
    ones.  A message that is not JSON changes nothing at all. *)
Theorem result_listener_preserves_state
    (msgs : list (JSONStorage.io * wire)) (st : api)
    (Hcap : (length (JSONStorage.records_of (storage st)) <= 1000)%nat) :
  let st' := startResultListener msgs st in
  natsConnection st' = natsConnection st
  /\ length (jobResults st') = length (jobResults st)
  /\ (length (JSONStorage.records_of (storage st')) <= 1000)%nat
  /\ clients_extend (wss st) (wss st')
  /\ (forall e msg st0, fst (on_result e msg st0) = Normal tt)
  /\ (forall e st0, on_result e Malformed st0 = (Normal tt, st0)).
Proof.
  simpl. split; [|split; [|split; [|split; [|split]]]].
  5: { intros e msg st0. by destruct (on_result_step e msg st0) as (? & -> & _). }
  5: { reflexivity. }
  all: revert st Hcap; induction msgs as [|[e msg] msgs IH]; intros st Hcap; simpl;
    [done || apply clients_extend_refl|];
    destruct (on_result_step e msg st) as (st1 & Hrun & Hnats & Hjobs & Hsto & Hws);
    rewrite Hrun; simpl;
    assert (Hcap1 : (length (JSONStorage.records_of (storage st1)) <= 1000)%nat)
      by (destruct Hsto as [-> | [v ->]];
          [done | by apply after_append_bounded]);
    specialize (IH st1 Hcap1).
  - congruence.
  - congruence.
  - exact IH.
  - by eapply clients_extend_trans.
Qed.

End Listener.

(** ** The payloads of the ping worker *)

Section PingPayloads.
Import PingModule.

Variable statistics : string -> string -> option (Z * value).

Lemma consistent_createPingResult (h : host) (target : string) (ok : bool)
    (time : value) (loss : Z) (text : string) (received : Z) :
  ok = (loss <? 100) ->
  (ok = false -> time = VNull) ->
  (0 <= loss <= 100 -> 0 <= received <= 4) ->
  ping_payload_consistent (createPingResult h target ok time loss text 4 received).
Proof.
  intros Hok Htime Hreceived.
  split; [reflexivity|]. split; [reflexivity|]. split; [reflexivity|].
  exists ok, loss, 4, received. repeat split; auto; apply Hreceived; lia.
Qed.

Lemma consistent_parsed (h : host) (target stdout stderr : string)
    (parsedResult : parsed) :
  fst (parsePingOutput statistics stdout stderr (platform h) tt) = Normal parsedResult ->
  ping_payload_consistent
    (createPingResult h target (success parsedResult) (rtt parsedResult)
       (packetLoss parsedResult) (message parsedResult)
       (packetsTransmitted parsedResult) (packetsReceived parsedResult)).
Proof.
  unfold parsePingOutput, bind, ret, ToString, throw.
  repeat case_match; simpl; intros; simplify_eq; simpl;
    apply consistent_createPingResult; simpl; try done; try lia.
  all: intros [Hlo Hhi];
    match goal with
    | |- context [(4 * ?z + 50) / 100] =>
        assert ((4 * z + 50) / 100 < 5) by (apply Z.div_lt_upper_bound; lia);
        assert (0 <= (4 * z + 50) / 100) by (apply Z.div_pos; lia); lia
    end.
Qed.

Lemma consistent_ping_failed (h : host) (target : string) (error pingResult : obj) :
  fst (ping_failed h target error tt) = Normal pingResult ->
  ping_payload_consistent pingResult.
Proof.
  unfold ping_failed, bind, ret, toString_method, ToString, read, throw.
  repeat (case_match; simpl in *; simplify_eq);
    intros; simplify_eq; apply consistent_createPingResult; try done; lia.
Qed.

Lemma consistent_error_result (h : host) (id target : value)
    (target_text text : string) :
  ping_payload_consistent (error_result h id target target_text text).
Proof.
  split; [reflexivity|]. split; [reflexivity|]. split; [reflexivity|].
  exists false, 100, 0, 0. repeat split; auto; lia.
Qed.

Lemma consistent_insert_jobId (id : value) (payload : obj) :
  ping_payload_consistent payload ->
  ping_payload_consistent (<["jobId" := id]> payload).
Proof.
  intros (Hid & Htype & Hstatus & Hresult).
  split; [by rewrite lookup_insert_ne|].
  rewrite !field_insert_ne by done. rewrite !result_field_jobId. done.
Qed.

Lemma consistent_strategy (h : host) (target : value) (pingResult : obj) :
  strategy statistics h target = Normal pingResult ->
  ping_payload_consistent pingResult.
Proof.
  unfold strategy, executeRealPing, call_cleanTarget.
  destruct target; try discriminate.
  rewrite run_ret. unfold try_catch, await.
  destruct (execPromise h (command h (cleanTarget s))) as [[stdout stderr]|error].
  - rewrite run_ret. unfold bind at 1. simpl fst. simpl snd.
    destruct (parsePingOutput statistics stdout stderr (platform h) tt)
      as [[parsedResult|thrown] []] eqn:Hparsed.
    + intros [= <-]. apply (consistent_parsed h _ stdout stderr). by rewrite Hparsed.
    + apply consistent_ping_failed.
  - apply consistent_ping_failed.
Qed.

(** X9.  Whatever message the ping worker is delivered and whatever the bus
    does, it completes normally and what it publishes, if anything, is one
    self-consistent result: it carries no [id] of its own, has [type]
    ['ping'] and [status] ['completed'], reports success exactly when the
    packet loss is below 100, has a null round-trip time when it failed,
    counts 4 packets sent (0 only in a failure built from an exception), and
    for a packet loss between 0 and 100 a number of received packets
    between 0 and the number sent. *)
Theorem ping_worker_payloads_are_consistent
    (h : host) (msg : wire) (c : Nats.connection) :
  exists c' : Nats.connection,
    on_job statistics h msg c = (Normal tt, c')
    /\ (Nats.published c' = Nats.published c
        \/ exists (subject : string) (payload : obj),
             Nats.published c'
             = Nats.published c
                 ++ [{| Nats.topic := subject; Nats.data := VObj payload |}]
             /\ ping_payload_consistent payload).
Proof.
  destruct (is_ping_job msg) eqn:Hmsg.
  - apply is_ping_job_object in Hmsg as (job & -> & Hkind).
    rewrite (on_job_ping statistics h job c Hkind).
    destruct (to_string (field "target" job)) as [target_text|] eqn:Htarget;
      [|exists c; by split; [|left]].
    pose proof (processPingJob_object statistics h job target_text c Htarget) as Hrun.
    simpl in Hrun.
    destruct (to_string (field "id" job)) as [id_text|];
      [|rewrite Hrun; exists c; by split; [|left]].
    destruct (strategy statistics h (field "target" job))
      as [pingResult|error] eqn:Hstrategy;
      [|destruct Hrun as (text & _ & Hrun)];
      rewrite Hrun, ?publish_cases;
      repeat match goal with
             | |- context [if Nats.accepts ?x then _ else _] =>
                 destruct (Nats.accepts x); rewrite ?publish_cases
             end;
      eexists; (split; [reflexivity|]); simpl; auto;
      right; eexists _, _; (split; [reflexivity|]);
      auto using consistent_error_result.
    apply consistent_insert_jobId.
    by apply (consistent_strategy h (field "target" job)).
  - exists c. split; [by apply on_job_other|by left].
Qed.

(** A ping job on a bus that accepts the publish: the payload. *)
Lemma on_job_ping_consistent (h : host) (job : obj) (id_text target_text : string)
    (c : Nats.connection) :
  field "type" job = VStr "ping" ->
  to_string (field "id" job) = Some id_text ->
  to_string (field "target" job) = Some target_text ->
  Nats.accepts c = true ->
  exists payload : obj,
    on_job statistics h (Json (VObj job)) c
    = (Normal tt, Nats.accepted (reply_topic id_text) (VObj payload) c)
    /\ field "jobId" payload = field "id" job
    /\ ping_payload_consistent payload.
Proof.
  intros Hkind Hid Htarget Hbus.
  rewrite (on_job_ping statistics h job c Hkind), Htarget.
  pose proof (processPingJob_object statistics h job target_text c Htarget) as Hrun.
  simpl in Hrun. rewrite Hid in Hrun.
  destruct (strategy statistics h (field "target" job))
    as [pingResult|error] eqn:Hstrategy.
  - rewrite Hrun, Hbus. eexists. split; [reflexivity|]. split; [apply field_insert|].
    apply consistent_insert_jobId.
    by apply (consistent_strategy h (field "target" job)).
  - destruct Hrun as (text & _ & ->). rewrite publish_cases, Hbus.
    eexists. split; [reflexivity|].
    split; [apply jobId_error_result|apply consistent_error_result].
Qed.

End PingPayloads.

(** ** From a submit to the completed job *)

Section Pipeline.
Import ManagementAPI.

Variable statistics : string -> string -> option (Z * value).

Lemma field_assign (k : string) (job result : obj) :
  field k (assign job result)
  = match result !! k with Some v => v | None => field k job end.
Proof.
  unfold field, assign. destruct (result !! k) as [v|] eqn:Hk.
  - by rewrite (lookup_union_Some_l _ _ _ _ Hk).
  - by rewrite lookup_union_r.
Qed.

Lemma field_jobId_union (r1 r2 : obj) :
  field "jobId" r1 = field "jobId" r2 ->
  field "jobId" (r2 ∪ r1) = field "jobId" r2.
Proof.
  intros Hsame. change (r2 ∪ r1) with (assign r1 r2). rewrite field_assign.
  unfold field in *. by destruct (r2 !! "jobId").
Qed.

Lemma merge_first_twice (r1 r2 : obj) (jobs : list obj) :
  field "jobId" r1 = field "jobId" r2 ->
  r1 !! "id" = None ->
  merge_first r2 (merge_first r1 jobs) = merge_first (r2 ∪ r1) jobs.
Proof.
  intros Hsame Hnoid.
  induction jobs as [|job rest IH]; simpl; [done|].
  rewrite (field_jobId_union r1 r2 Hsame), <- Hsame.
  destruct (strict_eq (field "id" job) (field "jobId" r1)) eqn:Hjob; simpl.
  - rewrite field_assign, Hnoid, <- Hsame, Hjob.
    unfold assign. by rewrite (assoc_L (∪)).
  - rewrite <- Hsame, Hjob. f_equal. exact IH.
Qed.

(** X7.  Two results for the same job accumulate in the job table: after
    the listener has handled a first result (one that carries no [id] of
    its own, as every worker payload) and then a second one with the same
    [jobId], the table is what one result holding the properties of both
    would have left, the later result winning on each property the two
    share; this holds whatever the storage does on either message. *)
Theorem results_for_one_job_accumulate
    (e1 e2 : JSONStorage.io) (r1 r2 : obj) (st : api)
    (Hsame : field "jobId" r1 = field "jobId" r2)
    (Hnoid : r1 !! "id" = None) :
  let first := snd (on_result e1 (Json (VObj r1)) st) in
  let second := snd (on_result e2 (Json (VObj r2)) first) in
  jobResults second = merge_first (r2 ∪ r1) (jobResults st)
  /\ jobResults second
     = jobResults (snd (on_result e2 (Json (VObj (r2 ∪ r1))) st))
  /\ (forall (job : obj) (k : string),
        field k (assign (assign job r1) r2)
        = match r2 !! k with
          | Some v => v
          | None => match r1 !! k with Some v => v | None => field k job end
          end).
Proof.
  simpl. rewrite !on_result_object. simpl.
  split; [by apply merge_first_twice|].
  split; [by apply merge_first_twice|].
  intros job k. by rewrite !field_assign.
Qed.

Lemma strict_eq_string (s : string) : strict_eq (VStr s) (VStr s) = true.
Proof. apply String.eqb_refl. Qed.

Lemma merge_first_last (result job : obj) (jobs : list obj) :
  (forall j, j ∈ jobs -> strict_eq (field "id" j) (field "jobId" result) = false) ->
  strict_eq (field "id" job) (field "jobId" result) = true ->
  merge_first result (jobs ++ [job]) = jobs ++ [assign job result].
Proof.
  intros Hnone Hjob. induction jobs as [|j rest IH]; simpl.
  - by rewrite Hjob.
  - rewrite Hnone by left. f_equal. apply IH. intros j' Hj'. apply Hnone. by right.
Qed.

(** X8.  A ping job from the submit to the job table.  When the bus accepts
    the submit and the reply, a [POST /api/jobs] for a ping of a string
    target publishes the job, the ping worker answers it on the reply topic
    of the generated id with a consistent payload carrying that id, and the
    listener, given that payload (or any consistent payload with that
    [jobId]), turns the entry of the job into the job merged with the
    result: same [id], [status] ['completed'], the [result] of the payload.
    The entry stays the last of the table and the first of [GET /api/jobs],
    and when the file is written the payload is the newest stored record.
    The table must hold no older job with the generated id. *)
Theorem submitted_ping_job_is_completed
    (q : request_env) (h : PingModule.host) (e : JSONStorage.io)
    (target : string) (st : api) (c : Nats.connection)
    (Hbus : Nats.accepts (natsConnection st) = true)
    (Hworker : Nats.accepts c = true)
    (Hfresh : forall job, job ∈ jobResults st ->
                strict_eq (field "id" job) (VStr (generateJobId q)) = false) :
  let req_body :=
    VObj (list_to_map [("type", VStr "ping"); ("target", VStr target)]) in
  let job := new_job q (generateJobId q) (VStr "ping") (VStr target) in
  let submitted := snd (post_jobs q req_body st) in
  exists payload : obj,
    Nats.published (natsConnection submitted)
    = Nats.published (natsConnection st)
        ++ [{| Nats.topic := "mmn.jobs.submit"; Nats.data := VObj job |}]
    /\ PingModule.on_job statistics h (Json (VObj job)) c
       = (Normal tt,
          Nats.accepted ("mmn.jobs.result." +:+ generateJobId q) (VObj payload) c)
    /\ ping_payload_consistent payload
    /\ field "jobId" payload = VStr (generateJobId q)
    /\ forall delivered : obj,
         ping_payload_consistent delivered ->
         field "jobId" delivered = VStr (generateJobId q) ->
         let final := snd (on_result e (Json (VObj delivered)) submitted) in
         jobResults final = jobResults st ++ [assign job delivered]
         /\ field "id" (assign job delivered) = VStr (generateJobId q)
         /\ field "status" (assign job delivered) = VStr "completed"
         /\ field "result" (assign job delivered) = field "result" delivered
         /\ head (get_jobs final) = Some (assign job delivered)
         /\ (JSONStorage.write e = JSONStorage.Written ->
             head (JSONStorage.records_of (storage final))
             = Some (JSONStorage.measurement e (VObj delivered))).
Proof.
  intros req_body job submitted. subst submitted req_body.
  rewrite post_jobs_object, Hbus. simpl.
  change (field "type" _) with (VStr "ping").
  change (field "target" _) with (VStr target). fold job.
  assert (Hkind : field "type" job = VStr "ping") by reflexivity.
  destruct (on_job_ping_consistent statistics h job (generateJobId q) target c
              Hkind eq_refl eq_refl Hworker)
    as (payload & Hrun & Hid & Hok).
  exists payload. split; [done|]. split; [exact Hrun|]. split; [exact Hok|].
  split; [by rewrite Hid|].
  intros delivered (Hnoid & _ & Hstatus & ok & loss & sent & received & Hres & _) Hjob.
  rewrite on_result_object. simpl.
  assert (Hmerge : merge_first delivered (jobResults st ++ [job])
                   = jobResults st ++ [assign job delivered]).
  { apply merge_first_last; rewrite Hjob; [exact Hfresh|apply strict_eq_string]. }
  rewrite Hmerge.
  split; [done|].
  split; [by rewrite field_assign, Hnoid|].
  split.
  { rewrite field_assign. unfold field in Hstatus.
    by destruct (delivered !! "status"). }
  split.
  { rewrite field_assign. unfold result_field in Hres. unfold field in *.
    by destruct (delivered !! "result"). }
  split.
  { rewrite get_jobs_newest_first. simpl. by rewrite reverse_snoc. }
  intros Hw. by rewrite saveMeasurement_file, Hw.
Qed.

End Pipeline.

(** ** The sanitizer on ordinary targets *)

Section Sanitizer.
Import PingModule.

Lemma app_cons (a : ascii) (s1 s2 : string) :
  String a s1 +:+ s2 = String a (s1 +:+ s2).
Proof. reflexivity. Qed.

Lemma app_assoc_string (s1 s2 s3 : string) :
  (s1 +:+ s2) +:+ s3 = s1 +:+ (s2 +:+ s3).
Proof.
  induction s1 as [|a s1 IH]; [reflexivity|]. rewrite !app_cons. by rewrite IH.
Qed.

Lemma app_empty_r (s : string) : s +:+ "" = s.
Proof. induction s as [|a s IH]; [reflexivity|]. rewrite app_cons. by rewrite IH. Qed.

Lemma rev_app_app (s1 s2 : string) :
  String.rev_app s1 s2 = String.rev s1 +:+ s2.
Proof.
  unfold String.rev. revert s2. induction s1 as [|a s1 IH]; intros s2; simpl;
    [reflexivity|].
  rewrite (IH (String a s2)), (IH (String a "")), app_assoc_string.
  reflexivity.
Qed.

Lemma rev_app_snoc (s : string) (c : ascii) (acc : string) :
  String.rev_app (s +:+ String c "") acc = String c (String.rev_app s acc).
Proof.
  revert acc. induction s as [|a s IH]; intros acc; [reflexivity|].
  rewrite app_cons. simpl. apply IH.
Qed.

Lemma rev_snoc (s : string) (c : ascii) :
  String.rev (s +:+ String c "") = String c (String.rev s).
Proof. apply rev_app_snoc. Qed.

Lemma rev_rev (s : string) : String.rev (String.rev s) = s.
Proof.
  induction s as [|a s IH]; [reflexivity|].
  change (String.rev (String a s)) with (String.rev_app s (String a "")).
  by rewrite rev_app_app, rev_snoc, IH.
Qed.

Lemma trimStart_all_white (s : string) :
  string_forallb is_white_space s = true -> trimStart s = "".
Proof.
  induction s as [|a s IH]; simpl; [done|].
  intros [-> Hs]%andb_prop. by apply IH.
Qed.

Lemma trimStart_snoc (s : string) (c : ascii) :
  is_white_space c = false ->
  trimStart (s +:+ String c "") = trimStart s +:+ String c "".
Proof.
  intros Hc. induction s as [|a s IH].
  - simpl. change ("" +:+ String c "") with (String c ""). simpl. by rewrite Hc.
  - rewrite app_cons. simpl. destruct (is_white_space a); [exact IH|].
    by rewrite app_cons.
Qed.

Lemma trimStart_idem (s : string) : trimStart (trimStart s) = trimStart s.
Proof.
  induction s as [|a s IH]; simpl; [done|].
  destruct (is_white_space a) eqn:Ha; [exact IH|]. simpl. by rewrite Ha.
Qed.

Lemma trimEnd_idem (s : string) : trimEnd (trimEnd s) = trimEnd s.
Proof. unfold trimEnd. by rewrite rev_rev, trimStart_idem. Qed.

Lemma trimEnd_cons (c : ascii) (s : string) :
  is_white_space c = false -> trimEnd (String c s) = String c (trimEnd s).
Proof.
  intros Hc. unfold trimEnd.
  change (String.rev (String c s)) with (String.rev_app s (String c "")).
  by rewrite rev_app_app, trimStart_snoc, rev_snoc.
Qed.

Lemma trimStart_cases (s : string) :
  trimStart s = ""
  \/ exists c rest, trimStart s = String c rest /\ is_white_space c = false.
Proof.
  induction s as [|a s IH]; simpl; [by left|].
  destruct (is_white_space a) eqn:Ha; [exact IH|]. right. by exists a, s.
Qed.

Lemma trim_idem (s : string) : trim (trim s) = trim s.
Proof.
  unfold trim. destruct (trimStart_cases s) as [-> | (c & rest & -> & Hc)];
    [reflexivity|].
  rewrite (trimEnd_cons c rest Hc). simpl. rewrite Hc.
  rewrite <- (trimEnd_cons c rest Hc). apply trimEnd_idem.
Qed.

Lemma strip_prefix_forallb (q : ascii -> bool) (p s rest : string) :
  strip_prefix p s = Some rest ->
  string_forallb q s = true -> string_forallb q p = true.
Proof.
  revert s. induction p as [|a p IH]; intros s; simpl; [done|].
  destruct s as [|b s]; [done|]. destruct (Ascii.eqb_spec a b) as [->|]; [|done].
  simpl. intros Hrest [-> Hs]%andb_prop. simpl. by apply (IH s).
Qed.

Lemma remove_protocol_no_slash (s : string) :
  no_slash s = true -> remove_protocol s = s.
Proof.
  intros Hs. unfold remove_protocol.
  repeat case_match; try done;
    match goal with
    | H : strip_prefix _ s = Some _ |- _ =>
        apply (strip_prefix_forallb _ _ _ _ H) in Hs; discriminate
    end.
Qed.

Lemma remove_path_fixed (s : string) : no_slash s = true -> remove_path s = s.
Proof.
  unfold no_slash. induction s as [|c s IH]; simpl; [done|].
  intros [Hc Hs]%andb_prop. apply negb_true_iff in Hc. rewrite Hc. simpl.
  by rewrite IH.
Qed.

Lemma string_filter_fixed (p : ascii -> bool) (s : string) :
  string_forallb p s = true -> string_filter p s = s.
Proof.
  induction s as [|c s IH]; simpl; [done|].
  intros [-> Hs]%andb_prop. by rewrite IH.
Qed.

Lemma cleanTarget_fixed (target : string) :
  no_slash target = true -> no_shell_meta target = true -> trimmed target ->
  cleanTarget target = target.
Proof.
  intros Hslash Hmeta Htrim. unfold cleanTarget.
  rewrite remove_protocol_no_slash, remove_path_fixed, string_filter_fixed;
    done.
Qed.

Lemma cleanTarget_trimmed (target : string) : trimmed (cleanTarget target).
Proof. apply trim_idem. Qed.

(** X10.  On a target without line terminators the sanitizer of the ping
    worker does its whole job: the result has no [/] (so neither a path nor
    a protocol prefix), none of the characters [[;&|`$<>]], no white space
    at either end and no line terminator, and sanitizing it again changes
    nothing. *)
Theorem cleanTarget_cleans_single_line_targets
    (target : string) (Hline : single_line target = true) :
  let cleaned := cleanTarget target in
  no_slash cleaned = true
  /\ no_shell_meta cleaned = true
  /\ trimmed cleaned
  /\ single_line cleaned = true
  /\ cleanTarget cleaned = cleaned.
Proof.
  simpl.
  assert (Hslash := cleanTarget_single_line_no_slash target Hline).
  assert (Hmeta := cleanTarget_no_shell_meta target).
  split; [exact Hslash|]. split; [exact Hmeta|].
  split; [apply cleanTarget_trimmed|].
  split.
  { unfold cleanTarget, single_line.
    apply forallb_trim, forallb_filter_keeps.
    assert (Hp := single_line_remove_protocol target Hline).
    revert Hp. unfold single_line. generalize (remove_protocol target).
    induction s as [|c s IH]; simpl; [done|].
    intros [Hc Hs]%andb_prop. rewrite Hs, andb_true_r.
    destruct (Ascii.eqb c "/"); simpl; [done|]. rewrite Hc. by apply IH. }
  apply cleanTarget_fixed; [exact Hslash|exact Hmeta|apply cleanTarget_trimmed].
Qed.

(** X11.  The sanitizer leaves a clean target alone: a string without [/],
    without the characters [[;&|`$<>]] and without white space at either
    end (a host name, an IPv4 or IPv6 address) is returned unchanged, and
    the command line is the fixed [ping] prefix of the platform followed by
    that very string. *)
Theorem cleanTarget_keeps_clean_targets
    (h : host) (target : string)
    (Hslash : no_slash target = true)
    (Hmeta : no_shell_meta target = true)
    (Htrim : trimmed target) :
  cleanTarget target = target
  /\ (command h (cleanTarget target) = "ping -n 4 -w 3000 " +:+ target
      \/ command h (cleanTarget target) = "ping -c 4 -W 3 " +:+ target).
Proof.
  rewrite cleanTarget_fixed by done. split; [done|].
  unfold command. destruct (String.eqb (platform h) "win32"); auto.
Qed.

End Sanitizer.

(** ** The DNS worker: results and validation *)

Section DNSResults.
Import DNSModule.

Lemma consistent_createDNSResult (h : host) (target : value) (ok : bool)
    (addresses : list value) (resolveTime : value) (text recordType : string)
    (errorCode : value) :
  (ok = true ->
   errorCode = VNull /\ recordType ∈ ["A"; "AAAA"; "ANY"]
   /\ exists t, resolveTime = VNum t) ->
  (ok = false -> addresses = [] /\ recordType = "A" /\ resolveTime = VNull) ->
  dns_payload_consistent
    (createDNSResult h target ok addresses resolveTime text recordType errorCode).
Proof.
  intros Hok Hfailed.
  split; [reflexivity|]. split; [reflexivity|]. split; [reflexivity|].
  exists ok, addresses, recordType. repeat split; try apply Hok; try apply Hfailed;
    done.
Qed.

Lemma consistent_dns_error_result (h : host) (id target : value)
    (target_text text : string) :
  dns_payload_consistent (error_result h id target target_text text).
Proof.
  split; [reflexivity|]. split; [reflexivity|]. split; [reflexivity|].
  exists false, [], "A". repeat split; done.
Qed.

Lemma consistent_dns_insert_jobId (id : value) (payload : obj) :
  dns_payload_consistent payload ->
  dns_payload_consistent (<["jobId" := id]> payload).
Proof.
  intros (Hid & Htype & Hstatus & Hresult).
  split; [by rewrite lookup_insert_ne|].
  rewrite !field_insert_ne by done.
  unfold result_field in *. rewrite !field_insert_ne by done. done.
Qed.

Lemma consistent_resolution (h : host) (target : value) (dnsResult : obj) :
  resolution h target = Normal dnsResult -> dns_payload_consistent dnsResult.
Proof.
  assert (Hsuccess : forall (addresses : list value) (t : Z) (text kind : string),
            kind ∈ ["A"; "AAAA"; "ANY"] ->
            dns_payload_consistent
              (createDNSResult h target true addresses (VNum t) text kind VNull)).
  { intros. apply consistent_createDNSResult; [|done]. eauto. }
  assert (Hfailure : forall (name : value) (text : string) (errorCode : value),
            dns_payload_consistent
              (createDNSResult h name false [] VNull text "A" errorCode)).
  { intros. by apply consistent_createDNSResult. }
  unfold resolution, executeRealDNSLookup, try_catch.
  destruct (isValidDomain target) eqn:Hvalid; simpl;
    [|intros [= <-]; apply Hfailure].
  destruct target as [| | | |s| |]; try discriminate.
  unfold lookup, try_catch, bind, call_cleanTarget, await, ret, throw.
  destruct (resolve4 h (cleanTarget s)).
  { intros [= <-]. apply Hsuccess. set_solver. }
  destruct (resolve6 h (cleanTarget s)).
  { intros [= <-]. apply Hsuccess. set_solver. }
  destruct (resolveAny h (cleanTarget s)).
  { intros [= <-]. apply Hsuccess. set_solver. }
  destruct (categorize (VStr s) error tt) as [[chosen|thrown] []]; [|discriminate].
  intros [= <-]. apply Hfailure.
Qed.

(** X12.  Whatever message the DNS worker is delivered, whatever the three
    resolver calls answer and whatever the bus does, the worker completes
    normally and what it publishes, if anything, is one self-consistent
    result: no [id] of its own, [type] ['dns'], [status] ['completed'], an
    address count equal to the number of addresses listed; on success a
    null error code, a record type among A, AAAA and ANY and a numeric
    resolve time; on failure no addresses, record type A and a null
    resolve time. *)
Theorem dns_worker_payloads_are_consistent
    (h : host) (msg : wire) (c : Nats.connection) :
  exists c' : Nats.connection,
    on_job h msg c = (Normal tt, c')
    /\ (Nats.published c' = Nats.published c
        \/ exists (subject : string) (payload : obj),
             Nats.published c'
             = Nats.published c
                 ++ [{| Nats.topic := subject; Nats.data := VObj payload |}]
             /\ dns_payload_consistent payload).
Proof.
  destruct (is_dns_job msg) eqn:Hmsg.
  - apply is_dns_job_object in Hmsg as (job & -> & Hkind).
    rewrite (on_job_dns h job c Hkind).
    destruct (to_string (field "target" job)) as [target_text|] eqn:Htarget;
      [|exists c; by split; [|left]].
    pose proof (processDNSJob_object h job target_text c Htarget) as Hrun.
    simpl in Hrun.
    destruct (to_string (field "id" job)) as [id_text|];
      [|rewrite Hrun; exists c; by split; [|left]].
    destruct (resolution h (field "target" job))
      as [dnsResult|error] eqn:Hresolution;
      [|destruct Hrun as (text & _ & Hrun)];
      rewrite Hrun, ?publish_cases;
      repeat match goal with
             | |- context [if Nats.accepts ?x then _ else _] =>
                 destruct (Nats.accepts x); rewrite ?publish_cases
             end;
      eexists; (split; [reflexivity|]); simpl; auto;
      right; eexists _, _; (split; [reflexivity|]);
      auto using consistent_dns_error_result.
    apply consistent_dns_insert_jobId.
    by apply (consistent_resolution h (field "target" job)).
  - exists c. split; [by apply dns_on_job_other|by left].
Qed.

(** X13.  The record-type fallback of the DNS lookup, for a target that
    passes the domain validation: A records are preferred and the AAAA and
    ANY lookups then play no part; AAAA records are used when the A lookup
    is rejected; the ANY lookup, filtered to its A and AAAA records, when
    both are rejected; and when all three are rejected the lookup ends as
    the categorization of the error of the first lookup alone does: with
    the failure it chooses, the cleaned name as target, or with what it
    throws.  The categorization chooses a failure whenever the message of
    that error converts to a string. *)
Theorem dns_lookup_falls_back_in_order {St : Type}
    (h : host) (target : string) (st : St)
    (Hvalid : isValidDomain (VStr target) = true) :
  let name := cleanTarget target in
  let found addresses kind :=
    createDNSResult h (VStr target) true addresses (VNum (end_now h - start_now h))
      ("Resolved " +:+ name +:+ " to "
       +:+ pretty (Z.of_nat (length addresses)) +:+ " IP addresses ("
       +:+ kind +:+ ") in " +:+ pretty (end_now h - start_now h) +:+ "ms")
      kind VNull in
  (forall a, resolve4 h name = Resolved a ->
     executeRealDNSLookup h (VStr target) st
     = (Normal (found (List.map VStr a) "A"), st))
  /\ (forall a, rejected (resolve4 h name) = true ->
        resolve6 h name = Resolved a ->
        executeRealDNSLookup h (VStr target) st
        = (Normal (found (List.map VStr a) "AAAA"), st))
  /\ (forall records, rejected (resolve4 h name) = true ->
        rejected (resolve6 h name) = true ->
        resolveAny h name = Resolved records ->
        executeRealDNSLookup h (VStr target) st
        = (Normal (found
                     (List.map (field "address")
                        (List.filter
                           (fun record =>
                              strict_eq (field "type" record) (VStr "A")
                              || strict_eq (field "type" record) (VStr "AAAA"))
                           records))
                     "ANY"), st))
  /\ (forall error, resolve4 h name = Rejected error ->
        rejected (resolve6 h name) = true ->
        rejected (resolveAny h name) = true ->
        executeRealDNSLookup h (VStr target) st
        = (match fst (categorize (VStr target) error tt) with
           | Normal chosen =>
               Normal (createDNSResult h (VStr name) false [] VNull
                         (fst chosen) "A" (snd chosen))
           | Thrown thrown => Thrown thrown
           end, st))
  /\ (forall error, converts (field "message" error) = true ->
        exists chosen, fst (categorize (VStr target) error tt) = Normal chosen).
Proof.
  simpl. split; [|split; [|split; [|split]]].
  5: { intros error Hmessage. apply converts_Some in Hmessage as [text Htext].
       unfold categorize, call_cleanTarget. cbv zeta.
       repeat case_match; rewrite ?run_ret; try (by eexists).
       all: rewrite (run_ToString _ _ _ _ Htext); by eexists. }
  all: rewrite executeRealDNSLookup_state; unfold resolution.
  all: unfold executeRealDNSLookup, lookup, try_catch, bind, call_cleanTarget,
         await, ret, throw.
  all: rewrite Hvalid; simpl.
  - by intros a ->.
  - intros a H4 ->. by destruct (resolve4 h (cleanTarget target)).
  - intros records H4 H6 ->.
    destruct (resolve4 h (cleanTarget target)); [discriminate|].
    by destruct (resolve6 h (cleanTarget target)).
  - intros error -> H6 Hany.
    destruct (resolve6 h (cleanTarget target)); [discriminate|].
    destruct (resolveAny h (cleanTarget target)); [discriminate|].
    by destruct (categorize (VStr target) error tt) as [[chosen|thrown] []].
Qed.

Lemma forallb_label (l : string) :
  label l = true -> string_forallb is_domain_char l = true.
Proof.
  assert (Hweaken : forall s, string_forallb is_label_char s = true ->
                              string_forallb is_domain_char s = true).
  { induction s as [|c s IH]; simpl; [done|].
    intros [Hc Hs]%andb_prop. unfold is_domain_char at 1. rewrite Hc. simpl.
    by apply IH. }
  destruct l as [|c rest]; [discriminate|]. simpl.
  intros [Hc Hrest]%andb_prop.
  unfold is_domain_char at 1, is_label_char. rewrite Hc. simpl.
  apply Hweaken. rewrite <- forallb_rev.
  destruct (String.rev rest) as [|d middle]; [done|].
  apply andb_prop in Hrest as [[Hd _]%andb_prop Hmiddle].
  simpl. unfold is_label_char at 1. by rewrite Hd, Hmiddle.
Qed.

Lemma forallb_split_dots (s : string) :
  Forall (fun l => string_forallb is_domain_char l = true) (split_dots s) ->
  string_forallb is_domain_char s = true.
Proof.
  induction s as [|c s IH]; simpl; [done|].
  destruct (Ascii.eqb c ".") eqn:Hdot.
  - intros Hall. inversion Hall; subst.
    unfold is_domain_char at 1. rewrite Hdot, orb_true_r. by apply IH.
  - destruct (split_dots s) as [|l ls]; intros Hall; inversion Hall as [|? ? Hl Hls];
      subst; simpl in Hl; apply andb_prop in Hl as [Hc Hl]; rewrite Hc; simpl.
    + apply IH. constructor.
    + apply IH. by constructor.
Qed.

Lemma domainRegex_chars (s : string) :
  domainRegex s = true -> string_forallb is_domain_char s = true.
Proof.
  unfold domainRegex. intros Hs. apply forallb_split_dots.
  destruct (split_dots s) as [|l1 [|l2 ls]]; try discriminate.
  apply Forall_forall. intros l Hl. apply forallb_label.
  rewrite forallb_forall in Hs. apply Hs. by apply list_elem_of_In.
Qed.

Lemma split_dots_has_dot (s : string) :
  (2 <= length (split_dots s))%nat -> includes s "." = true.
Proof.
  induction s as [|c s IH]; [simpl; lia|].
  cbn [split_dots includes].
  destruct (Ascii.eqb_spec c ".") as [->|Hc]; [done|].
  destruct (split_dots s) as [|l ls]; simpl; [lia|].
  intros Hlen. rewrite IH by (simpl; lia). apply orb_true_r.
Qed.

Lemma domainRegex_has_dot (s : string) :
  domainRegex s = true -> includes s "." = true.
Proof.
  unfold domainRegex. intros Hs. apply split_dots_has_dot.
  destruct (split_dots s) as [|l1 [|l2 ls]]; try discriminate. simpl. lia.
Qed.

Lemma forallb_weaken (p q : ascii -> bool) (s : string) :
  (forall c, p c = true -> q c = true) ->
  string_forallb p s = true -> string_forallb q s = true.
Proof.
  intros Hpq. induction s as [|c s IH]; simpl; [done|].
  intros [Hc Hs]%andb_prop. by rewrite (Hpq c Hc), IH.
Qed.

Lemma domain_char_no_slash (c : ascii) :
  is_domain_char c = true -> negb (Ascii.eqb c "/") = true.
Proof. destruct c as [[] [] [] [] [] [] [] []]; vm_compute; congruence. Qed.

Lemma domain_char_no_meta (c : ascii) :
  is_domain_char c = true -> negb (PingModule.is_shell_meta c) = true.
Proof. destruct c as [[] [] [] [] [] [] [] []]; vm_compute; congruence. Qed.

(** X14.  The domain validation lets through only host names: when
    [isValidDomain] accepts a target, the cleaned name, which is what the
    resolver is then called with, consists of letters, digits, hyphens and
    dots alone (no white space, no [/], no shell metacharacter), holds a
    dot, and has between 1 and 253 characters.  A value that is no string,
    and the empty string, are never accepted. *)
Theorem isValidDomain_accepts_only_host_names
    (domain : value) (Hvalid : isValidDomain domain = true) :
  exists s : string,
    domain = VStr s
    /\ s <> ""
    /\ string_forallb is_domain_char (cleanTarget s) = true
    /\ includes (cleanTarget s) "." = true
    /\ (1 <= String.length (cleanTarget s) <= 253)%nat
    /\ no_slash (cleanTarget s) = true
    /\ no_shell_meta (cleanTarget s) = true
    /\ trimmed (cleanTarget s).
Proof.
  destruct domain as [| | | |s| |]; try discriminate. exists s.
  unfold isValidDomain in Hvalid.
  destruct (String.eqb_spec s "") as [|Hs]; [discriminate|].
  destruct (String.length (cleanTarget s) <? 1)%nat eqn:Hmin; [discriminate|].
  destruct (253 <? String.length (cleanTarget s))%nat eqn:Hmax; [discriminate|].
  simpl in Hvalid.
  apply Nat.ltb_ge in Hmin, Hmax.
  assert (Hchars := domainRegex_chars _ Hvalid).
  split; [done|]. split; [done|]. split; [exact Hchars|].
  split; [by apply domainRegex_has_dot|]. split; [lia|].
  split.
  { exact (forallb_weaken is_domain_char _ _ domain_char_no_slash Hchars). }
  split.
  { exact (forallb_weaken is_domain_char _ _ domain_char_no_meta Hchars). }
  apply trim_idem.
Qed.

End DNSResults.

(** ** The registry over time *)

Section RegistryCounts.
Import AnchorService.

Variable positive_numeral : string -> bool.

(** *** What a handler leaves of the registry *)

Lemma keeps_stateless {St A : Type} (c : M St A) (c0 : M unit A) :
  stateless c c0 -> keeps c.
Proof. intros Hc s. by rewrite Hc. Qed.

Lemma keeps_ret {St A : Type} (a : A) : keeps (St := St) (ret a).
Proof. done. Qed.

Lemma keeps_bind {St A B : Type} (c : M St A) (k : A -> M St B) :
  keeps c -> (forall a, keeps (k a)) -> keeps (bind c k).
Proof.
  intros Hc Hk s. unfold bind. specialize (Hc s).
  destruct (c s) as [[a|e] s']; simpl in *; subst; [apply Hk|done].
Qed.

Lemma keeps_ToString {St : Type} (v : value) : keeps (St := St) (ToString v).
Proof. apply (keeps_stateless _ (ToString v)), tame_stateless, tame_ToString. Qed.

Lemma keeps_read {St : Type} (v : value) (key : string) :
  keeps (St := St) (read v key).
Proof. apply (keeps_stateless _ (read v key)), tame_stateless, tame_read. Qed.

Lemma keeps_join {St : Type} (v : value) : keeps (St := St) (join v).
Proof. destruct v; try done. apply keeps_ToString. Qed.

Lemma keeps_greater_than_zero {St : Type} (v : value) :
  keeps (St := St) (greater_than_zero positive_numeral v).
Proof.
  destruct v; try done; simpl;
    (apply keeps_bind; [apply keeps_ToString|intros ?; apply keeps_ret]).
Qed.

Lemma keeps_forEach {St : Type} (v : value) (callback : value -> M St unit) :
  (forall x, keeps (callback x)) -> keeps (forEach v callback).
Proof.
  intros Hcallback. destruct v; try done. simpl.
  induction items as [|x items IH]; [done|].
  apply keeps_bind; [apply Hcallback|intros _; exact IH].
Qed.

Lemma keeps_collect_rfcs (modules : registry) : keeps (collect_rfcs modules).
Proof.
  induction modules as [|[k m] rest IH]; [done|]. simpl.
  apply keeps_bind.
  - destruct (truthy (rfcCompliance m)); [|done]. by destruct (rfcCompliance m).
  - intros mine. apply keeps_bind; [exact IH|intros others; apply keeps_ret].
Qed.

Lemma keeps_logModuleSummary : keeps logModuleSummary.
Proof.
  intros s. unfold logModuleSummary, get_state. unfold bind at 1.
  refine (keeps_bind _ _ _ _ s); [apply keeps_collect_rfcs|intros allRFCs].
  apply keeps_bind; [apply keeps_join|intros ?; apply keeps_ret].
Qed.

(** The handler of an announcement leaves the registry as it was (it threw
    before [this.modules.set]) or with the announced record set (whether
    or not [logModuleSummary] threw after it). *)
Lemma handleModuleAnnouncement_registry (e : env) (moduleInfo : value)
    (modules : registry) :
  let after := snd (handleModuleAnnouncement positive_numeral e moduleInfo modules) in
  after = modules
  \/ exists name, after = map_set name (record e moduleInfo) modules.
Proof.
  assert (Hstep : forall (A : Type) (c : M registry A) (k : A -> M registry unit),
    keeps c ->
    (forall a, snd (k a modules) = modules
               \/ exists name, snd (k a modules)
                               = map_set name (record e moduleInfo) modules) ->
    snd (bind c k modules) = modules
    \/ exists name, snd (bind c k modules)
                    = map_set name (record e moduleInfo) modules).
  { intros A c k Hc Hk. unfold bind. specialize (Hc modules).
    destruct (c modules) as [[a|err] s']; simpl in *; subst; [apply Hk|by left]. }
  simpl. unfold handleModuleAnnouncement.
  apply Hstep; [apply keeps_read|intros name].
  apply Hstep; [apply keeps_ToString|intros _].
  apply Hstep; [apply keeps_read|intros version].
  apply Hstep; [apply keeps_ToString|intros _].
  apply Hstep; [apply keeps_read|intros type].
  apply Hstep; [apply keeps_ToString|intros _].
  apply Hstep; [apply keeps_read|intros compliance].
  apply Hstep.
  { destruct (truthy compliance); [apply keeps_greater_than_zero|apply keeps_ret]. }
  intros listed. apply Hstep.
  { destruct listed; [|apply keeps_ret]. apply keeps_forEach. intros rfc.
    apply keeps_bind; [apply keeps_ToString|intros ?; apply keeps_ret]. }
  intros _. apply Hstep; [apply keeps_read|intros key].
  right. exists key. unfold bind at 1, modify.
  apply keeps_logModuleSummary.
Qed.

(** *** Keys and counts *)

Lemma map_set_new (key : value) (m : module) (modules : registry) :
  map_get key modules = None -> map_set key m modules = modules ++ [(key, m)].
Proof.
  induction modules as [|[k old] rest IH]; simpl; [done|].
  destruct (strict_eq k key); [done|]. intros Hrest. by rewrite IH.
Qed.

Lemma map_set_known (key : value) (m : module) (modules : registry) :
  is_Some (map_get key modules) ->
  map fst (map_set key m modules) = map fst modules
  /\ (healthy m = true ->
      healthyModules modules <= healthyModules (map_set key m modules))%nat.
Proof.
  unfold healthyModules.
  induction modules as [|[k old] rest IH]; simpl; [by intros [? ?]|].
  destruct (strict_eq k key); simpl.
  - intros _. split; [done|]. intros ->. destruct (healthy old); simpl; lia.
  - intros Hrest. destruct (IH Hrest) as [Hkeys Hcount]. split; [by rewrite Hkeys|].
    intros Hm. specialize (Hcount Hm). destruct (healthy old); simpl; lia.
Qed.

Lemma map_set_keys (key : value) (m : module) (modules : registry) :
  map fst modules `prefix_of` map fst (map_set key m modules)
  /\ (length (map_set key m modules) <= S (length modules))%nat.
Proof.
  destruct (map_get key modules) as [old|] eqn:Hget.
  - destruct (map_set_known key m modules) as [Hkeys _]; [by eexists|].
    split; [by rewrite Hkeys|].
    rewrite <- (length_map fst), Hkeys, length_map. lia.
  - rewrite (map_set_new _ _ _ Hget). split.
    + rewrite map_app. by apply prefix_app_r.
    + rewrite length_app. simpl. lia.
Qed.

Lemma healthyModules_app (modules more : registry) :
  healthyModules (modules ++ more) = (healthyModules modules + healthyModules more)%nat.
Proof. unfold healthyModules. by rewrite List.filter_app, length_app. Qed.

(** *** Sweeps *)

(** A record after the callback of the sweep completed is the swept record;
    the callback throws on healthy records past the window only. *)
Lemma check_module_cases (t : Z) (name : value) (m : module) :
  match fst (check_module t name m tt) with
  | Normal m' => m' = swept t m
  | Thrown _ => healthy m = true /\ (t - lastSeen m >? 30000) = true
  end.
Proof.
  unfold check_module, swept. destruct m as [info seen h ct]. simpl.
  destruct (t - seen >? 30000); simpl; [|by rewrite andb_true_r].
  rewrite andb_false_r. destruct h; [|done].
  unfold bind, ret. repeat (case_match; simpl in *; simplify_eq); done.
Qed.

Lemma check_module_swept (t : Z) (name : value) (m : module) :
  check_module t name (swept t m) tt = (Normal (swept t m), tt).
Proof.
  unfold check_module, swept. destruct m as [info seen h ct]. simpl.
  destruct (t - seen >? 30000) eqn:Hstale; simpl.
  - by rewrite andb_false_r.
  - by rewrite andb_true_r.
Qed.

Lemma swept_max (t t' : Z) (m : module) :
  swept t (swept t' m) = swept (Z.max t t') m.
Proof.
  unfold swept. destruct m as [info seen h ct]. simpl. f_equal.
  destruct (Z.gtb_spec (t' - seen) 30000), (Z.gtb_spec (t - seen) 30000),
    (Z.gtb_spec (Z.max t t' - seen) 30000); destruct h; simpl; try done; lia.
Qed.

(** Entry by entry, a sweep leaves the key and either the record or the
    swept record. *)
Lemma startHealthMonitoring_entries (t : Z) (modules : registry) :
  Forall2 (fun old new =>
             fst new = fst old
             /\ (snd new = snd old \/ snd new = swept t (snd old)))
          modules (snd (startHealthMonitoring t modules)).
Proof.
  induction modules as [|[k m] rest IH]; simpl; [constructor|].
  pose proof (check_module_cases t k m) as Hm.
  destruct (fst (check_module t k m tt)) as [m'|err].
  - destruct (startHealthMonitoring t rest) as [outcome rest']. simpl in *.
    constructor; [|exact IH]. split; [done|]. by right.
  - simpl. constructor; [by split; [|left]|].
    clear. induction rest; constructor; [by split; [|left]|done].
Qed.

Lemma startHealthMonitoring_twice (t : Z) (modules : registry) :
  startHealthMonitoring t (snd (startHealthMonitoring t modules))
  = startHealthMonitoring t modules.
Proof.
  induction modules as [|[k m] rest IH]; [done|]. simpl.
  pose proof (check_module_cases t k m) as Hm.
  destruct (fst (check_module t k m tt)) as [m'|err] eqn:Hrun.
  - subst m'. destruct (startHealthMonitoring t rest) as [outcome rest'] eqn:Hrest.
    simpl in *. rewrite check_module_swept. simpl. by rewrite IH.
  - simpl. by rewrite Hrun.
Qed.

Lemma healthy_swept (t : Z) (m : module) :
  healthy (swept t m) = true -> healthy m = true /\ swept t m = m.
Proof.
  unfold swept. destruct m as [info seen h ct]. simpl.
  intros [-> ->]%andb_prop. done.
Qed.

Lemma step_keys (ev : event) (modules : registry) :
  let after := snd (step positive_numeral ev modules) in
  map fst modules `prefix_of` map fst after
  /\ (length after <= length modules + length (announcements [ev]))%nat.
Proof.
  destruct ev as [e [|moduleInfo]|t].
  - unfold step, bind, JSON_parse, throw. simpl. split; [done|lia].
  - change (step positive_numeral (Announce e (Json moduleInfo)) modules)
      with (handleModuleAnnouncement positive_numeral e moduleInfo modules).
    destruct (handleModuleAnnouncement_registry e moduleInfo modules)
      as [Hafter|[name Hafter]]; simpl in Hafter |- *; rewrite Hafter.
    + split; [done|lia].
    + destruct (map_set_keys name (record e moduleInfo) modules).
      split; [done|lia].
  - simpl. pose proof (startHealthMonitoring_entries t modules) as Hentries.
    assert (Hkeys : map fst (snd (startHealthMonitoring t modules)) = map fst modules).
    { induction Hentries as [|old new olds news [Hkey _] _ IH]; [done|].
      simpl. by rewrite Hkey, IH. }
    split; [by rewrite Hkeys|].
    rewrite <- (length_map fst), Hkeys, length_map. lia.
Qed.

(** X15.  The registry never forgets a module and counts consistently.
    Over any sequence of announcements and sweeps, whichever of their
    handlers throw, the registered names stay registered, in their order,
    so the module count of [GET /health] never decreases; it grows by at
    most one per announcement.  On a registry of well-formed announcements,
    a well-formed announcement of a new name raises the total and the
    healthy count by one; one of a known name keeps the names and the total
    and does not lower the healthy count. *)
Theorem registry_never_forgets
    (events : list event) (modules : registry) :
  map fst modules `prefix_of` map fst (run positive_numeral events modules)
  /\ (totalModules modules <= totalModules (run positive_numeral events modules))%nat
  /\ (totalModules (run positive_numeral events modules)
      <= totalModules modules + length (announcements events))%nat
  /\ (forall e moduleInfo,
        well_formed moduleInfo = true -> tidy modules = true ->
        map_get (field "name" moduleInfo) modules = None ->
        let after :=
          snd (handleModuleAnnouncement positive_numeral e (VObj moduleInfo) modules) in
        after = modules ++ [(field "name" moduleInfo, record e (VObj moduleInfo))]
        /\ totalModules after = S (totalModules modules)
        /\ healthyModules after = S (healthyModules modules))
  /\ (forall e moduleInfo,
        well_formed moduleInfo = true -> tidy modules = true ->
        is_Some (map_get (field "name" moduleInfo) modules) ->
        let after :=
          snd (handleModuleAnnouncement positive_numeral e (VObj moduleInfo) modules) in
        map fst after = map fst modules
        /\ totalModules after = totalModules modules
        /\ (healthyModules modules <= healthyModules after)%nat).
Proof.
  assert (Hrun : map fst modules `prefix_of` map fst (run positive_numeral events modules)
                 /\ (length (run positive_numeral events modules)
                     <= length modules + length (announcements events))%nat).
  { revert modules. induction events as [|ev events IH]; intros modules.
    - simpl. split; [done|lia].
    - change (run positive_numeral (ev :: events) modules)
        with (run positive_numeral events (snd (step positive_numeral ev modules))).
      destruct (step_keys ev modules) as [Hkeys Hlen].
      destruct (IH (snd (step positive_numeral ev modules))) as [Hkeys' Hlen'].
      split; [by etrans|].
      assert (length (announcements (ev :: events))
              = (length (announcements [ev]) + length (announcements events))%nat)
        as -> by (by destruct ev).
      lia. }
  destruct Hrun as [Hkeys Hlen].
  split; [exact Hkeys|].
  split.
  { unfold totalModules. apply prefix_length in Hkeys.
    by rewrite !length_map in Hkeys. }
  split; [exact Hlen|].
  split.
  { intros e moduleInfo Hinfo Htidy Hnew.
    destruct (handleModuleAnnouncement_well_formed positive_numeral e moduleInfo
                modules Hinfo Htidy) as [-> _].
    simpl. rewrite (map_set_new _ _ _ Hnew).
    split; [done|]. unfold totalModules. rewrite length_app.
    split; [simpl; lia|]. rewrite healthyModules_app.
    unfold healthyModules at 2. simpl. lia. }
  intros e moduleInfo Hinfo Htidy Hknown.
  destruct (handleModuleAnnouncement_well_formed positive_numeral e moduleInfo
              modules Hinfo Htidy) as [-> _].
  simpl.
  destruct (map_set_known (field "name" moduleInfo) (record e (VObj moduleInfo))
              modules Hknown) as [Hsame Hcount].
  split; [exact Hsame|].
  split; [|by apply Hcount].
  unfold totalModules. by rewrite <- (length_map fst), Hsame, length_map.
Qed.

(** X16.  Sweeps only ever lower the health of the registry.  A sweep,
    whether it runs to the end or throws on the way, keeps every module
    registered under its name and in its place, leaves each record as it
    was or marked as the sweep marks it, never raises the number of healthy
    modules, and marks no module healthy; a sweep repeated at the same time
    ends as the first did and changes nothing more.  On a registry of
    well-formed announcements a sweep runs to the end, and two sweeps in a
    row, in either order, leave what a single sweep at the later of the two
    times leaves. *)
Theorem sweeps_only_lower_health
    (t t' : Z) (modules : registry) :
  let after := snd (startHealthMonitoring t modules) in
  map fst after = map fst modules
  /\ totalModules after = totalModules modules
  /\ Forall2 (fun old new => snd new = snd old \/ snd new = swept t (snd old))
       modules after
  /\ (healthyModules after <= healthyModules modules)%nat
  /\ (forall key r,
        map_get key after = Some r -> healthy r = true ->
        map_get key modules = Some r)
  /\ startHealthMonitoring t after = startHealthMonitoring t modules
  /\ (tidy modules = true ->
      fst (startHealthMonitoring t modules) = Normal tt
      /\ startHealthMonitoring t (snd (startHealthMonitoring t' modules))
         = startHealthMonitoring (Z.max t t') modules).
Proof.
  intros after. pose proof (startHealthMonitoring_entries t modules) as Hentries.
  fold after in Hentries.
  assert (Hkeys : map fst after = map fst modules).
  { induction Hentries as [|old new olds news [Hkey _] _ IH]; [done|].
    simpl. by rewrite Hkey, IH. }
  split; [exact Hkeys|].
  split.
  { unfold totalModules. by rewrite <- (length_map fst), Hkeys, length_map. }
  split.
  { eapply Forall2_impl; [exact Hentries|]. by intros old new [_ ?]. }
  split.
  { unfold healthyModules. clear Hkeys.
    induction Hentries as [|old new olds news [_ Hnew] _ IH]; [done|]. simpl.
    destruct (healthy (snd new)) eqn:Hhealthy.
    - destruct Hnew as [Hnew|Hnew]; rewrite Hnew in Hhealthy.
      + rewrite Hhealthy. simpl. lia.
      + apply healthy_swept in Hhealthy as [-> _]. simpl. lia.
    - destruct (healthy (snd old)); simpl; lia. }
  split.
  { clear Hkeys. intros key r.
    induction Hentries as [|[k old] [k' new] olds news [Hkey Hnew] _ IH];
      [done|].
    simpl in *. subst k'. destruct (strict_eq k key); [|exact IH].
    intros [= <-] Hhealthy. destruct Hnew as [->| ->]; [done|].
    apply healthy_swept in Hhealthy as [_ ->]. done. }
  split; [apply startHealthMonitoring_twice|].
  intros Htidy.
  destruct (startHealthMonitoring_tidy t modules Htidy) as [Hsweep _].
  split; [by rewrite Hsweep|].
  destruct (startHealthMonitoring_tidy t' modules Htidy) as [-> Htidy'].
  simpl. destruct (startHealthMonitoring_tidy t _ Htidy') as [-> _].
  destruct (startHealthMonitoring_tidy (Z.max t t') modules Htidy) as [-> _].
  f_equal. rewrite map_map. apply map_ext. intros [k m]. simpl.
  by rewrite swept_max.
Qed.

End RegistryCounts.

(** ** The header whitelist of the HTTP worker *)

Section Headers.
Import HTTPModule.

Lemma truthy_field (k : string) (headers : obj) :
  truthy (field k headers) = true -> headers !! k = Some (field k headers).
Proof. unfold field. by destruct (headers !! k). Qed.

Lemma lookup_copied (headers : obj) (names : list string) (sanitized : obj)
    (k : string) :
  fold_left
    (fun sanitized header =>
       if truthy (field header headers)
       then <[header := field header headers]> sanitized
       else sanitized)
    names sanitized !! k
  = if bool_decide (k ∈ names) && truthy (field k headers)
    then headers !! k
    else sanitized !! k.
Proof.
  revert sanitized. induction names as [|name names IH]; intros sanitized; simpl;
    [done|].
  rewrite IH. destruct (decide (k ∈ names)) as [Hin|Hout].
  - rewrite !bool_decide_eq_true_2 by (done || by right). simpl.
    destruct (truthy (field k headers)) eqn:Hk; [done|].
    destruct (decide (k = name)) as [->|Hne]; [by rewrite Hk|].
    destruct (truthy (field name headers)); [by rewrite lookup_insert_ne|done].
  - rewrite (bool_decide_eq_false_2 (k ∈ names)) by done. simpl.
    destruct (decide (k = name)) as [->|Hne].
    + rewrite bool_decide_eq_true_2 by left. simpl.
      destruct (truthy (field name headers)) eqn:Hk; [|done].
      by rewrite lookup_insert_eq, truthy_field.
    + rewrite bool_decide_eq_false_2 by (by intros [?|?]%elem_of_cons).
      simpl.
      destruct (truthy (field name headers)); [by rewrite lookup_insert_ne|done].
Qed.

Lemma lookup_sanitizeHeaders (headers : obj) (k : string) :
  sanitizeHeaders headers !! k
  = if bool_decide (k ∈ safeHeaders) && truthy (field k headers)
    then headers !! k
    else None.
Proof. unfold sanitizeHeaders. by rewrite lookup_copied, lookup_empty. Qed.

(** X17.  The header sanitizer of the HTTP worker is a whitelist.  Its
    result holds exactly the headers of the response whose name is one of
    the eleven safe names and whose value is truthy, each with the value
    the response gave it; so it is a part of the response headers, a header
    outside the list (a cookie, a credential) neither appears in it nor
    influences it, and sanitizing twice is the same as sanitizing once. *)
Theorem sanitizeHeaders_is_a_whitelist (headers : obj) :
  (forall k,
     sanitizeHeaders headers !! k
     = if bool_decide (k ∈ safeHeaders) && truthy (field k headers)
       then headers !! k
       else None)
  /\ sanitizeHeaders headers ⊆ headers
  /\ (forall k, is_Some (sanitizeHeaders headers !! k) -> k ∈ safeHeaders)
  /\ (forall k v, k ∉ safeHeaders ->
        sanitizeHeaders (<[k := v]> headers) = sanitizeHeaders headers)
  /\ sanitizeHeaders (sanitizeHeaders headers) = sanitizeHeaders headers.
Proof.
  split; [apply lookup_sanitizeHeaders|].
  split.
  { apply map_subseteq_spec. intros k v. rewrite lookup_sanitizeHeaders.
    by case_match. }
  split.
  { intros k. rewrite lookup_sanitizeHeaders.
    destruct (decide (k ∈ safeHeaders)) as [Hin|Hout]; [done|].
    rewrite bool_decide_eq_false_2 by done. simpl. by intros [? ?]. }
  split.
  { intros k v Hk. apply map_eq. intros k'. rewrite !lookup_sanitizeHeaders.
    destruct (decide (k' ∈ safeHeaders)) as [Hin|Hout].
    - assert (k <> k') by congruence.
      by rewrite field_insert_ne, lookup_insert_ne.
    - by rewrite bool_decide_eq_false_2. }
  apply map_eq. intros k. rewrite lookup_sanitizeHeaders.
  unfold field at 1. rewrite lookup_sanitizeHeaders.
  destruct (bool_decide (k ∈ safeHeaders)); simpl; [|done].
  destruct (truthy (field k headers)) eqn:Hk; simpl; [|done].
  rewrite (truthy_field k headers Hk). simpl. by rewrite Hk.
Qed.

End Headers.

(** ** The two workers side by side *)

Section Workers.

Variable statistics : string -> string -> option (Z * value).

Lemma not_both_jobs (msg : wire) : is_ping_job msg && is_dns_job msg = false.
Proof.
  unfold is_ping_job, is_dns_job. destruct msg as [|v]; [done|].
  destruct (prop v "type") as [type|]; [|done].
  destruct type as [| | | |s| |]; try done. simpl.
  destruct (String.eqb_spec s "ping") as [->|]; done.
Qed.

(** X18.  The ping worker and the DNS worker both receive every message of
    the submit topic, and at most one of them answers it: no message is a
    job for both, a worker publishes nothing for a message that is not its
    job, and so one of the two always leaves the bus as it was.  A job the
    API accepted with a [type] that is neither ['ping'] nor ['dns'] is
    answered by neither of them. *)
Theorem workers_answer_disjoint_jobs
    (hp : PingModule.host) (hd : DNSModule.host) (msg : wire)
    (c : Nats.connection) :
  is_ping_job msg && is_dns_job msg = false
  /\ (is_ping_job msg = false ->
      PingModule.on_job statistics hp msg c = (Normal tt, c))
  /\ (is_dns_job msg = false -> DNSModule.on_job hd msg c = (Normal tt, c))
  /\ (PingModule.on_job statistics hp msg c = (Normal tt, c)
      \/ DNSModule.on_job hd msg c = (Normal tt, c))
  /\ (forall (q : ManagementAPI.request_env) (req_body : obj),
        strict_eq (field "type" req_body) (VStr "ping") = false ->
        strict_eq (field "type" req_body) (VStr "dns") = false ->
        let job := ManagementAPI.new_job q (ManagementAPI.generateJobId q)
                     (field "type" req_body) (field "target" req_body) in
        PingModule.on_job statistics hp (Json (VObj job)) c = (Normal tt, c)
        /\ DNSModule.on_job hd (Json (VObj job)) c = (Normal tt, c)).
Proof.
  split; [apply not_both_jobs|].
  split; [apply on_job_other|]. split; [apply dns_on_job_other|].
  split.
  { destruct (is_ping_job msg) eqn:Hping.
    - right. apply dns_on_job_other.
      pose proof (not_both_jobs msg) as Hboth. by rewrite Hping in Hboth.
    - left. by apply on_job_other. }
  intros q req_body Hping Hdns job.
  split; [apply on_job_other|apply dns_on_job_other]; simpl;
    change (field "type" job) with (field "type" req_body); done.
Qed.

End Workers.

(** ** Concrete runs of the further properties *)

Section FurtherRuns.
Import Samples.

(** X1 on a store of one record: the appended ping result is what the
    lookup by its job id returns. *)
Lemma append_then_query_witness :
  JSONStorage.write io_ok = JSONStorage.Written
  /\ JSONStorage.read_fails io_later = false
  /\ 1 <= 1
  /\ primitive (field "jobId" ping_result) = true
  /\ primitive (field "type" ping_result) = true
  /\ fst (JSONStorage.getByJobId io_later (field "jobId" ping_result)
            (snd (JSONStorage.saveMeasurement io_ok (VObj ping_result)
                    (JSONStorage.Stored [dns_record]))))
     = Normal (VObj (JSONStorage.measurement io_ok (VObj ping_result))).
Proof.
  assert (Hlimit : 1 <= 1) by lia.
  destruct (append_then_query io_ok io_later ping_result
              (JSONStorage.Stored [dns_record]) 1
              eq_refl eq_refl Hlimit eq_refl eq_refl) as (Hfound & _).
  split; [reflexivity|]. split; [reflexivity|]. split; [exact Hlimit|].
  split; [reflexivity|]. split; [reflexivity|]. exact Hfound.
Defined.

(** X2: the lookup of the DNS record is the same before and after the
    append of the ping result. *)
Lemma append_keeps_other_lookups_witness :
  JSONStorage.read_fails io_ok = false
  /\ JSONStorage.write io_ok = JSONStorage.Written
  /\ (length (JSONStorage.records_of (JSONStorage.Stored [dns_record])) < 1000)%nat
  /\ strict_eq (field "jobId" ping_result) (field "jobId" dns_record) = false
  /\ fst (JSONStorage.getByJobId io_later (field "jobId" dns_record)
            (snd (JSONStorage.saveMeasurement io_ok (VObj ping_result)
                    (JSONStorage.Stored [dns_record]))))
     = fst (JSONStorage.getByJobId io_later (field "jobId" dns_record)
              (JSONStorage.Stored [dns_record])).
Proof.
  assert (Hroom : (length (JSONStorage.records_of (JSONStorage.Stored [dns_record]))
                   < 1000)%nat) by (simpl; lia).
  split; [reflexivity|]. split; [reflexivity|]. split; [exact Hroom|].
  split; [reflexivity|].
  exact (append_keeps_other_lookups io_ok io_later ping_result
           (JSONStorage.Stored [dns_record]) (field "jobId" dns_record)
           eq_refl eq_refl Hroom eq_refl).
Defined.

(** X3 with the export directory flat under [data/]: the export of a store
    of two records is read back as those two records. *)
Lemma export_is_a_snapshot_witness :
  let d : gmap string JSONStorage.file :=
    {[ JSONStorageFiles.resultsFile join_flat
       := JSONStorage.Stored [ping_result; dns_record] ]} in
  let d' := snd (JSONStorageFiles.exportToFile join_flat io_ok (VStr "backup.json") d) in
  JSONStorage.write io_ok = JSONStorage.Written
  /\ fst (JSONStorageFiles.exportToFile join_flat io_ok (VStr "backup.json") d)
     = Normal (VStr "data/backup.json")
  /\ fst (JSONStorageFiles.readFile_at io_later "data/backup.json" d')
     = Normal [ping_result; dns_record].
Proof.
  intros d d'.
  destruct (export_is_a_snapshot join_flat io_ok io_later "backup.json" d VNull)
    as (Hwritten & _).
  destruct (Hwritten eq_refl) as (Hpath & _ & Hback & _).
  split; [reflexivity|]. split; [exact Hpath|]. exact (Hback eq_refl).
Defined.

(** X4: the first job submitted to an idle API is the whole listing. *)
Lemma job_listing_is_newest_first_witness :
  Nats.accepts (ManagementAPI.natsConnection (api_idle bus_up)) = true
  /\ ManagementAPI.get_jobs
       (snd (ManagementAPI.post_jobs request (VObj ping_job) (api_idle bus_up)))
     = ManagementAPI.new_job request (ManagementAPI.generateJobId request)
         (field "type" ping_job) (field "target" ping_job)
       :: take 49 (ManagementAPI.get_jobs (api_idle bus_up)).
Proof.
  destruct (job_listing_is_newest_first request ping_job (api_idle bus_up) eq_refl)
    as (_ & _ & Hfirst & _).
  split; [reflexivity|exact Hfirst].
Defined.

(** X6 on a malformed message, a result and a [null], the last with a
    disk that refuses the write. *)
Lemma result_listener_preserves_state_witness :
  let msgs := [(io_ok, Malformed); (io_ok, Json (VObj ping_result));
               (io_disk_full, Json VNull)] in
  (length (JSONStorage.records_of (ManagementAPI.storage (api_idle bus_up)))
   <= 1000)%nat
  /\ ManagementAPI.natsConnection
       (ManagementAPI.startResultListener msgs (api_idle bus_up)) = bus_up
  /\ clients_extend (ManagementAPI.wss (api_idle bus_up))
       (ManagementAPI.wss (ManagementAPI.startResultListener msgs (api_idle bus_up))).
Proof.
  intros msgs.
  assert (Hcap : (length (JSONStorage.records_of
                            (ManagementAPI.storage (api_idle bus_up)))
                  <= 1000)%nat) by (simpl; lia).
  destruct (result_listener_preserves_state msgs (api_idle bus_up) Hcap)
    as (Hbus & _ & _ & Hclients & _).
  split; [exact Hcap|]. split; [exact Hbus|exact Hclients].
Defined.

(** X7: a late failure report after the success report of the same job. *)
Lemma results_for_one_job_accumulate_witness :
  let st := {| ManagementAPI.natsConnection := bus_up;
               ManagementAPI.jobResults := [ping_job];
               ManagementAPI.storage := JSONStorage.Stored [];
               ManagementAPI.wss := Some [listener] |} in
  field "jobId" ping_result = field "jobId" late_result
  /\ ping_result !! "id" = None
  /\ ManagementAPI.jobResults
       (snd (ManagementAPI.on_result io_later (Json (VObj late_result))
               (snd (ManagementAPI.on_result io_ok (Json (VObj ping_result)) st))))
     = merge_first (late_result ∪ ping_result) [ping_job].
Proof.
  intros st.
  destruct (results_for_one_job_accumulate io_ok io_later ping_result late_result
              st eq_refl eq_refl) as (Htable & _).
  split; [reflexivity|]. split; [reflexivity|exact Htable].
Defined.

(** X8 on an idle API, a Linux host whose [ping] process is rejected and a
    disk that takes the write. *)
Lemma submitted_ping_job_is_completed_witness :
  let job := ManagementAPI.new_job request (ManagementAPI.generateJobId request)
               (VStr "ping") (VStr "8.8.8.8") in
  Nats.accepts (ManagementAPI.natsConnection (api_idle bus_up)) = true
  /\ Nats.accepts bus_up = true
  /\ (forall j, j ∈ ManagementAPI.jobResults (api_idle bus_up) ->
        strict_eq (field "id" j) (VStr (ManagementAPI.generateJobId request)) = false)
  /\ exists payload : obj,
       PingModule.on_job no_statistics linux_host (Json (VObj job)) bus_up
       = (Normal tt,
          Nats.accepted ("mmn.jobs.result." +:+ ManagementAPI.generateJobId request)
            (VObj payload) bus_up)
       /\ ManagementAPI.jobResults
            (snd (ManagementAPI.on_result io_ok (Json (VObj payload))
                    (snd (ManagementAPI.post_jobs request
                            (VObj (list_to_map [("type", VStr "ping");
                                                ("target", VStr "8.8.8.8")]))
                            (api_idle bus_up)))))
          = [assign job payload]
       /\ field "status" (assign job payload) = VStr "completed".
Proof.
  intros job.
  assert (Hfresh : forall j, j ∈ ManagementAPI.jobResults (api_idle bus_up) ->
            strict_eq (field "id" j) (VStr (ManagementAPI.generateJobId request))
            = false).
  { intros j Hj. simpl in Hj. by apply elem_of_nil in Hj. }
  destruct (submitted_ping_job_is_completed no_statistics request linux_host io_ok
              "8.8.8.8" (api_idle bus_up) bus_up eq_refl eq_refl Hfresh)
    as (payload & _ & Hrun & Hok & Hid & Hfinal).
  destruct (Hfinal payload Hok Hid) as (Htable & _ & Hstatus & _).
  split; [reflexivity|]. split; [reflexivity|]. split; [exact Hfresh|].
  exists payload. split; [exact Hrun|]. split; [exact Htable|exact Hstatus].
Defined.

(** X10 on a URL with a path and a shell command in its query. *)
Lemma cleanTarget_cleans_single_line_targets_witness :
  single_line "https://example.com/index.html?q=1;reboot" = true
  /\ PingModule.cleanTarget "https://example.com/index.html?q=1;reboot"
     = "example.com"
  /\ no_slash (PingModule.cleanTarget "https://example.com/index.html?q=1;reboot")
     = true.
Proof.
  destruct (cleanTarget_cleans_single_line_targets
              "https://example.com/index.html?q=1;reboot" eq_refl)
    as (Hslash & _).
  split; [reflexivity|]. split; [reflexivity|exact Hslash].
Defined.

(** X11 on an IPv4 address, on the Linux host. *)
Lemma cleanTarget_keeps_clean_targets_witness :
  no_slash "8.8.8.8" = true
  /\ no_shell_meta "8.8.8.8" = true
  /\ trimmed "8.8.8.8"
  /\ PingModule.cleanTarget "8.8.8.8" = "8.8.8.8"
  /\ PingModule.command linux_host (PingModule.cleanTarget "8.8.8.8")
     = "ping -c 4 -W 3 8.8.8.8".
Proof.
  destruct (cleanTarget_keeps_clean_targets linux_host "8.8.8.8"
              eq_refl eq_refl eq_refl) as (Hfixed & _).
  split; [reflexivity|]. split; [reflexivity|]. split; [reflexivity|].
  split; [exact Hfixed|reflexivity].
Defined.

(** X13 on a resolver that has AAAA records only. *)
Lemma dns_lookup_falls_back_in_order_witness :
  DNSModule.isValidDomain (VStr "https://www.example.com/index.html") = true
  /\ DNSModule.cleanTarget "https://www.example.com/index.html" = "example.com"
  /\ result_field "recordType"
       match fst (DNSModule.executeRealDNSLookup ipv6_only_host
                    (VStr "https://www.example.com/index.html") tt) with
       | Normal dnsResult => dnsResult
       | Thrown error => error
       end
     = VStr "AAAA".
Proof.
  destruct (dns_lookup_falls_back_in_order ipv6_only_host
              "https://www.example.com/index.html" tt eq_refl)
    as (_ & Hsix & _).
  split; [reflexivity|]. split; [reflexivity|].
  rewrite (Hsix ["2606:2800:220:1:248:1893:25c8:1946"] eq_refl eq_refl).
  reflexivity.
Defined.

(** X14 on a URL: what the resolver would be called with is the bare host
    name. *)
Lemma isValidDomain_accepts_only_host_names_witness :
  DNSModule.isValidDomain (VStr "https://www.example.com/index.html") = true
  /\ exists s : string,
       VStr "https://www.example.com/index.html" = VStr s
       /\ string_forallb is_domain_char (DNSModule.cleanTarget s) = true.
Proof.
  destruct (isValidDomain_accepts_only_host_names
              (VStr "https://www.example.com/index.html") eq_refl)
    as (s & Hs & _ & Hchars & _).
  split; [reflexivity|]. exists s. split; [exact Hs|exact Hchars].
Defined.

End FurtherRuns.
